(** * COREP Own Funds assistant: the deterministic core, embedded in Rocq

    This development embeds the pure part of the COREP assistant:

    - [backend/app/validation.py]: the numeric coercer [_to_optional_float]
      and the reconciler [validate_corep_result];
    - [backend/app/rag.py]: the tolerant parser [_parse_json] of [_call_llm]
      and the tail of [generate_corep_assessment], which reconciles the model
      output and folds the retrieved citations into [rules_used];
    - [backend/app/models.py]: the records [RetrievedDoc] and [CorepResult].

    The Python run time the code relies on is modelled in module [Py]:
    strings are sequences of Unicode code points, integers are unbounded,
    floats are IEEE 754 binary64 numbers (Rocq's primitive floats), and the
    builtins [str], [repr], [float], [format] and [json.loads] are functions
    that follow CPython 3.11.  Exceptions are values of an error monad.
    Interpreter resource limits (recursion depth, the digit limit of
    int/str conversions, memory) are outside the model, and a pydantic model
    is a record whose construction from well-typed fields succeeds. *)

From Stdlib Require Import ZArith NArith List String Ascii Bool Lia Floats.
From Stdlib Require Import Sorted Permutation DecimalPos DecimalN.
Import ListNotations.

Set Warnings "-inexact-float,-register-all".

(* ===================================================================== *)
(** * The Python run time *)
(* ===================================================================== *)

Module Py.

(** ** Strings *)

Local Open Scope N_scope.

(** A [str] is the sequence of its code points. *)
Definition str := list N.

(** [u "abc"] is the [str] of an ASCII literal. *)
Definition u (s : string) : str := map N_of_ascii (list_ascii_of_string s).

Fixpoint str_eqb (a b : str) : bool :=
  match a, b with
  | [], [] => true
  | x :: a', y :: b' => N.eqb x y && str_eqb a' b'
  | _, _ => false
  end.

(** [x in l] for a list of strings. *)
Definition contains (x : str) (l : list str) : bool := existsb (str_eqb x) l.

(** Comparison of strings, code point by code point ([<] on [str]). *)
Fixpoint str_compare (a b : str) : comparison :=
  match a, b with
  | [], [] => Eq
  | [], _ :: _ => Lt
  | _ :: _, [] => Gt
  | x :: a', y :: b' =>
      match N.compare x y with
      | Eq => str_compare a' b'
      | c => c
      end
  end.

Definition str_ltb (a b : str) : bool :=
  match str_compare a b with Lt => true | _ => false end.

(** [str.isspace] on one code point (Unicode 14.0). *)
Definition isspace (c : N) : bool :=
  ((9 <=? c) && (c <=? 13)) || ((28 <=? c) && (c <=? 32))
  || (c =? 0x85) || (c =? 0xa0) || (c =? 0x1680)
  || ((0x2000 <=? c) && (c <=? 0x200a))
  || (c =? 0x2028) || (c =? 0x2029) || (c =? 0x202f) || (c =? 0x205f)
  || (c =? 0x3000).

(** The zero digits of the Unicode decimal digit ranges (category Nd,
    Unicode 14.0); each range holds the ten digits in order. *)
Definition decimal_zeros : list N :=
  [0x30; 0x660; 0x6f0; 0x7c0; 0x966; 0x9e6; 0xa66; 0xae6; 0xb66; 0xbe6;
   0xc66; 0xce6; 0xd66; 0xde6; 0xe50; 0xed0; 0xf20; 0x1040; 0x1090; 0x17e0;
   0x1810; 0x1946; 0x19d0; 0x1a80; 0x1a90; 0x1b50; 0x1bb0; 0x1c40; 0x1c50;
   0xa620; 0xa8d0; 0xa900; 0xa9d0; 0xa9f0; 0xaa50; 0xabf0; 0xff10; 0x104a0;
   0x10d30; 0x11066; 0x110f0; 0x11136; 0x111d0; 0x112f0; 0x11450; 0x114d0;
   0x11650; 0x116c0; 0x11730; 0x118e0; 0x11950; 0x11c50; 0x11d50; 0x11da0;
   0x16a60; 0x16ac0; 0x16b50;
   0x1d7ce; 0x1d7d8; 0x1d7e2; 0x1d7ec; 0x1d7f6;
   0x1e140; 0x1e2f0; 0x1e950; 0x1fbf0].

(** The decimal value of a code point that is a decimal digit. *)
Definition to_decimal (c : N) : option N :=
  match find (fun z => (z <=? c) && (c <? z + 10)) decimal_zeros with
  | Some z => Some (c - z)
  | None => None
  end.

Definition is_ascii_digit (c : N) : bool := (48 <=? c) && (c <=? 57).

(** The first code point of [s] is an ASCII digit. *)
Definition head_digit (s : str) : bool :=
  match s with
  | d :: _ => is_ascii_digit d
  | [] => false
  end.

(** The first code point of [s] is [c]. *)
Definition head_is (c : N) (s : str) : bool :=
  match s with
  | x :: _ => x =? c
  | [] => false
  end.

Fixpoint lstrip (s : str) : str :=
  match s with
  | c :: s' => if isspace c then lstrip s' else s
  | [] => []
  end.

Definition rstrip (s : str) : str := rev (lstrip (rev s)).

(** [s.strip()]. *)
Definition strip (s : str) : str := rstrip (lstrip s).

Fixpoint starts_with (p s : str) : bool :=
  match p, s with
  | [], _ => true
  | x :: p', y :: s' => N.eqb x y && starts_with p' s'
  | _ :: _, [] => false
  end.

(** [s.replace(old, new)] for a non-empty [old]: the occurrences of [old]
    are replaced from the left, without overlap; [skip] counts the code
    points of a matched occurrence still to be dropped. *)
Fixpoint replace_from (old new : str) (skip : nat) (s : str) : str :=
  match s with
  | [] => []
  | c :: s' =>
      match skip with
      | S k => replace_from old new k s'
      | O =>
          if starts_with old s
          then new ++ replace_from old new (List.length old - 1)%nat s'
          else c :: replace_from old new 0 s'
      end
  end.

(** [s.replace(old, new)]; an empty [old] matches before every code point
    and at the end. *)
Definition replace (s old new : str) : str :=
  match old with
  | [] => new ++ flat_map (fun c => c :: new) s
  | _ => replace_from old new 0 s
  end.

(** [s.find(sub)]: the lowest index where [sub] occurs, or [-1]. *)
Fixpoint find_from (sub s : str) (i : Z) : Z :=
  if starts_with sub s then i
  else match s with
       | [] => (-1)%Z
       | _ :: s' => find_from sub s' (i + 1)%Z
       end.

Definition str_find (s sub : str) : Z := find_from sub s 0%Z.

(** [s.rfind(sub)]: the highest index where [sub] occurs, or [-1]. *)
Fixpoint rfind_from (sub s : str) (i : Z) : Z :=
  match s with
  | [] => if starts_with sub s then i else (-1)%Z
  | _ :: s' =>
      let r := rfind_from sub s' (i + 1)%Z in
      if (r =? -1)%Z then (if starts_with sub s then i else (-1)%Z) else r
  end.

Definition str_rfind (s sub : str) : Z := rfind_from sub s 0%Z.

(** A slice bound brought into [0 .. len], as Python does. *)
Definition clip_index (len i : Z) : Z :=
  if (i <? 0)%Z then Z.max 0 (i + len) else Z.min i len.

(** [s[a:b]]. *)
Definition slice (s : str) (a b : Z) : str :=
  let len := Z.of_nat (List.length s) in
  let a' := clip_index len a in
  let b' := clip_index len b in
  firstn (Z.to_nat (b' - a')) (skipn (Z.to_nat a') s).

(** [sep.join(parts)]. *)
Fixpoint join (sep : str) (parts : list str) : str :=
  match parts with
  | [] => []
  | [p] => p
  | p :: rest => p ++ sep ++ join sep rest
  end.

(** The decimal digits of a natural number. *)
Fixpoint uint_str (d : Decimal.uint) : str :=
  match d with
  | Decimal.Nil => []
  | Decimal.D0 d => 48 :: uint_str d
  | Decimal.D1 d => 49 :: uint_str d
  | Decimal.D2 d => 50 :: uint_str d
  | Decimal.D3 d => 51 :: uint_str d
  | Decimal.D4 d => 52 :: uint_str d
  | Decimal.D5 d => 53 :: uint_str d
  | Decimal.D6 d => 54 :: uint_str d
  | Decimal.D7 d => 55 :: uint_str d
  | Decimal.D8 d => 56 :: uint_str d
  | Decimal.D9 d => 57 :: uint_str d
  end.

Definition str_of_N (n : N) : str := uint_str (N.to_uint n).

(** [str(z)] for an [int]. *)
Definition str_of_int (z : Z) : str :=
  match z with
  | Zneg p => 45 :: str_of_N (Npos p)
  | _ => str_of_N (Z.to_N z)
  end.

(** ** Exceptions *)

Inductive exn : Type :=
| JSONDecodeError (doc : str)   (* json.JSONDecodeError, with the document it was raised on *)
| OverflowError
| AttributeError
| RuntimeError.

Inductive result (A : Type) : Type :=
| Ok (a : A)
| Raise (e : exn).

Arguments Ok {A} a.
Arguments Raise {A} e.

Definition bind {A B : Type} (c : result A) (k : A -> result B) : result B :=
  match c with
  | Ok a => k a
  | Raise e => Raise e
  end.

Declare Scope py_scope.
Delimit Scope py_scope with py.
Notation "x <- c ;; k" := (bind c (fun x => k))
  (at level 61, c at next level, right associativity) : py_scope.

(** ** Floats *)

Local Open Scope Z_scope.

(** [float(z)] for an [int]: the nearest binary64 number (ties to even);
    CPython raises [OverflowError] when that is out of range. *)
Definition float_of_int (z : Z) : result float :=
  match binary_normalize prec emax z 0 false with
  | S754_infinity _ => Raise OverflowError
  | sf => Ok (SF2Prim sf)
  end.

(** The binary64 number nearest to [(-1)^neg * m * 10^e] (ties to even):
    CPython's string to float conversion is correctly rounded. *)
Definition float_of_decimal (neg : bool) (m : N) (e : Z) : float :=
  match m with
  | N0 => if neg then neg_zero else zero
  | Npos p =>
      SF2Prim
        (if 0 <=? e
         then binary_normalize prec emax (cond_Zopp neg (Zpos p * 10 ^ e)) 0 neg
         else SFdiv prec emax (S754_finite neg p 0)
                (S754_finite false (Z.to_pos (10 ^ (- e))) 0))
  end.

(** A leading sign. *)
Definition parse_sign (s : str) : bool * str :=
  match s with
  | c :: s' =>
      if (c =? 45)%N then (true, s')
      else if (c =? 43)%N then (false, s')
      else (false, s)
  | [] => (false, s)
  end.

(** The longest run of ASCII digits at the head of [s], read onto [acc];
    [n] counts them. *)
Fixpoint take_digits (acc : N) (n : nat) (s : str) : N * nat * str :=
  match s with
  | c :: s' =>
      if is_ascii_digit c
      then take_digits (10 * acc + (c - 48))%N (S n) s'
      else (acc, n, s)
  | [] => (acc, n, [])
  end.

(** An exponent part [e], [E] with an optional sign and at least one digit;
    anything else is left unread. *)
Definition parse_exponent (s : str) : Z * str :=
  match s with
  | c :: s1 =>
      if ((c =? 101) || (c =? 69))%N then
        let '(neg, s2) := parse_sign s1 in
        let '(v, n, s3) := take_digits 0 0 s2 in
        match n with
        | O => (0, s)
        | _ => (if neg then - Z.of_N v else Z.of_N v, s3)
        end
      else (0, s)
  | [] => (0, s)
  end.

(** The decimal number at the head of [s] ([_Py_dg_strtod]): sign, digits
    with an optional point, optional exponent; at least one digit is needed. *)
Definition parse_decimal (s : str) : option (float * str) :=
  let '(neg, s1) := parse_sign s in
  let '(i, ni, s2) := take_digits 0 0 s1 in
  let '(m, nf, s3) :=
    match s2 with
    | c :: s2' => if (c =? 46)%N then take_digits i 0 s2' else (i, O, s2)
    | [] => (i, O, s2)
    end in
  match (ni + nf)%nat with
  | O => None
  | _ =>
      let '(e, s4) := parse_exponent s3 in
      Some (float_of_decimal neg m (e - Z.of_nat nf), s4)
  end.

Definition to_lower (c : N) : N :=
  if ((65 <=? c) && (c <=? 90))%N then (c + 32)%N else c.

(** [s] starts with the lower-case word [w], whatever the case in [s]. *)
Definition starts_with_nocase (w s : str) : bool :=
  starts_with w (map to_lower (firstn (List.length w) s)).

(** [inf], [infinity] and [nan] with an optional sign ([_Py_parse_inf_or_nan]). *)
Definition parse_inf_or_nan (s : str) : option (float * str) :=
  let '(neg, s1) := parse_sign s in
  if starts_with_nocase (u "inf") s1 then
    let s2 := skipn 3 s1 in
    let s3 := if starts_with_nocase (u "inity") s2 then skipn 5 s2 else s2 in
    Some (if neg then neg_infinity else infinity, s3)
  else if starts_with_nocase (u "nan") s1 then Some (nan, skipn 3 s1)
  else None.

(** Non-ASCII white space and decimal digits are brought to ASCII before
    parsing, any other non-ASCII code point to [?], which never parses. *)
Definition transform_char (c : N) : N :=
  if (c <? 127)%N then c
  else if isspace c then 32%N
  else match to_decimal c with
       | Some d => (48 + d)%N
       | None => 63%N
       end.

(** Underscores may only stand between two digits; they are dropped.
    [prev] is the code point before the head of [s]. *)
Fixpoint drop_underscores (prev : N) (s : str) : option str :=
  match s with
  | [] => if (prev =? 95)%N then None else Some []
  | c :: s' =>
      if (c =? 95)%N then
        if is_ascii_digit prev then drop_underscores c s' else None
      else if (prev =? 95)%N && negb (is_ascii_digit c) then None
      else option_map (cons c) (drop_underscores c s')
  end.

Definition is_c_space (c : N) : bool := ((9 <=? c) && (c <=? 13) || (c =? 32))%N.

Fixpoint lstrip_c (s : str) : str :=
  match s with
  | c :: s' => if is_c_space c then lstrip_c s' else s
  | [] => []
  end.

(** [float(s)] for a [str]; [None] stands for [ValueError]. *)
Definition float_of_str (s : str) : option float :=
  match drop_underscores 0%N (map transform_char s) with
  | None => None
  | Some t =>
      let t := rev (lstrip_c (rev (lstrip_c t))) in
      match parse_decimal t with
      | Some (x, []) => Some x
      | Some (_, _ :: _) => None
      | None =>
          match parse_inf_or_nan t with
          | Some (x, []) => Some x
          | _ => None
          end
      end
  end.

(** [a / b] rounded to the nearest integer, ties to even ([0 <= a], [0 < b]). *)
Definition div_half_even (a b : Z) : Z :=
  let q := a / b in
  match 2 * (a mod b) ?= b with
  | Lt => q
  | Gt => q + 1
  | Eq => if Z.even q then q else q + 1
  end.

Definition sign_str (neg : bool) : str := if neg then [45%N] else [].

(** The digits of [n] with a point before the last [nd] of them. *)
Definition fixed_point (n : N) (nd : nat) : str :=
  let ds := str_of_N n in
  let ds := repeat 48%N (nd + 1 - List.length ds) ++ ds in
  let k := (List.length ds - nd)%nat in
  match nd with
  | O => ds
  | _ => firstn k ds ++ 46%N :: skipn k ds
  end.

(** [format(x, '.<nd>f')]: the exact value of [x] rounded to [nd] decimals,
    ties to even. *)
Definition format_f (nd : nat) (x : float) : str :=
  match Prim2SF x with
  | S754_nan => u "nan"
  | S754_infinity neg => sign_str neg ++ u "inf"
  | S754_zero neg => sign_str neg ++ fixed_point 0 nd
  | S754_finite neg m e =>
      let scale := 10 ^ Z.of_nat nd in
      let n := if 0 <=? e then Zpos m * 2 ^ e * scale
               else div_half_even (Zpos m * scale) (2 ^ (- e)) in
      sign_str neg ++ fixed_point (Z.to_N n) nd
  end.

(** *** The shortest digits that read back as the same float *)

(** A positive finite float is the fraction [num / den]. *)
Definition fraction_of (m : positive) (e : Z) : Z * Z :=
  if 0 <=? e then (Zpos m * 2 ^ e, 1) else (Zpos m, 2 ^ (- e)).

(** [num / den * 10^p], numerator and denominator. *)
Definition scale10 (num den p : Z) : Z * Z :=
  if 0 <=? p then (num * 10 ^ p, den) else (num, den * 10 ^ (- p)).

(** The least [k] with [num / den < 10^k], searched downwards from [k]. *)
Fixpoint decimal_point (fuel : nat) (num den k : Z) : Z :=
  match fuel with
  | O => k
  | S fuel' =>
      let '(a, b) := scale10 num den (1 - k) in
      if a <? b then decimal_point fuel' num den (k - 1) else k
  end.

(** The candidate with [n] significant digits, when one reads back as [x]:
    the digits as a number and the power of ten they are scaled by. *)
Definition candidate (x : float) (num den k : Z) (n : Z) : option (N * Z) :=
  let p := n - k in
  let '(a, b) := scale10 num den p in
  let lo := a / b in
  let r := a mod b in
  let reads_back (c : Z) := PrimFloat.eqb (float_of_decimal false (Z.to_N c) (- p)) x in
  let lo_ok := reads_back lo in
  let hi_ok := negb (r =? 0) && reads_back (lo + 1) in
  let pick (c : Z) := Some (Z.to_N c, - p) in
  match lo_ok, hi_ok with
  | true, true =>
      match 2 * r ?= b with
      | Lt => pick lo
      | Gt => pick (lo + 1)
      | Eq => if Z.even lo then pick lo else pick (lo + 1)
      end
  | true, false => pick lo
  | false, true => pick (lo + 1)
  | false, false => None
  end.

Fixpoint shortest (fuel : nat) (x : float) (num den k : Z) (n : Z) : N * Z :=
  match candidate x num den k n with
  | Some c => c
  | None =>
      match fuel with
      | O => (Z.to_N (fst (scale10 num den (n - k)) / snd (scale10 num den (n - k))), k - n)
      | S fuel' => shortest fuel' x num den k (n + 1)
      end
  end.

Fixpoint strip_zeros_rev (ds : str) : str :=
  match ds with
  | 48%N :: ds' => strip_zeros_rev ds'
  | _ => ds
  end.

(** The shortest digit string of the positive finite float [m * 2^e] and the
    position [decpt] of its decimal point: the value reads [0.d1d2... * 10^decpt]. *)
Definition shortest_digits (m : positive) (e : Z) : str * Z :=
  let x := SF2Prim (S754_finite false m e) in
  let '(num, den) := fraction_of m e in
  let k0 := Z.of_nat (List.length (str_of_N (Z.to_N (num / den)))) in
  let k := decimal_point 400 num den k0 in
  let '(c, e10) := shortest 16 x num den k 1 in
  let ds := str_of_N c in
  (rev (strip_zeros_rev (rev ds)), Z.of_nat (List.length ds) + e10).

(** The exponent of the [e] notation: a sign and at least two digits. *)
Definition exponent_str (e : Z) : str :=
  let ds := str_of_N (Z.abs_N e) in
  (if e <? 0 then 45%N else 43%N)
    :: (match ds with [_] => 48%N :: ds | _ => ds end).

(** [repr(x)] for a [float], which is also [str(x)]. *)
Definition float_repr (x : float) : str :=
  match Prim2SF x with
  | S754_nan => u "nan"
  | S754_infinity neg => sign_str neg ++ u "inf"
  | S754_zero neg => sign_str neg ++ u "0.0"
  | S754_finite neg m e =>
      let '(ds, decpt) := shortest_digits m e in
      let n := Z.of_nat (List.length ds) in
      sign_str neg ++
      (if (decpt <=? -4) || (16 <? decpt) then
         firstn 1 ds
           ++ (match skipn 1 ds with [] => [] | rest => 46%N :: rest end)
           ++ 101%N :: exponent_str (decpt - 1)
       else if decpt <=? 0 then
         u "0." ++ repeat 48%N (Z.to_nat (- decpt)) ++ ds
       else if decpt <? n then
         firstn (Z.to_nat decpt) ds ++ 46%N :: skipn (Z.to_nat decpt) ds
       else
         ds ++ repeat 48%N (Z.to_nat (decpt - n)) ++ u ".0")
  end.

(** ** Values *)

(** The objects [json.loads] builds: [None], [bool], [int], [float], [str],
    [list] and [dict] with string keys, in insertion order. *)
Inductive value : Type :=
| VNone
| VBool (b : bool)
| VInt (z : Z)
| VFloat (x : float)
| VStr (s : str)
| VList (l : list value)
| VDict (d : list (str * value)).

Definition dict := list (str * value).

Fixpoint dict_lookup (d : dict) (k : str) : option value :=
  match d with
  | [] => None
  | (k', v) :: d' => if str_eqb k k' then Some v else dict_lookup d' k
  end.

(** [d.get(k, default)]. *)
Definition dict_get_default (d : dict) (k : str) (default : value) : value :=
  match dict_lookup d k with
  | Some v => v
  | None => default
  end.

(** [d.get(k)]. *)
Definition dict_get (d : dict) (k : str) : value := dict_get_default d k VNone.

(** [d[k] = v]: a key already present keeps its place. *)
Fixpoint dict_set (d : dict) (k : str) (v : value) : dict :=
  match d with
  | [] => [(k, v)]
  | (k', v') :: d' =>
      if str_eqb k k' then (k', v) :: d' else (k', v') :: dict_set d' k v
  end.

(** The truth value of an object. *)
Definition truthy (v : value) : bool :=
  match v with
  | VNone => false
  | VBool b => b
  | VInt z => negb (z =? 0)
  | VFloat x => negb (PrimFloat.eqb x zero)
  | VStr s => negb (Nat.eqb (List.length s) 0)
  | VList l => negb (Nat.eqb (List.length l) 0)
  | VDict d => negb (Nat.eqb (List.length d) 0)
  end.

(** [a or b]. *)
Definition py_or (a b : value) : value := if truthy a then a else b.

(** ** [repr] and [str] *)

(** The code points that are not printable ([str.isprintable], Unicode
    14.0), as inclusive ranges. *)
Definition nonprintable : list (N * N) :=
  [(0x0, 0x1f); (0x7f, 0xa0); (0xad, 0xad); (0x378, 0x379); (0x380, 0x383);
   (0x38b, 0x38b); (0x38d, 0x38d); (0x3a2, 0x3a2); (0x530, 0x530);
   (0x557, 0x558); (0x58b, 0x58c); (0x590, 0x590); (0x5c8, 0x5cf);
   (0x5eb, 0x5ee); (0x5f5, 0x605); (0x61c, 0x61c); (0x6dd, 0x6dd);
   (0x70e, 0x70f); (0x74b, 0x74c); (0x7b2, 0x7bf); (0x7fb, 0x7fc);
   (0x82e, 0x82f); (0x83f, 0x83f); (0x85c, 0x85d); (0x85f, 0x85f);
   (0x86b, 0x86f); (0x88f, 0x897); (0x8e2, 0x8e2); (0x984, 0x984);
   (0x98d, 0x98e); (0x991, 0x992); (0x9a9, 0x9a9); (0x9b1, 0x9b1);
   (0x9b3, 0x9b5); (0x9ba, 0x9bb); (0x9c5, 0x9c6); (0x9c9, 0x9ca);
   (0x9cf, 0x9d6); (0x9d8, 0x9db); (0x9de, 0x9de); (0x9e4, 0x9e5);
   (0x9ff, 0xa00); (0xa04, 0xa04); (0xa0b, 0xa0e); (0xa11, 0xa12);
   (0xa29, 0xa29); (0xa31, 0xa31); (0xa34, 0xa34); (0xa37, 0xa37);
   (0xa3a, 0xa3b); (0xa3d, 0xa3d); (0xa43, 0xa46); (0xa49, 0xa4a);
   (0xa4e, 0xa50); (0xa52, 0xa58); (0xa5d, 0xa5d); (0xa5f, 0xa65);
   (0xa77, 0xa80); (0xa84, 0xa84); (0xa8e, 0xa8e); (0xa92, 0xa92);
   (0xaa9, 0xaa9); (0xab1, 0xab1); (0xab4, 0xab4); (0xaba, 0xabb);
   (0xac6, 0xac6); (0xaca, 0xaca); (0xace, 0xacf); (0xad1, 0xadf);
   (0xae4, 0xae5); (0xaf2, 0xaf8); (0xb00, 0xb00); (0xb04, 0xb04);
   (0xb0d, 0xb0e); (0xb11, 0xb12); (0xb29, 0xb29); (0xb31, 0xb31);
   (0xb34, 0xb34); (0xb3a, 0xb3b); (0xb45, 0xb46); (0xb49, 0xb4a);
   (0xb4e, 0xb54); (0xb58, 0xb5b); (0xb5e, 0xb5e); (0xb64, 0xb65);
   (0xb78, 0xb81); (0xb84, 0xb84); (0xb8b, 0xb8d); (0xb91, 0xb91);
   (0xb96, 0xb98); (0xb9b, 0xb9b); (0xb9d, 0xb9d); (0xba0, 0xba2);
   (0xba5, 0xba7); (0xbab, 0xbad); (0xbba, 0xbbd); (0xbc3, 0xbc5);
   (0xbc9, 0xbc9); (0xbce, 0xbcf); (0xbd1, 0xbd6); (0xbd8, 0xbe5);
   (0xbfb, 0xbff); (0xc0d, 0xc0d); (0xc11, 0xc11); (0xc29, 0xc29);
   (0xc3a, 0xc3b); (0xc45, 0xc45); (0xc49, 0xc49); (0xc4e, 0xc54);
   (0xc57, 0xc57); (0xc5b, 0xc5c); (0xc5e, 0xc5f); (0xc64, 0xc65);
   (0xc70, 0xc76); (0xc8d, 0xc8d); (0xc91, 0xc91); (0xca9, 0xca9);
   (0xcb4, 0xcb4); (0xcba, 0xcbb); (0xcc5, 0xcc5); (0xcc9, 0xcc9);
   (0xcce, 0xcd4); (0xcd7, 0xcdc); (0xcdf, 0xcdf); (0xce4, 0xce5);
   (0xcf0, 0xcf0); (0xcf3, 0xcff); (0xd0d, 0xd0d); (0xd11, 0xd11);
   (0xd45, 0xd45); (0xd49, 0xd49); (0xd50, 0xd53); (0xd64, 0xd65);
   (0xd80, 0xd80); (0xd84, 0xd84); (0xd97, 0xd99); (0xdb2, 0xdb2);
   (0xdbc, 0xdbc); (0xdbe, 0xdbf); (0xdc7, 0xdc9); (0xdcb, 0xdce);
   (0xdd5, 0xdd5); (0xdd7, 0xdd7); (0xde0, 0xde5); (0xdf0, 0xdf1);
   (0xdf5, 0xe00); (0xe3b, 0xe3e); (0xe5c, 0xe80); (0xe83, 0xe83);
   (0xe85, 0xe85); (0xe8b, 0xe8b); (0xea4, 0xea4); (0xea6, 0xea6);
   (0xebe, 0xebf); (0xec5, 0xec5); (0xec7, 0xec7); (0xece, 0xecf);
   (0xeda, 0xedb); (0xee0, 0xeff); (0xf48, 0xf48); (0xf6d, 0xf70);
   (0xf98, 0xf98); (0xfbd, 0xfbd); (0xfcd, 0xfcd); (0xfdb, 0xfff);
   (0x10c6, 0x10c6); (0x10c8, 0x10cc); (0x10ce, 0x10cf); (0x1249, 0x1249);
   (0x124e, 0x124f); (0x1257, 0x1257); (0x1259, 0x1259); (0x125e, 0x125f);
   (0x1289, 0x1289); (0x128e, 0x128f); (0x12b1, 0x12b1); (0x12b6, 0x12b7);
   (0x12bf, 0x12bf); (0x12c1, 0x12c1); (0x12c6, 0x12c7); (0x12d7, 0x12d7);
   (0x1311, 0x1311); (0x1316, 0x1317); (0x135b, 0x135c); (0x137d, 0x137f);
   (0x139a, 0x139f); (0x13f6, 0x13f7); (0x13fe, 0x13ff); (0x1680, 0x1680);
   (0x169d, 0x169f); (0x16f9, 0x16ff); (0x1716, 0x171e); (0x1737, 0x173f);
   (0x1754, 0x175f); (0x176d, 0x176d); (0x1771, 0x1771); (0x1774, 0x177f);
   (0x17de, 0x17df); (0x17ea, 0x17ef); (0x17fa, 0x17ff); (0x180e, 0x180e);
   (0x181a, 0x181f); (0x1879, 0x187f); (0x18ab, 0x18af); (0x18f6, 0x18ff);
   (0x191f, 0x191f); (0x192c, 0x192f); (0x193c, 0x193f); (0x1941, 0x1943);
   (0x196e, 0x196f); (0x1975, 0x197f); (0x19ac, 0x19af); (0x19ca, 0x19cf);
   (0x19db, 0x19dd); (0x1a1c, 0x1a1d); (0x1a5f, 0x1a5f); (0x1a7d, 0x1a7e);
   (0x1a8a, 0x1a8f); (0x1a9a, 0x1a9f); (0x1aae, 0x1aaf); (0x1acf, 0x1aff);
   (0x1b4d, 0x1b4f); (0x1b7f, 0x1b7f); (0x1bf4, 0x1bfb); (0x1c38, 0x1c3a);
   (0x1c4a, 0x1c4c); (0x1c89, 0x1c8f); (0x1cbb, 0x1cbc); (0x1cc8, 0x1ccf);
   (0x1cfb, 0x1cff); (0x1f16, 0x1f17); (0x1f1e, 0x1f1f); (0x1f46, 0x1f47);
   (0x1f4e, 0x1f4f); (0x1f58, 0x1f58); (0x1f5a, 0x1f5a); (0x1f5c, 0x1f5c);
   (0x1f5e, 0x1f5e); (0x1f7e, 0x1f7f); (0x1fb5, 0x1fb5); (0x1fc5, 0x1fc5);
   (0x1fd4, 0x1fd5); (0x1fdc, 0x1fdc); (0x1ff0, 0x1ff1); (0x1ff5, 0x1ff5);
   (0x1fff, 0x200f); (0x2028, 0x202f); (0x205f, 0x206f); (0x2072, 0x2073);
   (0x208f, 0x208f); (0x209d, 0x209f); (0x20c1, 0x20cf); (0x20f1, 0x20ff);
   (0x218c, 0x218f); (0x2427, 0x243f); (0x244b, 0x245f); (0x2b74, 0x2b75);
   (0x2b96, 0x2b96); (0x2cf4, 0x2cf8); (0x2d26, 0x2d26); (0x2d28, 0x2d2c);
   (0x2d2e, 0x2d2f); (0x2d68, 0x2d6e); (0x2d71, 0x2d7e); (0x2d97, 0x2d9f);
   (0x2da7, 0x2da7); (0x2daf, 0x2daf); (0x2db7, 0x2db7); (0x2dbf, 0x2dbf);
   (0x2dc7, 0x2dc7); (0x2dcf, 0x2dcf); (0x2dd7, 0x2dd7); (0x2ddf, 0x2ddf);
   (0x2e5e, 0x2e7f); (0x2e9a, 0x2e9a); (0x2ef4, 0x2eff); (0x2fd6, 0x2fef);
   (0x2ffc, 0x3000); (0x3040, 0x3040); (0x3097, 0x3098); (0x3100, 0x3104);
   (0x3130, 0x3130); (0x318f, 0x318f); (0x31e4, 0x31ef); (0x321f, 0x321f);
   (0xa48d, 0xa48f); (0xa4c7, 0xa4cf); (0xa62c, 0xa63f); (0xa6f8, 0xa6ff);
   (0xa7cb, 0xa7cf); (0xa7d2, 0xa7d2); (0xa7d4, 0xa7d4); (0xa7da, 0xa7f1);
   (0xa82d, 0xa82f); (0xa83a, 0xa83f); (0xa878, 0xa87f); (0xa8c6, 0xa8cd);
   (0xa8da, 0xa8df); (0xa954, 0xa95e); (0xa97d, 0xa97f); (0xa9ce, 0xa9ce);
   (0xa9da, 0xa9dd); (0xa9ff, 0xa9ff); (0xaa37, 0xaa3f); (0xaa4e, 0xaa4f);
   (0xaa5a, 0xaa5b); (0xaac3, 0xaada); (0xaaf7, 0xab00); (0xab07, 0xab08);
   (0xab0f, 0xab10); (0xab17, 0xab1f); (0xab27, 0xab27); (0xab2f, 0xab2f);
   (0xab6c, 0xab6f); (0xabee, 0xabef); (0xabfa, 0xabff); (0xd7a4, 0xd7af);
   (0xd7c7, 0xd7ca); (0xd7fc, 0xf8ff); (0xfa6e, 0xfa6f); (0xfada, 0xfaff);
   (0xfb07, 0xfb12); (0xfb18, 0xfb1c); (0xfb37, 0xfb37); (0xfb3d, 0xfb3d);
   (0xfb3f, 0xfb3f); (0xfb42, 0xfb42); (0xfb45, 0xfb45); (0xfbc3, 0xfbd2);
   (0xfd90, 0xfd91); (0xfdc8, 0xfdce); (0xfdd0, 0xfdef); (0xfe1a, 0xfe1f);
   (0xfe53, 0xfe53); (0xfe67, 0xfe67); (0xfe6c, 0xfe6f); (0xfe75, 0xfe75);
   (0xfefd, 0xff00); (0xffbf, 0xffc1); (0xffc8, 0xffc9); (0xffd0, 0xffd1);
   (0xffd8, 0xffd9); (0xffdd, 0xffdf); (0xffe7, 0xffe7); (0xffef, 0xfffb);
   (0xfffe, 0xffff); (0x1000c, 0x1000c); (0x10027, 0x10027);
   (0x1003b, 0x1003b); (0x1003e, 0x1003e); (0x1004e, 0x1004f);
   (0x1005e, 0x1007f); (0x100fb, 0x100ff); (0x10103, 0x10106);
   (0x10134, 0x10136); (0x1018f, 0x1018f); (0x1019d, 0x1019f);
   (0x101a1, 0x101cf); (0x101fe, 0x1027f); (0x1029d, 0x1029f);
   (0x102d1, 0x102df); (0x102fc, 0x102ff); (0x10324, 0x1032c);
   (0x1034b, 0x1034f); (0x1037b, 0x1037f); (0x1039e, 0x1039e);
   (0x103c4, 0x103c7); (0x103d6, 0x103ff); (0x1049e, 0x1049f);
   (0x104aa, 0x104af); (0x104d4, 0x104d7); (0x104fc, 0x104ff);
   (0x10528, 0x1052f); (0x10564, 0x1056e); (0x1057b, 0x1057b);
   (0x1058b, 0x1058b); (0x10593, 0x10593); (0x10596, 0x10596);
   (0x105a2, 0x105a2); (0x105b2, 0x105b2); (0x105ba, 0x105ba);
   (0x105bd, 0x105ff); (0x10737, 0x1073f); (0x10756, 0x1075f);
   (0x10768, 0x1077f); (0x10786, 0x10786); (0x107b1, 0x107b1);
   (0x107bb, 0x107ff); (0x10806, 0x10807); (0x10809, 0x10809);
   (0x10836, 0x10836); (0x10839, 0x1083b); (0x1083d, 0x1083e);
   (0x10856, 0x10856); (0x1089f, 0x108a6); (0x108b0, 0x108df);
   (0x108f3, 0x108f3); (0x108f6, 0x108fa); (0x1091c, 0x1091e);
   (0x1093a, 0x1093e); (0x10940, 0x1097f); (0x109b8, 0x109bb);
   (0x109d0, 0x109d1); (0x10a04, 0x10a04); (0x10a07, 0x10a0b);
   (0x10a14, 0x10a14); (0x10a18, 0x10a18); (0x10a36, 0x10a37);
   (0x10a3b, 0x10a3e); (0x10a49, 0x10a4f); (0x10a59, 0x10a5f);
   (0x10aa0, 0x10abf); (0x10ae7, 0x10aea); (0x10af7, 0x10aff);
   (0x10b36, 0x10b38); (0x10b56, 0x10b57); (0x10b73, 0x10b77);
   (0x10b92, 0x10b98); (0x10b9d, 0x10ba8); (0x10bb0, 0x10bff);
   (0x10c49, 0x10c7f); (0x10cb3, 0x10cbf); (0x10cf3, 0x10cf9);
   (0x10d28, 0x10d2f); (0x10d3a, 0x10e5f); (0x10e7f, 0x10e7f);
   (0x10eaa, 0x10eaa); (0x10eae, 0x10eaf); (0x10eb2, 0x10eff);
   (0x10f28, 0x10f2f); (0x10f5a, 0x10f6f); (0x10f8a, 0x10faf);
   (0x10fcc, 0x10fdf); (0x10ff7, 0x10fff); (0x1104e, 0x11051);
   (0x11076, 0x1107e); (0x110bd, 0x110bd); (0x110c3, 0x110cf);
   (0x110e9, 0x110ef); (0x110fa, 0x110ff); (0x11135, 0x11135);
   (0x11148, 0x1114f); (0x11177, 0x1117f); (0x111e0, 0x111e0);
   (0x111f5, 0x111ff); (0x11212, 0x11212); (0x1123f, 0x1127f);
   (0x11287, 0x11287); (0x11289, 0x11289); (0x1128e, 0x1128e);
   (0x1129e, 0x1129e); (0x112aa, 0x112af); (0x112eb, 0x112ef);
   (0x112fa, 0x112ff); (0x11304, 0x11304); (0x1130d, 0x1130e);
   (0x11311, 0x11312); (0x11329, 0x11329); (0x11331, 0x11331);
   (0x11334, 0x11334); (0x1133a, 0x1133a); (0x11345, 0x11346);
   (0x11349, 0x1134a); (0x1134e, 0x1134f); (0x11351, 0x11356);
   (0x11358, 0x1135c); (0x11364, 0x11365); (0x1136d, 0x1136f);
   (0x11375, 0x113ff); (0x1145c, 0x1145c); (0x11462, 0x1147f);
   (0x114c8, 0x114cf); (0x114da, 0x1157f); (0x115b6, 0x115b7);
   (0x115de, 0x115ff); (0x11645, 0x1164f); (0x1165a, 0x1165f);
   (0x1166d, 0x1167f); (0x116ba, 0x116bf); (0x116ca, 0x116ff);
   (0x1171b, 0x1171c); (0x1172c, 0x1172f); (0x11747, 0x117ff);
   (0x1183c, 0x1189f); (0x118f3, 0x118fe); (0x11907, 0x11908);
   (0x1190a, 0x1190b); (0x11914, 0x11914); (0x11917, 0x11917);
   (0x11936, 0x11936); (0x11939, 0x1193a); (0x11947, 0x1194f);
   (0x1195a, 0x1199f); (0x119a8, 0x119a9); (0x119d8, 0x119d9);
   (0x119e5, 0x119ff); (0x11a48, 0x11a4f); (0x11aa3, 0x11aaf);
   (0x11af9, 0x11bff); (0x11c09, 0x11c09); (0x11c37, 0x11c37);
   (0x11c46, 0x11c4f); (0x11c6d, 0x11c6f); (0x11c90, 0x11c91);
   (0x11ca8, 0x11ca8); (0x11cb7, 0x11cff); (0x11d07, 0x11d07);
   (0x11d0a, 0x11d0a); (0x11d37, 0x11d39); (0x11d3b, 0x11d3b);
   (0x11d3e, 0x11d3e); (0x11d48, 0x11d4f); (0x11d5a, 0x11d5f);
   (0x11d66, 0x11d66); (0x11d69, 0x11d69); (0x11d8f, 0x11d8f);
   (0x11d92, 0x11d92); (0x11d99, 0x11d9f); (0x11daa, 0x11edf);
   (0x11ef9, 0x11faf); (0x11fb1, 0x11fbf); (0x11ff2, 0x11ffe);
   (0x1239a, 0x123ff); (0x1246f, 0x1246f); (0x12475, 0x1247f);
   (0x12544, 0x12f8f); (0x12ff3, 0x12fff); (0x1342f, 0x143ff);
   (0x14647, 0x167ff); (0x16a39, 0x16a3f); (0x16a5f, 0x16a5f);
   (0x16a6a, 0x16a6d); (0x16abf, 0x16abf); (0x16aca, 0x16acf);
   (0x16aee, 0x16aef); (0x16af6, 0x16aff); (0x16b46, 0x16b4f);
   (0x16b5a, 0x16b5a); (0x16b62, 0x16b62); (0x16b78, 0x16b7c);
   (0x16b90, 0x16e3f); (0x16e9b, 0x16eff); (0x16f4b, 0x16f4e);
   (0x16f88, 0x16f8e); (0x16fa0, 0x16fdf); (0x16fe5, 0x16fef);
   (0x16ff2, 0x16fff); (0x187f8, 0x187ff); (0x18cd6, 0x18cff);
   (0x18d09, 0x1afef); (0x1aff4, 0x1aff4); (0x1affc, 0x1affc);
   (0x1afff, 0x1afff); (0x1b123, 0x1b14f); (0x1b153, 0x1b163);
   (0x1b168, 0x1b16f); (0x1b2fc, 0x1bbff); (0x1bc6b, 0x1bc6f);
   (0x1bc7d, 0x1bc7f); (0x1bc89, 0x1bc8f); (0x1bc9a, 0x1bc9b);
   (0x1bca0, 0x1ceff); (0x1cf2e, 0x1cf2f); (0x1cf47, 0x1cf4f);
   (0x1cfc4, 0x1cfff); (0x1d0f6, 0x1d0ff); (0x1d127, 0x1d128);
   (0x1d173, 0x1d17a); (0x1d1eb, 0x1d1ff); (0x1d246, 0x1d2df);
   (0x1d2f4, 0x1d2ff); (0x1d357, 0x1d35f); (0x1d379, 0x1d3ff);
   (0x1d455, 0x1d455); (0x1d49d, 0x1d49d); (0x1d4a0, 0x1d4a1);
   (0x1d4a3, 0x1d4a4); (0x1d4a7, 0x1d4a8); (0x1d4ad, 0x1d4ad);
   (0x1d4ba, 0x1d4ba); (0x1d4bc, 0x1d4bc); (0x1d4c4, 0x1d4c4);
   (0x1d506, 0x1d506); (0x1d50b, 0x1d50c); (0x1d515, 0x1d515);
   (0x1d51d, 0x1d51d); (0x1d53a, 0x1d53a); (0x1d53f, 0x1d53f);
   (0x1d545, 0x1d545); (0x1d547, 0x1d549); (0x1d551, 0x1d551);
   (0x1d6a6, 0x1d6a7); (0x1d7cc, 0x1d7cd); (0x1da8c, 0x1da9a);
   (0x1daa0, 0x1daa0); (0x1dab0, 0x1deff); (0x1df1f, 0x1dfff);
   (0x1e007, 0x1e007); (0x1e019, 0x1e01a); (0x1e022, 0x1e022);
   (0x1e025, 0x1e025); (0x1e02b, 0x1e0ff); (0x1e12d, 0x1e12f);
   (0x1e13e, 0x1e13f); (0x1e14a, 0x1e14d); (0x1e150, 0x1e28f);
   (0x1e2af, 0x1e2bf); (0x1e2fa, 0x1e2fe); (0x1e300, 0x1e7df);
   (0x1e7e7, 0x1e7e7); (0x1e7ec, 0x1e7ec); (0x1e7ef, 0x1e7ef);
   (0x1e7ff, 0x1e7ff); (0x1e8c5, 0x1e8c6); (0x1e8d7, 0x1e8ff);
   (0x1e94c, 0x1e94f); (0x1e95a, 0x1e95d); (0x1e960, 0x1ec70);
   (0x1ecb5, 0x1ed00); (0x1ed3e, 0x1edff); (0x1ee04, 0x1ee04);
   (0x1ee20, 0x1ee20); (0x1ee23, 0x1ee23); (0x1ee25, 0x1ee26);
   (0x1ee28, 0x1ee28); (0x1ee33, 0x1ee33); (0x1ee38, 0x1ee38);
   (0x1ee3a, 0x1ee3a); (0x1ee3c, 0x1ee41); (0x1ee43, 0x1ee46);
   (0x1ee48, 0x1ee48); (0x1ee4a, 0x1ee4a); (0x1ee4c, 0x1ee4c);
   (0x1ee50, 0x1ee50); (0x1ee53, 0x1ee53); (0x1ee55, 0x1ee56);
   (0x1ee58, 0x1ee58); (0x1ee5a, 0x1ee5a); (0x1ee5c, 0x1ee5c);
   (0x1ee5e, 0x1ee5e); (0x1ee60, 0x1ee60); (0x1ee63, 0x1ee63);
   (0x1ee65, 0x1ee66); (0x1ee6b, 0x1ee6b); (0x1ee73, 0x1ee73);
   (0x1ee78, 0x1ee78); (0x1ee7d, 0x1ee7d); (0x1ee7f, 0x1ee7f);
   (0x1ee8a, 0x1ee8a); (0x1ee9c, 0x1eea0); (0x1eea4, 0x1eea4);
   (0x1eeaa, 0x1eeaa); (0x1eebc, 0x1eeef); (0x1eef2, 0x1efff);
   (0x1f02c, 0x1f02f); (0x1f094, 0x1f09f); (0x1f0af, 0x1f0b0);
   (0x1f0c0, 0x1f0c0); (0x1f0d0, 0x1f0d0); (0x1f0f6, 0x1f0ff);
   (0x1f1ae, 0x1f1e5); (0x1f203, 0x1f20f); (0x1f23c, 0x1f23f);
   (0x1f249, 0x1f24f); (0x1f252, 0x1f25f); (0x1f266, 0x1f2ff);
   (0x1f6d8, 0x1f6dc); (0x1f6ed, 0x1f6ef); (0x1f6fd, 0x1f6ff);
   (0x1f774, 0x1f77f); (0x1f7d9, 0x1f7df); (0x1f7ec, 0x1f7ef);
   (0x1f7f1, 0x1f7ff); (0x1f80c, 0x1f80f); (0x1f848, 0x1f84f);
   (0x1f85a, 0x1f85f); (0x1f888, 0x1f88f); (0x1f8ae, 0x1f8af);
   (0x1f8b2, 0x1f8ff); (0x1fa54, 0x1fa5f); (0x1fa6e, 0x1fa6f);
   (0x1fa75, 0x1fa77); (0x1fa7d, 0x1fa7f); (0x1fa87, 0x1fa8f);
   (0x1faad, 0x1faaf); (0x1fabb, 0x1fabf); (0x1fac6, 0x1facf);
   (0x1fada, 0x1fadf); (0x1fae8, 0x1faef); (0x1faf7, 0x1faff);
   (0x1fb93, 0x1fb93); (0x1fbcb, 0x1fbef); (0x1fbfa, 0x1ffff);
   (0x2a6e0, 0x2a6ff); (0x2b739, 0x2b73f); (0x2b81e, 0x2b81f);
   (0x2cea2, 0x2ceaf); (0x2ebe1, 0x2f7ff); (0x2fa1e, 0x2ffff);
   (0x3134b, 0xe00ff); (0xe01f0, 0x10ffff)]%N.

Definition isprintable (c : N) : bool :=
  negb (existsb (fun r => (fst r <=? c) && (c <=? snd r))%N nonprintable).

Definition hex_digit (d : N) : N := (if d <? 10 then 48 + d else 87 + d)%N.

(** The [n] low hexadecimal digits of [c], most significant first. *)
Fixpoint hex_digits (n : nat) (c : N) : str :=
  match n with
  | O => []
  | S n' => hex_digits n' (c / 16)%N ++ [hex_digit (c mod 16)%N]
  end.

(** One code point inside [repr(s)], between the quotes [quote]. *)
Definition repr_char (quote c : N) : str :=
  if ((c =? quote) || (c =? 92))%N then [92%N; c]
  else if (c =? 9)%N then u "\t"
  else if (c =? 10)%N then u "\n"
  else if (c =? 13)%N then u "\r"
  else if ((c <? 32) || (c =? 127))%N then u "\x" ++ hex_digits 2 c
  else if (c <? 127)%N then [c]
  else if isprintable c then [c]
  else if (c <=? 0xff)%N then u "\x" ++ hex_digits 2 c
  else if (c <=? 0xffff)%N then u "\u" ++ hex_digits 4 c
  else u "\U" ++ hex_digits 8 c.

(** [repr(s)] for a [str]: single quotes, unless [s] holds a single quote
    and no double quote. *)
Definition str_repr (s : str) : str :=
  let quote :=
    if existsb (N.eqb 39) s && negb (existsb (N.eqb 34) s) then 34%N else 39%N in
  quote :: flat_map (repr_char quote) s ++ [quote].

Fixpoint py_repr (v : value) : str :=
  match v with
  | VNone => u "None"
  | VBool true => u "True"
  | VBool false => u "False"
  | VInt z => str_of_int z
  | VFloat x => float_repr x
  | VStr s => str_repr s
  | VList l => u "[" ++ join (u ", ") (map py_repr l) ++ u "]"
  | VDict d =>
      u "{"
        ++ join (u ", ")
             (map (fun kv => let '(k, w) := kv in str_repr k ++ u ": " ++ py_repr w) d)
        ++ u "}"
  end.

(** [str(v)]. *)
Definition py_str (v : value) : str :=
  match v with
  | VStr s => s
  | _ => py_repr v
  end.

(** ** [json.loads] *)

(** The outcome of scanning a value at the head of the input: the value and
    the rest of the input, a syntax error, or no fuel left. *)
Inductive scan (A : Type) : Type :=
| Found (a : A) (rest : str)
| Fail
| Exhausted.

Arguments Found {A} a rest.
Arguments Fail {A}.
Arguments Exhausted {A}.

Definition is_json_space (c : N) : bool :=
  ((c =? 32) || (c =? 9) || (c =? 10) || (c =? 13))%N.

Fixpoint skip_ws (s : str) : str :=
  match s with
  | c :: s' => if is_json_space c then skip_ws s' else s
  | [] => []
  end.

Definition hex_value (c : N) : option N :=
  if ((48 <=? c) && (c <=? 57))%N then Some (c - 48)%N
  else if ((97 <=? c) && (c <=? 102))%N then Some (c - 87)%N
  else if ((65 <=? c) && (c <=? 70))%N then Some (c - 55)%N
  else None.

(** The code unit written by four hexadecimal digits. *)
Definition hex4 (a b c d : N) : option N :=
  match hex_value a, hex_value b, hex_value c, hex_value d with
  | Some x, Some y, Some z, Some w => Some (((x * 16 + y) * 16 + z) * 16 + w)%N
  | _, _, _, _ => None
  end.

Definition is_high_surrogate (c : N) : bool := ((0xd800 <=? c) && (c <=? 0xdbff))%N.
Definition is_low_surrogate (c : N) : bool := ((0xdc00 <=? c) && (c <=? 0xdfff))%N.
Definition join_surrogates (hi lo : N) : N :=
  (0x10000 + (hi - 0xd800) * 0x400 + (lo - 0xdc00))%N.

(** The escapes of one letter: quote, backslash, slash, [b], [f], [n], [r]
    and [t]. *)
Definition simple_escape (c : N) : option N :=
  if (c =? 34)%N then Some 34%N
  else if (c =? 92)%N then Some 92%N
  else if (c =? 47)%N then Some 47%N
  else if (c =? 98)%N then Some 8%N
  else if (c =? 102)%N then Some 12%N
  else if (c =? 110)%N then Some 10%N
  else if (c =? 114)%N then Some 13%N
  else if (c =? 116)%N then Some 9%N
  else None.

(** The string whose opening quote has been read (strict mode): [acc] holds
    the code points read so far, last first. *)
Fixpoint scanstring (s : str) (acc : str) : option (str * str) :=
  match s with
  | [] => None
  | c :: s1 =>
      if (c =? 34)%N then Some (rev acc, s1)
      else if (c =? 92)%N then
        match s1 with
        | [] => None
        | e :: s2 =>
            if (e =? 117)%N then
              match s2 with
              | h1 :: h2 :: h3 :: h4 :: s3 =>
                  match hex4 h1 h2 h3 h4 with
                  | None => None
                  | Some c1 =>
                      match s3 with
                      | b :: x :: g1 :: g2 :: g3 :: g4 :: s4 =>
                          if is_high_surrogate c1 && (b =? 92)%N && (x =? 117)%N then
                            match hex4 g1 g2 g3 g4 with
                            | None => None
                            | Some c2 =>
                                if is_low_surrogate c2
                                then scanstring s4 (join_surrogates c1 c2 :: acc)
                                else scanstring s3 (c1 :: acc)
                            end
                          else scanstring s3 (c1 :: acc)
                      | _ => scanstring s3 (c1 :: acc)
                      end
                  end
              | _ => None
              end
            else
              match simple_escape e with
              | Some c' => scanstring s2 (c' :: acc)
              | None => None
              end
        end
      else if (c <=? 31)%N then None
      else scanstring s1 (c :: acc)
  end.

(** A number: an optional minus sign, a zero or digits that do not start
    with a zero, then optionally a point with digits, then optionally an
    exponent.  It is an [int] without fraction and exponent, a [float]
    otherwise. *)
Definition match_number (s : str) : option (value * str) :=
  let '(neg, s1) := if head_is 45 s then (true, tl s) else (false, s) in
  let int_part :=
    match s1 with
    | c :: s2 =>
        if (c =? 48)%N then Some (0%N, s2)
        else if is_ascii_digit c then
          let '(i, _, s3) := take_digits 0 0 s1 in Some (i, s3)
        else None
    | [] => None
    end in
  match int_part with
  | None => None
  | Some (i, s3) =>
      let '(m, nf, s4) :=
        if head_is 46 s3 && head_digit (tl s3)
        then take_digits i 0 (tl s3)
        else (i, O, s3) in
      let '(e, s5) := parse_exponent s4 in
      let is_float := negb (Nat.eqb nf 0) || negb (Nat.eqb (List.length s5) (List.length s4)) in
      if is_float
      then Some (VFloat (float_of_decimal neg m (e - Z.of_nat nf)), s5)
      else Some (VInt (cond_Zopp neg (Z.of_N i)), s5)
  end.

(** [scan_once]: the value at the head of [s]. *)
Fixpoint scan_once (fuel : nat) (s : str) : scan value :=
  match fuel with
  | O => Exhausted
  | S fuel' =>
      let number :=
        match match_number s with
        | Some (v, rest) => Found v rest
        | None => Fail
        end in
      match s with
      | [] => Fail
      | c :: s' =>
          if (c =? 34)%N then
            match scanstring s' [] with
            | Some (t, rest) => Found (VStr t) rest
            | None => Fail
            end
          else if (c =? 123)%N then
            let s1 := skip_ws s' in
            if head_is 125 s1 then Found (VDict []) (tl s1)
            else object_items fuel' s1 []
          else if (c =? 91)%N then
            let s1 := skip_ws s' in
            if head_is 93 s1 then Found (VList []) (tl s1)
            else array_items fuel' s1 []
          else if starts_with (u "null") s then Found VNone (skipn 4 s)
          else if starts_with (u "true") s then Found (VBool true) (skipn 4 s)
          else if starts_with (u "false") s then Found (VBool false) (skipn 5 s)
          else if starts_with (u "NaN") s then Found (VFloat nan) (skipn 3 s)
          else if starts_with (u "Infinity") s then Found (VFloat infinity) (skipn 8 s)
          else if starts_with (u "-Infinity") s then Found (VFloat neg_infinity) (skipn 9 s)
          else number
      end
  end

(** The items of an array, from the head of an item on; [acc] holds the
    items read so far, last first. *)
with array_items (fuel : nat) (s : str) (acc : list value) : scan value :=
  match fuel with
  | O => Exhausted
  | S fuel' =>
      match scan_once fuel' s with
      | Found v rest =>
          let rest := skip_ws rest in
          if head_is 93 rest then Found (VList (rev (v :: acc))) (tl rest)
          else if head_is 44 rest then array_items fuel' (skip_ws (tl rest)) (v :: acc)
          else Fail
      | Fail => Fail
      | Exhausted => Exhausted
      end
  end

(** The pairs of an object, from the head of a key on; [d] is the
    dictionary built so far. *)
with object_items (fuel : nat) (s : str) (d : dict) : scan value :=
  match fuel with
  | O => Exhausted
  | S fuel' =>
      if head_is 34 s then
        match scanstring (tl s) [] with
        | None => Fail
        | Some (k, s2) =>
            let s3 := skip_ws s2 in
            if head_is 58 s3 then
              match scan_once fuel' (skip_ws (tl s3)) with
              | Found v rest =>
                  let rest := skip_ws rest in
                  if head_is 125 rest then Found (VDict (dict_set d k v)) (tl rest)
                  else if head_is 44 rest
                       then object_items fuel' (skip_ws (tl rest)) (dict_set d k v)
                       else Fail
              | Fail => Fail
              | Exhausted => Exhausted
              end
            else Fail
        end
      else Fail
  end.

(** [json.loads(s)] for a [str]: one value between white space; a byte
    order mark, a syntax error or extra data raise [JSONDecodeError]. *)
Definition loads (s : str) : result value :=
  if head_is 0xfeff s then Raise (JSONDecodeError s)
  else
    match scan_once (S (2 * List.length s)) (skip_ws s) with
    | Found v rest =>
        match skip_ws rest with
        | [] => Ok v
        | _ :: _ => Raise (JSONDecodeError s)
        end
    | Fail | Exhausted => Raise (JSONDecodeError s)
    end.

(** ** More of [str] and the environment *)

Fixpoint drop_while_in (chars s : str) : str :=
  match s with
  | c :: s' => if existsb (N.eqb c) chars then drop_while_in chars s' else s
  | [] => []
  end.

(** [s.rstrip(chars)]: the trailing code points that are in [chars] go. *)
Definition rstrip_chars (s chars : str) : str := rev (drop_while_in chars (rev s)).

(** The process environment, [os.environ]. *)
Definition environ := str -> option str.

(** [os.getenv(key, default)]. *)
Definition getenv (env : environ) (key default : str) : str :=
  match env key with
  | Some v => v
  | None => default
  end.

(** What a [for] loop goes through: the items of a list, the keys of a
    dict, the code points of a string, each as a string; any other object
    of JSON is not iterable ([TypeError]), which is [None] here. *)
Definition py_iter (v : value) : option (list value) :=
  match v with
  | VList l => Some l
  | VDict d => Some (map (fun kv => VStr (fst kv)) d)
  | VStr s => Some (map (fun c => VStr [c]) s)
  | VNone | VBool _ | VInt _ | VFloat _ => None
  end.

End Py.

(* ===================================================================== *)
(** * backend/app/models.py *)
(* ===================================================================== *)

Module Models.
Import Py.

Record RetrievedDoc : Type := {
  id : str;
  source : str;
  citation : str;
  text : str
}.

Record CorepResult : Type := {
  template_name : str;
  CET1 : option float;
  AT1 : option float;
  Tier2 : option float;
  RWA : option float;
  CET1_ratio : option float;
  missing_fields : list str;
  validation_warnings : list str;
  rules_used : list str;
  explanation : str
}.

(** The request body; FastAPI validates it ([min_length=5]) before the
    handler runs.  Its field is [scenario] in the source. *)
Record ScenarioRequest : Type := {
  payload_scenario : str
}.

Record AnalyzeResponse : Type := {
  scenario : str;
  retrieved_context : list RetrievedDoc;
  corep_result : CorepResult;
  raw_model_output : option dict
}.

End Models.

(* ===================================================================== *)
(** * backend/app/validation.py *)
(* ===================================================================== *)

Module Validation.
Import Py Models.
Local Open Scope py_scope.

Definition NUMERIC_FIELDS : list str :=
  [u "CET1"; u "AT1"; u "Tier2"; u "RWA"; u "CET1_ratio"].

Definition MIN_CET1_RATIO : float := 0.045%float.

(** [_to_optional_float(value)].  The tests run in the order of the source:
    [None]; [isinstance(value, (int, float))], which holds of a [bool] too,
    [bool] being a subclass of [int]; [isinstance(value, str)]; anything
    else.  [float(value)] raises [OverflowError] on an [int] out of range;
    the [ValueError] of [float(stripped)] is caught. *)
Definition _to_optional_float (value : value) : result (option float) :=
  match value with
  | VNone => Ok None
  | VBool b => x <- float_of_int (Z.b2z b) ;; Ok (Some x)
  | VInt z => x <- float_of_int z ;; Ok (Some x)
  | VFloat x => Ok (Some x)
  | VStr s =>
      let stripped := replace (strip s) (u "%") (u "") in
      match stripped with
      | [] => Ok None
      | _ => Ok (float_of_str stripped)
      end
  | VList _ | VDict _ => Ok None
  end.

Definition DEFAULT_TEMPLATE_NAME : str := u "COREP Own Funds (prototype)".

Definition DEFAULT_EXPLANATION : str :=
  u "Explanation not provided by the model. This is an automatically generated prototype output.".

Definition RATIO_WARNING : str :=
  u "Model-proposed CET1_ratio differed from deterministic CET1/RWA. "
    ++ u "The deterministic value has been used instead.".

(** The f-string of the threshold warning. *)
Definition threshold_warning (cet1_ratio : float) : str :=
  u "CET1_ratio of " ++ format_f 4 cet1_ratio
    ++ u " is below the minimum requirement of "
    ++ format_f 4 MIN_CET1_RATIO ++ u " (4.5%).".

(** The loop over the four coerced amounts: the names whose value is
    [None] are appended in turn. *)
Definition missing_after_coercion (fields : list (str * option float)) : list str :=
  fold_left
    (fun missing_fields '(f_name, value) =>
       match value with
       | None => missing_fields ++ [f_name]
       | Some _ => missing_fields
       end)
    fields [].

(** The derived ratio and the warnings after the disagreement check. *)
Definition ratio_rule (cet1 rwa cet1_ratio_model : option float)
    (validation_warnings : list str) : option float * list str :=
  match cet1, rwa with
  | Some c, Some r =>
      if (0 <? r)%float then
        let cet1_ratio := (c / r)%float in
        (Some cet1_ratio,
         match cet1_ratio_model with
         | Some m =>
             if (1e-6 <? abs (m - c))%float && (1e-6 <? abs (m - cet1_ratio))%float
             then validation_warnings ++ [RATIO_WARNING]
             else validation_warnings
         | None => validation_warnings
         end)
      else (cet1_ratio_model, validation_warnings)
  | _, _ => (cet1_ratio_model, validation_warnings)
  end.

(** The warnings after the minimum ratio check. *)
Definition threshold_rule (cet1_ratio : option float)
    (validation_warnings : list str) : list str :=
  match cet1_ratio with
  | Some x =>
      if (x <? MIN_CET1_RATIO)%float
      then validation_warnings ++ [threshold_warning x]
      else validation_warnings
  | None => validation_warnings
  end.

(** [rules_used] built from [initial.get("rules_used") or []]: every item of
    a list in turn, or the one other object.  [str] of a decoded JSON value
    never raises, so the [except] branches are not taken. *)
Definition rules_from_model (rules_used_raw : value) : list str :=
  match rules_used_raw with
  | VList items => fold_left (fun rules_used item => rules_used ++ [py_str item]) items []
  | other => [py_str other]
  end.

(** The loops over [model_missing] and [model_warnings]: the string of each
    entry is appended unless it is already in the list. *)
Definition merge_model_entries (model_entries : value) (entries : list str) : list str :=
  match model_entries with
  | VList items =>
      fold_left
        (fun entries entry =>
           let entry_str := py_str entry in
           if contains entry_str entries then entries else entries ++ [entry_str])
        items entries
  | _ => entries
  end.

Definition validate_corep_result (initial : dict) : result CorepResult :=
  let template_name :=
    py_str (py_or (dict_get initial (u "template_name")) (VStr DEFAULT_TEMPLATE_NAME)) in
  let explanation :=
    py_str (dict_get_default initial (u "explanation") (VStr DEFAULT_EXPLANATION)) in
  cet1 <- _to_optional_float (dict_get initial (u "CET1")) ;;
  at1 <- _to_optional_float (dict_get initial (u "AT1")) ;;
  tier2 <- _to_optional_float (dict_get initial (u "Tier2")) ;;
  rwa <- _to_optional_float (dict_get initial (u "RWA")) ;;
  cet1_ratio_model <- _to_optional_float (dict_get initial (u "CET1_ratio")) ;;
  let missing_fields :=
    missing_after_coercion
      [(u "CET1", cet1); (u "AT1", at1); (u "Tier2", tier2); (u "RWA", rwa)] in
  let validation_warnings := [] in
  let '(cet1_ratio, validation_warnings) :=
    ratio_rule cet1 rwa cet1_ratio_model validation_warnings in
  let validation_warnings := threshold_rule cet1_ratio validation_warnings in
  let rules_used_raw := py_or (dict_get initial (u "rules_used")) (VList []) in
  let rules_used := rules_from_model rules_used_raw in
  let model_missing := py_or (dict_get initial (u "missing_fields")) (VList []) in
  let missing_fields := merge_model_entries model_missing missing_fields in
  let model_warnings := py_or (dict_get initial (u "validation_warnings")) (VList []) in
  let validation_warnings := merge_model_entries model_warnings validation_warnings in
  Ok {| template_name := template_name;
        CET1 := cet1;
        AT1 := at1;
        Tier2 := tier2;
        RWA := rwa;
        CET1_ratio := cet1_ratio;
        missing_fields := missing_fields;
        validation_warnings := validation_warnings;
        rules_used := rules_used;
        explanation := explanation |}.

End Validation.

(* ===================================================================== *)
(** * backend/app/config.py *)
(* ===================================================================== *)

Module Config.
Import Py.

(** The attributes of a [Settings] object.  The two keys always hold a
    string or [None]; [openai_model] and [groq_model] are only assigned for
    the provider in use, so [None] stands here for an attribute that is not
    set, and reading it raises [AttributeError]. *)
Record Settings : Type := {
  llm_provider : str;
  openai_api_key : option str;
  groq_api_key : option str;
  openai_model : option str;
  groq_model : option str;
  chroma_persist_directory : str
}.

(** [os.getenv(key, "").strip() or None]. *)
Definition key_or_none (env : environ) (key : str) : option str :=
  match strip (getenv env key (u "")) with
  | [] => None
  | k => Some k
  end.

(** The truth value of an optional string. *)
Definition is_set (o : option str) : bool :=
  match o with
  | Some (_ :: _) => true
  | _ => false
  end.

(** [Settings.__init__], on the environment left by [load_dotenv]. *)
Definition Settings_init (env : environ) : result Settings :=
  let openai_api_key := key_or_none env (u "OPENAI_API_KEY") in
  let groq_api_key := key_or_none env (u "GROQ_API_KEY") in
  let chroma_persist_directory :=
    getenv env (u "CHROMA_PERSIST_DIRECTORY") (u ".chroma") in
  if is_set groq_api_key then
    Ok {| llm_provider := u "groq";
          openai_api_key := openai_api_key;
          groq_api_key := groq_api_key;
          openai_model := None;
          groq_model := Some (getenv env (u "GROQ_MODEL") (u "llama-3.3-70b-versatile"));
          chroma_persist_directory := chroma_persist_directory |}
  else if is_set openai_api_key then
    Ok {| llm_provider := u "openai";
          openai_api_key := openai_api_key;
          groq_api_key := groq_api_key;
          openai_model := Some (getenv env (u "OPENAI_MODEL") (u "gpt-4o-mini"));
          groq_model := None;
          chroma_persist_directory := chroma_persist_directory |}
  else Raise RuntimeError.

(** [get_settings], under [lru_cache(maxsize=1)]: the first object built is
    kept and returned from then on; an exception is not cached.  The cache
    is threaded through. *)
Definition get_settings (env : environ) (cache : option Settings)
  : result Settings * option Settings :=
  match cache with
  | Some settings => (Ok settings, cache)
  | None =>
      match Settings_init env with
      | Ok settings => (Ok settings, Some settings)
      | Raise e => (Raise e, None)
      end
  end.

(** Reading an attribute that may not be set. *)
Definition getattr (attribute : option str) : result str :=
  match attribute with
  | Some v => Ok v
  | None => Raise AttributeError
  end.

End Config.

(* ===================================================================== *)
(** * backend/app/rag.py *)
(* ===================================================================== *)

Module Rag.
Import Py Models Validation.
Local Open Scope py_scope.
Local Open Scope Z_scope.

(** [_parse_json(text)] of [_call_llm]: the whole text, or on a
    [JSONDecodeError] the text from the first opening brace to the last
    closing brace; without such a pair the first error is raised again. *)
Definition _parse_json (text : str) : result value :=
  match loads text with
  | Raise (JSONDecodeError doc) =>
      let start := str_find text (u "{") in
      let end_ := str_rfind text (u "}") in
      if negb (start =? -1) && negb (end_ =? -1) && (start <? end_)
      then loads (slice text start (end_ + 1))
      else Raise (JSONDecodeError doc)
  | other => other
  end.

(** [sorted(set(l))]: the distinct strings of [l] in increasing order. *)
Fixpoint insert_sorted (x : str) (l : list str) : list str :=
  match l with
  | [] => [x]
  | y :: l' =>
      match str_compare x y with
      | Lt => x :: l
      | Eq => l
      | Gt => y :: insert_sorted x l'
      end
  end.

Definition sorted_set (l : list str) : list str := fold_right insert_sorted [] l.

(** The last loop of [generate_corep_assessment]: every retrieved citation,
    in sorted order, is appended to [rules_used] unless it is there. *)
Definition merge_citations (retrieved_docs : list RetrievedDoc)
    (corep_result : CorepResult) : CorepResult :=
  let citations_from_docs := sorted_set (map citation retrieved_docs) in
  let rules_used :=
    fold_left
      (fun rules_used citation =>
         if contains citation rules_used then rules_used else rules_used ++ [citation])
      citations_from_docs (Models.rules_used corep_result) in
  {| template_name := template_name corep_result;
     CET1 := CET1 corep_result;
     AT1 := AT1 corep_result;
     Tier2 := Tier2 corep_result;
     RWA := RWA corep_result;
     CET1_ratio := CET1_ratio corep_result;
     missing_fields := missing_fields corep_result;
     validation_warnings := validation_warnings corep_result;
     rules_used := rules_used;
     explanation := explanation corep_result |}.

(** A document of the vector store. *)
Record Document : Type := {
  metadata : option dict;
  page_content : str
}.

(** The loop that numbers the retrieved documents: the snippets and the
    context chunks, from ordinal [idx] on. *)
Fixpoint number_docs (idx : N) (retrieved : list Document) : list RetrievedDoc * list str :=
  match retrieved with
  | [] => ([], [])
  | doc :: rest =>
      let metadata := match metadata doc with Some ((_ :: _) as d) => d | _ => [] end in
      let source := py_str (dict_get_default metadata (u "source") (VStr (u "unknown"))) in
      let citation :=
        py_str (dict_get_default metadata (u "citation")
                  (VStr (u "synthetic-" ++ str_of_N idx))) in
      let text := page_content doc in
      let '(retrieved_docs, context_chunks) := number_docs (idx + 1)%N rest in
      ({| id := str_of_N idx; source := source; citation := citation; text := text |}
         :: retrieved_docs,
       (u "[" ++ citation ++ u "] (" ++ source ++ u ")" ++ [10%N] ++ text)
         :: context_chunks)
  end.

Section Pipeline.

(** The collaborators: the retriever of the vector store, and the prompt
    piped into the chat model, which answers with the completion text or
    raises. *)
Variable retriever_invoke : str -> Z -> list Document.
Variable chain_invoke : str -> str -> result str.

Definition _call_llm (scenario context_text : str) : result value :=
  content <- chain_invoke scenario context_text ;;
  _parse_json content.

(** [validate_corep_result] reads its argument with [.get], which only a
    [dict] has. *)
Definition generate_corep_assessment (scenario : str) (top_k : Z)
  : result (CorepResult * list RetrievedDoc * value) :=
  let retrieved := retriever_invoke scenario top_k in
  let '(retrieved_docs, context_chunks) := number_docs 0 retrieved in
  let context_text := join ([10; 10] ++ u "---" ++ [10; 10])%N context_chunks in
  raw_model_output <- _call_llm scenario context_text ;;
  corep_result <-
    match raw_model_output with
    | VDict initial => validate_corep_result initial
    | _ => Raise AttributeError
    end ;;
  Ok (merge_citations retrieved_docs corep_result, retrieved_docs, raw_model_output).

End Pipeline.

(** ** The clients built from the settings *)

Import Config.

(** The chat model that [_call_llm] builds, with temperature zero. *)
Inductive chat_model : Type :=
| ChatGroq (model api_key : str)
| ChatOpenAI (model api_key : str).

(** The head of [_call_llm], from the settings to the chat model:
    [ChatGroq_imported] tells whether [langchain_groq] could be imported.
    The key tests are [not settings.groq_api_key] and
    [not settings.openai_api_key]. *)
Definition chat_model_of (ChatGroq_imported : bool) (settings : Settings)
  : result chat_model :=
  if str_eqb (llm_provider settings) (u "groq") then
    if negb ChatGroq_imported then Raise RuntimeError
    else
      match groq_api_key settings with
      | Some ((_ :: _) as api_key) =>
          model <- getattr (groq_model settings) ;;
          Ok (ChatGroq model api_key)
      | _ => Raise RuntimeError
      end
  else
    match openai_api_key settings with
    | Some ((_ :: _) as api_key) =>
        model <- getattr (openai_model settings) ;;
        Ok (ChatOpenAI model api_key)
    | _ => Raise RuntimeError
    end.

(** The embeddings of the vector store. *)
Inductive embeddings : Type :=
| HuggingFaceEmbeddings
| OpenAIEmbeddings (api_key : str).

(** The head of [_get_vector_store], from the settings to the embeddings:
    [HuggingFaceEmbeddings_imported] tells whether [langchain_huggingface]
    could be imported. *)
Definition embeddings_of (HuggingFaceEmbeddings_imported : bool) (settings : Settings)
  : result embeddings :=
  if HuggingFaceEmbeddings_imported then Ok HuggingFaceEmbeddings
  else
    match openai_api_key settings with
    | Some ((_ :: _) as api_key) => Ok (OpenAIEmbeddings api_key)
    | _ => Raise RuntimeError
    end.

End Rag.

(* ===================================================================== *)
(** * backend/app/main.py *)
(* ===================================================================== *)

Module Main.
Import Py Models Rag Config.
Local Open Scope py_scope.

(** The answer of an endpoint: the body it returns, or the [HTTPException]
    it raises. *)
Inductive http (A : Type) : Type :=
| Body (a : A)
| HTTPException (status_code : Z) (detail : str).

Arguments Body {A} a.
Arguments HTTPException {A} status_code detail.

(** [health()]: the provider and the model of the provider in use. *)
Definition health (env : environ) (cache : option Settings)
  : result (list (str * str)) * option Settings :=
  let '(got, cache) := get_settings env cache in
  (settings <- got ;;
   model_name <-
     (if str_eqb (llm_provider settings) (u "groq")
      then getattr (groq_model settings)
      else getattr (openai_model settings)) ;;
   Ok [(u "status", u "ok");
       (u "provider", llm_provider settings);
       (u "model", model_name)],
   cache).

Section Endpoint.

(** The collaborators of the pipeline, and [str(e)] of an exception. *)
Variable retriever_invoke : str -> Z -> list Document.
Variable chain_invoke : str -> str -> result str.
Variable exception_message : exn -> str.

(** [analyze_scenario(payload)]: the pipeline runs with the default
    [top_k] of 4; any exception becomes an [HTTPException] of status 500.
    The raw output is a dict whenever the pipeline returns. *)
Definition analyze_scenario (payload : ScenarioRequest) : http AnalyzeResponse :=
  match generate_corep_assessment retriever_invoke chain_invoke
          (payload_scenario payload) 4 with
  | Ok (corep_result, retrieved_docs, raw_model_output) =>
      match raw_model_output with
      | VDict raw =>
          Body {| scenario := payload_scenario payload;
                  retrieved_context := retrieved_docs;
                  corep_result := corep_result;
                  raw_model_output := Some raw |}
      | _ =>
          HTTPException 500
            (u "Internal server error: " ++ exception_message AttributeError
               ++ u ". Check server logs for details.")
      end
  | Raise e =>
      HTTPException 500
        (u "Internal server error: " ++ exception_message e
           ++ u ". Check server logs for details.")
  end.

End Endpoint.

End Main.

(* ===================================================================== *)
(** * ui/app.py *)
(* ===================================================================== *)

Module Ui.
Import Py.

(** [get_backend_base_url()]. *)
Definition get_backend_base_url (env : environ) : str :=
  rstrip_chars (getenv env (u "COREP_BACKEND_HOST") (u "http://localhost:8000")) (u "/").

(** The address [call_backend] posts to. *)
Definition analyze_url (env : environ) : str :=
  get_backend_base_url env ++ u "/api/analyze_scenario".

(** What a rendering function puts on the page, call by call. *)
Inductive widget : Type :=
| success (body : str)
| warning (body : str)
| info (body : str)
| markdown (body : str).

(** The [for] loop over the warnings, one bullet each; [warnings] is not
    iterable when [py_iter] gives [None], and the loop then raises. *)
Definition warning_bullets (warnings : value) : option (list widget) :=
  match py_iter warnings with
  | Some items => Some (map (fun w => markdown (u "- " ++ py_str w)) items)
  | None => None
  end.

(** The line of the missing fields: their strings, each once, sorted. *)
Definition missing_line (missing_fields : value) : option (list widget) :=
  match py_iter missing_fields with
  | Some items => Some [markdown (join (u ", ") (Rag.sorted_set (map py_str items)))]
  | None => None
  end.

(** [render_validation_warnings(corep_result)]: the widgets put on the page
    and whether the call returned ([true]) or raised [TypeError] on an
    object that is not iterable ([false]). *)
Definition render_validation_warnings (corep_result : dict) : list widget * bool :=
  let warnings := py_or (dict_get corep_result (u "validation_warnings")) (VList []) in
  let missing_fields := py_or (dict_get corep_result (u "missing_fields")) (VList []) in
  if negb (truthy warnings) && negb (truthy missing_fields) then
    ([success (u "No validation warnings. All key numeric fields appear present.")], true)
  else
    let '(shown, ok) :=
      if truthy warnings then
        match warning_bullets warnings with
        | Some bullets => (warning (u "Validation warnings:") :: bullets, true)
        | None => ([warning (u "Validation warnings:")], false)
        end
      else ([], true) in
    if ok && truthy missing_fields then
      match missing_line missing_fields with
      | Some line =>
          (shown ++ info (u "Missing or uncertain numeric fields identified:") :: line, true)
      | None =>
          (shown ++ [info (u "Missing or uncertain numeric fields identified:")], false)
      end
    else (shown, ok).

End Ui.

(* ===================================================================== *)
(** * The terms of the statements *)
(* ===================================================================== *)

Import Py Models Validation Rag.

(** The code point of a one-letter literal. *)
Definition char (s : string) : N := hd 0%N (u s).

(** An ASCII literal between double quotes. *)
Definition quoted (s : string) : str := 34%N :: u s ++ [34%N].

(** An outcome of the JSON scanner that did not run out of fuel and, when it
    found a value, left fewer than [n] code points unread. *)
Definition never_exhausted (r : scan value) (n : nat) : Prop :=
  r <> Exhausted /\ forall v rest, r = Found v rest -> (List.length rest < n)%nat.

(** [o is None]. *)
Definition is_none {A : Type} (o : option A) : bool :=
  match o with
  | None => true
  | Some _ => false
  end.

(** [a < b] on strings. *)
Definition str_lt (a b : str) : Prop := str_compare a b = Lt.

(** One step of the loops that merge without repeating. *)
Definition add_unseen (entries : list str) (entry_str : str) : list str :=
  if contains entry_str entries then entries else entries ++ [entry_str].

(** What a merge loop appends to [entries] from the strings [new]. *)
Fixpoint unseen (entries new : list str) : list str :=
  match new with
  | [] => []
  | x :: new' =>
      if contains x entries then unseen entries new'
      else x :: unseen (entries ++ [x]) new'
  end.

(** The strings of [new] that are not in [entries], in the order of [new]. *)
Definition absent_from (entries new : list str) : list str :=
  filter (fun x => negb (contains x entries)) new.

(** The strings a model list declares: the string of each item of a list,
    nothing for any other object. *)
Definition declared (model_entries : value) : list str :=
  match model_entries with
  | VList items => map py_str items
  | _ => []
  end.

(** The five coerced numbers of a raw output. *)
Record coerced : Type := {
  c_cet1 : option float;
  c_at1 : option float;
  c_tier2 : option float;
  c_rwa : option float;
  c_ratio_model : option float
}.

(** The raw output coerces: none of the five conversions raises. *)
Definition coerces_to (initial : dict) (k : coerced) : Prop :=
  _to_optional_float (dict_get initial (u "CET1")) = Ok (c_cet1 k)
  /\ _to_optional_float (dict_get initial (u "AT1")) = Ok (c_at1 k)
  /\ _to_optional_float (dict_get initial (u "Tier2")) = Ok (c_tier2 k)
  /\ _to_optional_float (dict_get initial (u "RWA")) = Ok (c_rwa k)
  /\ _to_optional_float (dict_get initial (u "CET1_ratio")) = Ok (c_ratio_model k).

(** The result of the reconciler on a raw output that coerces to [k]. *)
Definition reconciled (initial : dict) (k : coerced) : CorepResult :=
  let deterministic := ratio_rule (c_cet1 k) (c_rwa k) (c_ratio_model k) [] in
  {| template_name :=
       py_str (py_or (dict_get initial (u "template_name")) (VStr DEFAULT_TEMPLATE_NAME));
     CET1 := c_cet1 k;
     AT1 := c_at1 k;
     Tier2 := c_tier2 k;
     RWA := c_rwa k;
     CET1_ratio := fst deterministic;
     missing_fields :=
       merge_model_entries
         (py_or (dict_get initial (u "missing_fields")) (VList []))
         (missing_after_coercion
            [(u "CET1", c_cet1 k); (u "AT1", c_at1 k);
             (u "Tier2", c_tier2 k); (u "RWA", c_rwa k)]);
     validation_warnings :=
       merge_model_entries
         (py_or (dict_get initial (u "validation_warnings")) (VList []))
         (threshold_rule (fst deterministic) (snd deterministic));
     rules_used :=
       rules_from_model (py_or (dict_get initial (u "rules_used")) (VList []));
     explanation :=
       py_str (dict_get_default initial (u "explanation") (VStr DEFAULT_EXPLANATION)) |}.

(** The keys [validate_corep_result] reads from the raw output. *)
Definition KEYS_READ : list str :=
  [u "template_name"; u "explanation"; u "CET1"; u "AT1"; u "Tier2"; u "RWA";
   u "CET1_ratio"; u "rules_used"; u "missing_fields"; u "validation_warnings"].

(** The test of the disagreement check on a proposed ratio [m], the CET1
    amount [c] and the recomputed ratio [q]. *)
Definition disagrees (m c q : float) : bool :=
  ((1e-6 <? abs (m - c)) && (1e-6 <? abs (m - q)))%float.

(** The warnings the model itself declared in the raw output. *)
Definition model_warnings (initial : dict) : list str :=
  declared (py_or (dict_get initial (u "validation_warnings")) (VList [])).

(** The metadata of a document, [doc.metadata or {}], has no key [k]. *)
Definition lacks (doc : Document) (k : str) : Prop :=
  match metadata doc with
  | Some d => dict_lookup d k = None
  | None => True
  end.

(** The context handed to the chat model for the documents [retrieved]. *)
Definition context_of (retrieved : list Document) : str :=
  join ([10; 10] ++ u "---" ++ [10; 10])%N (snd (number_docs 0 retrieved)).

Import Config Main Ui.

(** The variable [key] of the environment is unset, empty or white space. *)
Definition blank (env : environ) (key : str) : Prop :=
  strip (getenv env key (u "")) = [].

(** A cache of [get_settings]: empty, or holding an object that
    [Settings()] built from some environment. *)
Definition cache_valid (cache : option Settings) : Prop :=
  match cache with
  | Some settings => exists env, Settings_init env = Ok settings
  | None => True
  end.

(** The answers of [get_settings] called once in each of the environments
    [envs] in turn, from the cache [cache] on. *)
Fixpoint get_settings_calls (envs : list environ) (cache : option Settings)
  : list (result Settings) :=
  match envs with
  | [] => []
  | env :: rest =>
      let '(answer, cache) := get_settings env cache in
      answer :: get_settings_calls rest cache
  end.

(** The object is truthy and a [for] loop cannot go through it. *)
Definition not_iterable (v : value) : Prop :=
  truthy v = true /\ py_iter v = None.

(* ===================================================================== *)
(** * Properties *)
(* ===================================================================== *)

(** ** Strings and lists of strings *)

Lemma str_eqb_eq (a b : str) : str_eqb a b = true <-> a = b.
Proof.
  revert b; induction a as [|x a IH]; intros [|y b]; simpl; split;
    try congruence; try reflexivity.
  - intros H. apply andb_true_iff in H as [Hx Hab].
    apply N.eqb_eq in Hx. apply IH in Hab. congruence.
  - intros H. injection H as -> ->. rewrite N.eqb_refl. simpl. now apply IH.
Qed.

Lemma contains_In (x : str) (l : list str) : contains x l = true <-> In x l.
Proof.
  unfold contains. rewrite existsb_exists. split.
  - intros (y & Hy & Heq). apply str_eqb_eq in Heq. now subst.
  - intros H. exists x. split; [assumption | now apply str_eqb_eq].
Qed.

Lemma contains_not_In (x : str) (l : list str) : contains x l = false <-> ~ In x l.
Proof.
  rewrite <- contains_In. destruct (contains x l); split; congruence.
Qed.

(** Replacing the percent sign by the empty string deletes every percent
    sign. *)
Lemma replace_percent (s : str) :
  replace s (u "%") (u "") = filter (fun c => negb (c =? 37)%N) s.
Proof.
  unfold replace. change (u "%") with [37%N]. change (u "") with (@nil N).
  induction s as [|c s IH]; [reflexivity|].
  cbn [replace_from starts_with filter].
  rewrite (N.eqb_sym 37 c).
  destruct (c =? 37)%N; cbn [andb negb List.length Nat.sub app].
  - exact IH.
  - now rewrite IH.
Qed.

(** ** The loops of the reconciler *)

(** The names reported missing are the names, in the order given, whose
    value is [None]. *)
Lemma missing_after_coercion_filter (fields : list (str * option float)) :
  missing_after_coercion fields = map fst (filter (fun p => is_none (snd p)) fields).
Proof.
  unfold missing_after_coercion.
  enough (H : forall acc,
             fold_left
               (fun missing_fields '(f_name, value) =>
                  match value with
                  | None => missing_fields ++ [f_name]
                  | Some _ => missing_fields
                  end) fields acc
             = acc ++ map fst (filter (fun p => is_none (snd p)) fields))
    by apply (H []).
  induction fields as [|[name [x|]] fields IH]; intros acc; simpl.
  - now rewrite app_nil_r.
  - apply IH.
  - rewrite IH. now rewrite <- app_assoc.
Qed.

Lemma rules_from_list (items : list value) :
  rules_from_model (VList items) = map py_str items.
Proof.
  unfold rules_from_model.
  enough (H : forall acc,
             fold_left (fun rules_used item => rules_used ++ [py_str item]) items acc
             = acc ++ map py_str items)
    by apply (H []).
  induction items as [|v items IH]; intros acc; simpl.
  - now rewrite app_nil_r.
  - rewrite IH. now rewrite <- app_assoc.
Qed.

Lemma fold_add_unseen (new entries : list str) :
  fold_left add_unseen new entries = entries ++ unseen entries new.
Proof.
  revert entries; induction new as [|x new IH]; intros entries; simpl.
  - now rewrite app_nil_r.
  - unfold add_unseen at 2. destruct (contains x entries).
    + apply IH.
    + rewrite IH. now rewrite <- app_assoc.
Qed.

Lemma unseen_incl (new entries : list str) : incl (unseen entries new) new.
Proof.
  revert entries; induction new as [|x new IH]; intros entries; simpl.
  - apply incl_refl.
  - destruct (contains x entries).
    + apply incl_tl, IH.
    + apply incl_cons; [now left | apply incl_tl, IH].
Qed.

Lemma NoDup_snoc (l : list str) (x : str) : NoDup l -> ~ In x l -> NoDup (l ++ [x]).
Proof.
  intros Hnd Hx. apply NoDup_app; [assumption | repeat constructor; intros [] |].
  intros a Ha [<- | []]. contradiction.
Qed.

Lemma NoDup_app_unseen (new entries : list str) :
  NoDup entries -> NoDup (entries ++ unseen entries new).
Proof.
  revert entries; induction new as [|x new IH]; intros entries Hnd; simpl.
  - now rewrite app_nil_r.
  - destruct (contains x entries) eqn:Hc.
    + now apply IH.
    + change (x :: unseen (entries ++ [x]) new)
        with ([x] ++ unseen (entries ++ [x]) new).
      rewrite app_assoc. apply IH.
      apply NoDup_snoc; [assumption | now apply contains_not_In].
Qed.

(** A merge loop of the reconciler keeps the entries it starts from and
    appends strings of model entries that were not there. *)
Lemma merge_model_entries_list (items : list value) (entries : list str) :
  merge_model_entries (VList items) entries
  = entries ++ unseen entries (map py_str items).
Proof.
  unfold merge_model_entries. rewrite <- fold_add_unseen.
  revert entries; induction items as [|v items IH]; intros entries; simpl.
  - reflexivity.
  - fold (add_unseen entries (py_str v)). apply IH.
Qed.

Lemma merge_model_entries_unseen (model_entries : value) (entries : list str) :
  merge_model_entries model_entries entries
  = entries ++ unseen entries (declared model_entries).
Proof.
  destruct model_entries; try (simpl; now rewrite app_nil_r).
  apply merge_model_entries_list.
Qed.

Lemma merge_model_entries_NoDup (model_entries : value) (entries : list str) :
  NoDup entries -> NoDup (merge_model_entries model_entries entries).
Proof.
  intros H. rewrite merge_model_entries_unseen. now apply NoDup_app_unseen.
Qed.

(** ** The reconciler, step by step *)

(** The reconciler returns exactly when the five conversions do. *)
Lemma validate_returns (initial : dict) (k : coerced) :
  coerces_to initial k -> validate_corep_result initial = Ok (reconciled initial k).
Proof.
  intros (H1 & H2 & H3 & H4 & H5).
  unfold validate_corep_result. rewrite H1, H2, H3, H4, H5. cbn [bind].
  unfold reconciled. now destruct (ratio_rule _ _ _ _).
Qed.

Lemma validate_inv (initial : dict) (res : CorepResult) :
  validate_corep_result initial = Ok res ->
  exists k, coerces_to initial k /\ res = reconciled initial k.
Proof.
  unfold validate_corep_result.
  destruct (_to_optional_float (dict_get initial (u "CET1"))) as [c|] eqn:H1; [|discriminate].
  destruct (_to_optional_float (dict_get initial (u "AT1"))) as [a|] eqn:H2; [|discriminate].
  destruct (_to_optional_float (dict_get initial (u "Tier2"))) as [t|] eqn:H3; [|discriminate].
  destruct (_to_optional_float (dict_get initial (u "RWA"))) as [r|] eqn:H4; [|discriminate].
  destruct (_to_optional_float (dict_get initial (u "CET1_ratio"))) as [m|] eqn:H5; [|discriminate].
  cbn [bind]. intros H.
  exists {| c_cet1 := c; c_at1 := a; c_tier2 := t; c_rwa := r; c_ratio_model := m |}.
  split; [repeat split; assumption|].
  unfold reconciled; cbn [c_cet1 c_at1 c_tier2 c_rwa c_ratio_model].
  destruct (ratio_rule c r m []). now injection H as <-.
Qed.

(** The coercer raises nothing but the [OverflowError] of [float] on an
    [int] out of range. *)
Lemma coerce_raises_overflow (v : value) (e : exn) :
  _to_optional_float v = Raise e -> e = OverflowError.
Proof.
  assert (Hint : forall z x, float_of_int z = Raise x -> x = OverflowError).
  { intros z x. unfold float_of_int.
    destruct (binary_normalize prec emax z 0 false); congruence. }
  destruct v as [|b|z|x|s|l|d]; unfold _to_optional_float; try discriminate.
  - destruct (float_of_int (Z.b2z b)) eqn:H; cbn [bind]; [discriminate|].
    intros [= <-]. eapply Hint, H.
  - destruct (float_of_int z) eqn:H; cbn [bind]; [discriminate|].
    intros [= <-]. eapply Hint, H.
  - destruct (replace (strip s) (u "%") (u "")); discriminate.
Qed.

(** The reconciler raises only when one of the five conversions does, and
    then [OverflowError]. *)
Lemma validate_raises (initial : dict) (e : exn) :
  validate_corep_result initial = Raise e ->
  e = OverflowError
  /\ exists name,
       In name NUMERIC_FIELDS
       /\ _to_optional_float (dict_get initial name) = Raise OverflowError.
Proof.
  unfold validate_corep_result, NUMERIC_FIELDS.
  destruct (_to_optional_float (dict_get initial (u "CET1"))) as [c|e1] eqn:H1.
  2: { cbn [bind]. intros [= <-]. pose proof (coerce_raises_overflow _ _ H1) as ->.
       split; [reflexivity|]. exists (u "CET1"). split; [now left | exact H1]. }
  destruct (_to_optional_float (dict_get initial (u "AT1"))) as [a|e2] eqn:H2.
  2: { cbn [bind]. intros [= <-]. pose proof (coerce_raises_overflow _ _ H2) as ->.
       split; [reflexivity|]. exists (u "AT1"). split; [right; now left | exact H2]. }
  destruct (_to_optional_float (dict_get initial (u "Tier2"))) as [t|e3] eqn:H3.
  2: { cbn [bind]. intros [= <-]. pose proof (coerce_raises_overflow _ _ H3) as ->.
       split; [reflexivity|]. exists (u "Tier2").
       split; [right; right; now left | exact H3]. }
  destruct (_to_optional_float (dict_get initial (u "RWA"))) as [r|e4] eqn:H4.
  2: { cbn [bind]. intros [= <-]. pose proof (coerce_raises_overflow _ _ H4) as ->.
       split; [reflexivity|]. exists (u "RWA").
       split; [right; right; right; now left | exact H4]. }
  destruct (_to_optional_float (dict_get initial (u "CET1_ratio"))) as [m|e5] eqn:H5.
  2: { cbn [bind]. intros [= <-]. pose proof (coerce_raises_overflow _ _ H5) as ->.
       split; [reflexivity|]. exists (u "CET1_ratio").
       split; [do 4 right; now left | exact H5]. }
  cbn [bind]. destruct (ratio_rule c r m []). discriminate.
Qed.

(** ** The numeric coercer *)

(** C3, counterexample: [True] does not coerce to [None], it is cast to
    [1.0]. *)
Lemma coerce_true_is_one :
  _to_optional_float (VBool true) = Ok (Some 1%float)
  /\ _to_optional_float (VBool true) <> Ok None.
Proof. split; [reflexivity | discriminate]. Qed.

(** C3, as amended: every list coerces to [None]; a boolean passes the
    [isinstance(value, (int, float))] test and is cast, [True] to [1.0] and
    [False] to [0.0]. *)
Theorem coerce_list_none_bool_cast :
  (forall l : list value, _to_optional_float (VList l) = Ok None)
  /\ _to_optional_float (VBool true) = Ok (Some 1%float)
  /\ _to_optional_float (VBool false) = Ok (Some 0%float).
Proof. repeat split. Qed.

(** C4, counterexample: a percent sign inside or in front of the digits is
    removed and the rest parses. *)
Lemma coerce_percent_anywhere :
  _to_optional_float (VStr (u "1%2")) = Ok (Some 12%float)
  /\ _to_optional_float (VStr (u "%12")) = Ok (Some 12%float)
  /\ _to_optional_float (VStr (u "1%2")) <> Ok None.
Proof. repeat split; [vm_compute; reflexivity .. | discriminate]. Qed.

(** C4, as amended: a string is stripped of surrounding white space, then
    every percent sign in it is deleted, wherever it stands; an empty rest
    coerces to [None], any other rest to what [float] reads in it, [None]
    when it does not parse.  No string makes the coercer raise. *)
Theorem coerce_str_deletes_every_percent (s : str) :
  _to_optional_float (VStr s) =
    Ok (match filter (fun c => negb (c =? 37)%N) (strip s) with
        | [] => None
        | stripped => float_of_str stripped
        end).
Proof.
  unfold _to_optional_float. rewrite replace_percent.
  now destruct (filter _ (strip s)).
Qed.

(** ** The reconciler *)

Lemma ratio_rule_warnings (c r m : option float) :
  snd (ratio_rule c r m []) = [] \/ snd (ratio_rule c r m []) = [RATIO_WARNING].
Proof.
  unfold ratio_rule. destruct c as [c|], r as [r|]; try (now left).
  destruct (0 <? r)%float; [|now left].
  destruct m as [m|]; [|now left].
  destruct (_ && _); [now right | now left].
Qed.

(** With both amounts present and the assets positive, the ratio is their
    quotient, whatever the model proposed. *)
Lemma ratio_rule_quotient (c r : float) (m : option float) :
  (0 <? r)%float = true -> fst (ratio_rule (Some c) (Some r) m []) = Some (c / r)%float.
Proof. intros H. unfold ratio_rule. now rewrite H. Qed.

Lemma threshold_rule_some (x : float) (w : list str) :
  threshold_rule (Some x) w
  = w ++ (if (x <? 0.045)%float then [threshold_warning x] else []).
Proof.
  unfold threshold_rule. change MIN_CET1_RATIO with 0.045%float.
  destruct (x <? 0.045)%float; [reflexivity | now rewrite app_nil_r].
Qed.

(** Ratio authority on the raw outputs that coerce: the reconciler returns
    a result whose ratio is the quotient of the coerced amounts. *)
Lemma ratio_recomputed (initial : dict) (k : coerced) (c r : float) :
  coerces_to initial k ->
  c_cet1 k = Some c -> c_rwa k = Some r -> (0 <? r)%float = true ->
  exists res,
    validate_corep_result initial = Ok res /\ CET1_ratio res = Some (c / r)%float.
Proof.
  intros Hk Hc Hr Hpos. exists (reconciled initial k). split.
  - now apply validate_returns.
  - unfold reconciled; cbn [CET1_ratio]. rewrite Hc, Hr.
    now apply ratio_rule_quotient.
Qed.

(** C1, the failing input: the amounts coerce to [300.0] and [5000.0], the
    proposed ratio is an integer no float can hold, and the reconciler
    raises [OverflowError] instead of returning the ratio [300.0 / 5000.0]. *)
Theorem huge_proposed_ratio_raises :
  let initial :=
    [(u "CET1", VInt 300); (u "RWA", VInt 5000); (u "CET1_ratio", VInt (10 ^ 400))] in
  _to_optional_float (dict_get initial (u "CET1")) = Ok (Some 300%float)
  /\ _to_optional_float (dict_get initial (u "RWA")) = Ok (Some 5000%float)
  /\ (0 <? 5000)%float = true
  /\ validate_corep_result initial = Raise OverflowError.
Proof. repeat split; vm_compute; reflexivity. Qed.

(** C6: when the final ratio [x] is present, the warnings of the result are
    the disagreement warning, if any, then the below-minimum warning exactly
    when [x < 0.045], then the warnings the model declared that were not
    there yet.  The below-minimum warning states [x] with four decimals and
    the minimum as [0.0450 (4.5%)]; [0.045] itself is not below the minimum. *)
Theorem threshold_warning_iff_below (initial : dict) (res : CorepResult) (x : float) :
  validate_corep_result initial = Ok res ->
  CET1_ratio res = Some x ->
  (exists disagreement,
     (disagreement = [] \/ disagreement = [RATIO_WARNING])
     /\ let deterministic :=
          disagreement ++ (if (x <? 0.045)%float then [threshold_warning x] else []) in
        validation_warnings res
        = deterministic
            ++ unseen deterministic
                 (declared (py_or (dict_get initial (u "validation_warnings")) (VList []))))
  /\ threshold_warning x
     = u "CET1_ratio of " ++ format_f 4 x
         ++ u " is below the minimum requirement of 0.0450 (4.5%)."
  /\ (0.045 <? 0.045)%float = false.
Proof.
  intros Hres Hx. apply validate_inv in Hres as (k & _ & ->).
  cbn [reconciled CET1_ratio validation_warnings] in *.
  split; [|split; [|reflexivity]].
  - exists (snd (ratio_rule (c_cet1 k) (c_rwa k) (c_ratio_model k) [])).
    split; [apply ratio_rule_warnings|].
    cbn zeta. rewrite Hx, merge_model_entries_unseen. now rewrite threshold_rule_some.
  - unfold threshold_warning. do 2 f_equal.
Qed.

(** C6, an instance: from amounts of [300] and [10000] the ratio is
    [300.0 / 10000.0], which is below the minimum and is warned about as
    [0.0300]. *)
Lemma threshold_warning_iff_below_witness :
  let initial := [(u "CET1", VInt 300); (u "RWA", VInt 10000)] in
  exists res,
    validate_corep_result initial = Ok res
    /\ CET1_ratio res = Some (300 / 10000)%float
    /\ threshold_warning (300 / 10000)%float
       = u "CET1_ratio of " ++ format_f 4 (300 / 10000)%float
           ++ u " is below the minimum requirement of 0.0450 (4.5%)."
    /\ validation_warnings res
       = [u "CET1_ratio of 0.0300 is below the minimum requirement of 0.0450 (4.5%)."].
Proof.
  eexists. split; [vm_compute; reflexivity|].
  split; [reflexivity|]. split; [|vm_compute; reflexivity].
  eapply (threshold_warning_iff_below
            [(u "CET1", VInt 300); (u "RWA", VInt 10000)]);
    [vm_compute; reflexivity | reflexivity].
Defined.

(** C7: the amounts of the result are the coerced values, and
    [missing_fields] starts with its deterministic part: the names, in the
    order [CET1], [AT1], [Tier2], [RWA], whose coerced value is [None]; what
    follows are the names the model declared that were not there yet.  An
    [RWA] that coerced to a number, also zero or a negative one, is not in
    the deterministic part. *)
Theorem missing_fields_deterministic (initial : dict) (res : CorepResult) :
  validate_corep_result initial = Ok res ->
  let deterministic :=
    map fst
      (filter (fun p => is_none (snd p))
         [(u "CET1", CET1 res); (u "AT1", AT1 res);
          (u "Tier2", Tier2 res); (u "RWA", RWA res)]) in
  (_to_optional_float (dict_get initial (u "CET1")) = Ok (CET1 res)
   /\ _to_optional_float (dict_get initial (u "AT1")) = Ok (AT1 res)
   /\ _to_optional_float (dict_get initial (u "Tier2")) = Ok (Tier2 res)
   /\ _to_optional_float (dict_get initial (u "RWA")) = Ok (RWA res))
  /\ missing_fields res
     = deterministic
         ++ unseen deterministic
              (declared (py_or (dict_get initial (u "missing_fields")) (VList [])))
  /\ (forall x, RWA res = Some x -> ~ In (u "RWA") deterministic).
Proof.
  intros Hres. apply validate_inv in Hres as (k & (H1 & H2 & H3 & H4 & _) & ->).
  cbn [reconciled CET1 AT1 Tier2 RWA missing_fields].
  split; [now repeat split|]. split.
  - now rewrite merge_model_entries_unseen, missing_after_coercion_filter.
  - intros x Hx. rewrite Hx.
    destruct (c_cet1 k), (c_at1 k), (c_tier2 k); cbn;
      intuition discriminate.
Qed.

(** C7, an instance: an [RWA] of zero is present, [AT1] and [Tier2] are
    missing. *)
Lemma missing_fields_deterministic_witness :
  let initial :=
    [(u "CET1", VInt 300); (u "AT1", VNone); (u "Tier2", VStr (u "n/a"));
     (u "RWA", VInt 0)] in
  exists res,
    validate_corep_result initial = Ok res
    /\ RWA res = Some 0%float
    /\ missing_fields res = [u "AT1"; u "Tier2"]
    /\ ~ In (u "RWA")
         (map fst
            (filter (fun p => is_none (snd p))
               [(u "CET1", CET1 res); (u "AT1", AT1 res);
                (u "Tier2", Tier2 res); (u "RWA", RWA res)])).
Proof.
  eexists. split; [vm_compute; reflexivity|].
  split; [reflexivity|]. split; [vm_compute; reflexivity|].
  eapply (missing_fields_deterministic
            [(u "CET1", VInt 300); (u "AT1", VNone); (u "Tier2", VStr (u "n/a"));
             (u "RWA", VInt 0)]);
    [vm_compute; reflexivity | reflexivity].
Defined.

(** C10: a truthy [rules_used] that is not a list gives the one entry
    [str(rules_used)]; a falsy [rules_used], such as [None] (also when the
    key is absent), the empty string, zero or the empty list, gives no
    entry. *)
Theorem rules_used_of_non_list (initial : dict) (res : CorepResult) :
  validate_corep_result initial = Ok res ->
  let rules_used_raw := dict_get initial (u "rules_used") in
  (truthy rules_used_raw = true ->
   (forall items, rules_used_raw <> VList items) ->
   rules_used res = [py_str rules_used_raw])
  /\ (truthy rules_used_raw = false -> rules_used res = [])
  /\ (In rules_used_raw [VNone; VStr []; VInt 0; VList []] ->
      truthy rules_used_raw = false).
Proof.
  intros Hres. apply validate_inv in Hres as (k & _ & ->).
  cbn [reconciled rules_used]. unfold py_or. repeat split.
  - intros Ht Hnl. rewrite Ht.
    destruct (dict_get initial (u "rules_used")); try reflexivity.
    now destruct (Hnl l).
  - intros Ht. now rewrite Ht.
  - intros [<- | [<- | [<- | [<- | []]]]]; reflexivity.
Qed.

(** C10, an instance: a string in place of the list is kept as one entry. *)
Lemma rules_used_of_non_list_witness :
  let initial := [(u "rules_used", VStr (u "CRR Article 92"))] in
  exists res,
    validate_corep_result initial = Ok res
    /\ truthy (dict_get initial (u "rules_used")) = true
    /\ (forall items, dict_get initial (u "rules_used") <> VList items)
    /\ rules_used res = [u "CRR Article 92"].
Proof.
  eexists. split; [vm_compute; reflexivity|].
  split; [reflexivity|]. split; [discriminate|].
  eapply (rules_used_of_non_list [(u "rules_used", VStr (u "CRR Article 92"))]);
    [vm_compute; reflexivity | reflexivity | discriminate].
Defined.

(** ** The order of strings and [sorted(set(...))] *)

Lemma str_compare_eq (a b : str) : str_compare a b = Eq <-> a = b.
Proof.
  revert b; induction a as [|x a IH]; intros [|y b]; simpl; split;
    try congruence; try reflexivity.
  - destruct (N.compare_spec x y) as [-> | |]; try discriminate.
    intros H. apply IH in H. now subst.
  - intros [= -> ->]. rewrite N.compare_refl. now apply IH.
Qed.

Lemma str_compare_antisym (a b : str) :
  str_compare b a = CompOpp (str_compare a b).
Proof.
  revert b; induction a as [|x a IH]; intros [|y b]; simpl; try reflexivity.
  rewrite (N.compare_antisym x y).
  destruct (N.compare x y); simpl; try reflexivity. apply IH.
Qed.

Lemma str_lt_irrefl (a : str) : ~ str_lt a a.
Proof.
  unfold str_lt. intros H.
  assert (E : str_compare a a = Eq) by now apply str_compare_eq.
  congruence.
Qed.

Lemma str_lt_trans (a b c : str) : str_lt a b -> str_lt b c -> str_lt a c.
Proof.
  unfold str_lt. revert b c; induction a as [|x a IH]; intros [|y b] [|z c];
    simpl; try congruence.
  destruct (N.compare_spec x y) as [-> | Hxy | Hxy]; try discriminate.
  - destruct (N.compare z y); try congruence; try discriminate.
    + destruct (N.compare y z); try discriminate; eauto.
    + destruct (N.compare y z); try discriminate; eauto.
    + destruct (N.compare y z); try discriminate; eauto.
  - intros _. destruct (N.compare_spec y z) as [-> | Hyz | Hyz]; try discriminate.
    + intros _. apply N.compare_lt_iff in Hxy. now rewrite Hxy.
    + intros _. assert (H : (x < z)%N) by (eapply N.lt_trans; eassumption).
      apply N.compare_lt_iff in H. now rewrite H.
Qed.

Lemma In_insert_sorted (x y : str) (l : list str) :
  In y (insert_sorted x l) <-> y = x \/ In y l.
Proof.
  induction l as [|z l IH]; simpl.
  - intuition.
  - destruct (str_compare x z) eqn:E; simpl.
    + apply str_compare_eq in E. subst. intuition.
    + intuition.
    + rewrite IH. intuition.
Qed.

Lemma insert_sorted_sorted (x : str) (l : list str) :
  StronglySorted str_lt l -> StronglySorted str_lt (insert_sorted x l).
Proof.
  induction 1 as [|z l Hs IH Hz]; simpl.
  - repeat constructor.
  - destruct (str_compare x z) eqn:E.
    + now constructor.
    + constructor; [now constructor|].
      constructor; [exact E|].
      eapply Forall_impl; [|exact Hz]. intros w Hw. eapply str_lt_trans; eassumption.
    + constructor; [exact IH|].
      apply Forall_forall. intros w Hw. apply In_insert_sorted in Hw as [-> | Hw].
      * unfold str_lt. rewrite str_compare_antisym, E. reflexivity.
      * rewrite Forall_forall in Hz. now apply Hz.
Qed.

(** [sorted_set l] holds the strings of [l], in strictly increasing order,
    so each of them once. *)
Lemma In_sorted_set (x : str) (l : list str) : In x (sorted_set l) <-> In x l.
Proof.
  induction l as [|y l IH]; simpl; [tauto|].
  rewrite In_insert_sorted, IH. intuition.
Qed.

Lemma sorted_set_sorted (l : list str) : StronglySorted str_lt (sorted_set l).
Proof.
  induction l as [|y l IH]; simpl; [constructor | now apply insert_sorted_sorted].
Qed.

Lemma StronglySorted_NoDup (l : list str) : StronglySorted str_lt l -> NoDup l.
Proof.
  induction 1 as [|x l Hs IH Hx]; constructor; [|exact IH].
  intros Hin. rewrite Forall_forall in Hx. now apply (str_lt_irrefl x), Hx.
Qed.

Lemma sorted_set_NoDup (l : list str) : NoDup (sorted_set l).
Proof. apply StronglySorted_NoDup, sorted_set_sorted. Qed.

(** ** The merge loops *)

(** When [new] holds no string twice, a merge loop appends the strings of
    [new] that are absent from [entries]. *)
Lemma unseen_absent (new entries : list str) :
  NoDup new -> unseen entries new = absent_from entries new.
Proof.
  unfold absent_from. intros Hnd; revert entries.
  induction Hnd as [|x new Hx Hnd IH]; intros entries; simpl; [reflexivity|].
  destruct (contains x entries) eqn:Hc; simpl; [apply IH|].
  f_equal. rewrite IH. apply filter_ext_in. intros y Hy. f_equal.
  unfold contains. rewrite existsb_app. simpl.
  destruct (str_eqb y x) eqn:E; [|now rewrite !orb_false_r].
  apply str_eqb_eq in E. subst. contradiction.
Qed.

Lemma unseen_covered (new entries : list str) :
  (forall x, In x new -> In x entries) -> unseen entries new = [].
Proof.
  induction new as [|x new IH]; intros H; simpl; [reflexivity|].
  assert (Hx : contains x entries = true) by (apply contains_In, H; now left).
  rewrite Hx. apply IH. intros y Hy. apply H. now right.
Qed.

Lemma In_app_unseen (new entries : list str) (x : str) :
  In x new -> In x (entries ++ unseen entries new).
Proof.
  revert entries; induction new as [|y new IH]; intros entries; simpl; [tauto|].
  intros [-> | Hx].
  - destruct (contains x entries) eqn:Hc.
    + apply in_or_app. left. now apply contains_In.
    + apply in_or_app. right. now left.
  - destruct (contains y entries); [now apply IH|].
    change (y :: unseen (entries ++ [y]) new)
      with ([y] ++ unseen (entries ++ [y]) new).
    rewrite app_assoc. now apply IH.
Qed.

Lemma merge_citations_rules_used (docs : list RetrievedDoc) (res : CorepResult) :
  rules_used (merge_citations docs res)
  = rules_used res ++ unseen (rules_used res) (sorted_set (map citation docs)).
Proof. unfold merge_citations; cbn [rules_used]. apply fold_add_unseen. Qed.

Lemma merge_citations_covered (docs : list RetrievedDoc) (res : CorepResult) :
  (forall c, In c (map citation docs) -> In c (rules_used res)) ->
  merge_citations docs res = res.
Proof.
  intros H.
  assert (E : rules_used (merge_citations docs res) = rules_used res).
  { rewrite merge_citations_rules_used, unseen_covered; [apply app_nil_r|].
    intros x Hx. apply H. now apply In_sorted_set. }
  destruct res; unfold merge_citations in *; cbn in *. now rewrite E.
Qed.

(** C8: a second audit merge with the same snippets changes nothing.  The
    first merge appends to [rules_used] the retrieved citations that are not
    there yet, each once and in increasing order; the citations are the
    distinct [citation] strings of the snippets; and a result that holds all
    of them is returned as it is. *)
Theorem merge_citations_idempotent (docs : list RetrievedDoc) (res : CorepResult) :
  merge_citations docs (merge_citations docs res) = merge_citations docs res
  /\ rules_used (merge_citations docs res)
     = rules_used res
         ++ absent_from (rules_used res) (sorted_set (map citation docs))
  /\ StronglySorted str_lt (sorted_set (map citation docs))
  /\ (forall c, In c (sorted_set (map citation docs)) <-> In c (map citation docs))
  /\ ((forall c, In c (map citation docs) -> In c (rules_used res)) ->
      merge_citations docs res = res).
Proof.
  repeat split.
  - apply merge_citations_covered. intros c Hc.
    rewrite merge_citations_rules_used. apply In_app_unseen.
    now apply In_sorted_set.
  - rewrite merge_citations_rules_used. f_equal.
    apply unseen_absent, sorted_set_NoDup.
  - apply sorted_set_sorted.
  - apply In_sorted_set.
  - apply In_sorted_set.
  - apply merge_citations_covered.
Qed.

(** ** The audit lists *)

Lemma threshold_warning_head (x : float) :
  exists rest, threshold_warning x = 67%N :: rest.
Proof. eexists. reflexivity. Qed.

Lemma deterministic_warnings_NoDup (c r m : option float) :
  NoDup (threshold_rule (fst (ratio_rule c r m [])) (snd (ratio_rule c r m []))).
Proof.
  assert (Hw : forall w, w = [] \/ w = [RATIO_WARNING] -> NoDup w).
  { intros w [-> | ->]; repeat constructor. intros []. }
  assert (Hthr : forall x w, (w = [] \/ w = [RATIO_WARNING]) ->
                 NoDup (threshold_rule x w)).
  { intros [x|] w H; unfold threshold_rule; [|now apply Hw].
    destruct (x <? MIN_CET1_RATIO)%float; [|now apply Hw].
    apply NoDup_snoc; [now apply Hw|].
    destruct (threshold_warning_head x) as (rest & ->).
    destruct H as [-> | ->]; [intros [] | intros [H | []]; discriminate H]. }
  apply Hthr, ratio_rule_warnings.
Qed.

Lemma deterministic_missing_NoDup (c a t r : option float) :
  NoDup (missing_after_coercion
           [(u "CET1", c); (u "AT1", a); (u "Tier2", t); (u "RWA", r)]).
Proof.
  rewrite missing_after_coercion_filter.
  destruct c, a, t, r; cbn; repeat constructor; cbn; intuition discriminate.
Qed.

(** The part of C2 that the code keeps: [missing_fields] and
    [validation_warnings] of the final result hold no string twice, and the
    audit merge adds no duplicate to [rules_used]. *)
Lemma audit_lists_NoDup (initial : dict) (res : CorepResult) (docs : list RetrievedDoc) :
  validate_corep_result initial = Ok res ->
  NoDup (missing_fields (merge_citations docs res))
  /\ NoDup (validation_warnings (merge_citations docs res))
  /\ (NoDup (rules_used res) -> NoDup (rules_used (merge_citations docs res))).
Proof.
  intros Hres. apply validate_inv in Hres as (k & _ & ->).
  unfold merge_citations at 1 2. cbn [missing_fields validation_warnings reconciled].
  repeat split.
  - apply merge_model_entries_NoDup, deterministic_missing_NoDup.
  - apply merge_model_entries_NoDup, deterministic_warnings_NoDup.
  - intros H. rewrite merge_citations_rules_used. now apply NoDup_app_unseen.
Qed.

(** C2, the failing input: the model declares one rule twice and the
    retriever returns a snippet that cites it; the rule stays twice in
    [rules_used] of the final result, through the reconciler and through the
    audit merge. *)
Theorem repeated_rule_stays_repeated :
  let completion :=
    u "{" ++ quoted "rules_used" ++ u ": [" ++ quoted "A" ++ u ", " ++ quoted "A" ++ u "]}" in
  let retrieved :=
    [{| metadata := Some [(u "source", VStr (u "PRA Rulebook")); (u "citation", VStr (u "A"))];
        page_content := u "Own funds." |}] in
  exists res docs raw,
    generate_corep_assessment (fun _ _ => retrieved) (fun _ _ => Ok completion)
      (u "A bank with CET1 of 300.") 4
    = Ok (res, docs, raw)
    /\ raw = VDict [(u "rules_used", VList [VStr (u "A"); VStr (u "A")])]
    /\ map citation docs = [u "A"]
    /\ rules_used res = [u "A"; u "A"]
    /\ ~ NoDup (rules_used res).
Proof.
  do 3 eexists. split; [vm_compute; reflexivity|].
  repeat split.
  intros H. apply NoDup_cons_iff in H as [H _]. apply H. now left.
Qed.

(** ** The explanation *)

Lemma explanation_absent (initial : dict) (res : CorepResult) :
  validate_corep_result initial = Ok res ->
  dict_lookup initial (u "explanation") = None ->
  explanation res = DEFAULT_EXPLANATION /\ DEFAULT_EXPLANATION <> [].
Proof.
  intros Hres Habs. apply validate_inv in Hres as (k & _ & ->).
  cbn [reconciled explanation]. unfold dict_get_default. rewrite Habs.
  split; [reflexivity | discriminate].
Qed.

Lemma explanation_present (initial : dict) (res : CorepResult) (v : value) :
  validate_corep_result initial = Ok res ->
  dict_lookup initial (u "explanation") = Some v ->
  explanation res = py_str v.
Proof.
  intros Hres Hv. apply validate_inv in Hres as (k & _ & ->).
  cbn [reconciled explanation]. unfold dict_get_default. now rewrite Hv.
Qed.

(** C9, the failing input: an explanation that the model gives as the empty
    string is left empty, where an empty [template_name] is replaced by its
    placeholder. *)
Theorem empty_explanation_stays_empty :
  let initial := [(u "template_name", VStr (u "")); (u "explanation", VStr (u ""))] in
  exists res,
    validate_corep_result initial = Ok res
    /\ explanation res = []
    /\ template_name res = DEFAULT_TEMPLATE_NAME.
Proof. eexists. repeat split; vm_compute; reflexivity. Qed.

(** ** The fuel of the JSON scanner *)

Lemma skip_ws_length (s : str) : (List.length (skip_ws s) <= List.length s)%nat.
Proof.
  induction s as [|c s IH]; simpl; [lia|].
  destruct (is_json_space c); simpl; lia.
Qed.

Lemma tl_length (s : str) : (List.length (tl s) <= List.length s)%nat.
Proof. destruct s; simpl; lia. Qed.

Lemma head_is_length (c : N) (s : str) :
  head_is c s = true -> (List.length (tl s) < List.length s)%nat.
Proof. destruct s; simpl; [discriminate | lia]. Qed.

Lemma take_digits_length (s : str) (acc : N) (n : nat) (v : N) (k : nat) (rest : str) :
  take_digits acc n s = (v, k, rest) ->
  (List.length rest + k = List.length s + n)%nat /\ (n <= k)%nat.
Proof.
  revert acc n; induction s as [|c s IH]; intros acc n; simpl.
  - intros [= <- <- <-]. simpl. lia.
  - destruct (is_ascii_digit c).
    + intros H. apply IH in H. lia.
    + intros [= <- <- <-]. simpl. lia.
Qed.

Lemma parse_sign_length (s : str) : (List.length (snd (parse_sign s)) <= List.length s)%nat.
Proof.
  unfold parse_sign. destruct s as [|c s]; simpl; [lia|].
  destruct (c =? 45)%N; [simpl; lia|]. destruct (c =? 43)%N; simpl; lia.
Qed.

Lemma parse_exponent_length (s : str) :
  (List.length (snd (parse_exponent s)) <= List.length s)%nat.
Proof.
  unfold parse_exponent. destruct s as [|c s1]; [simpl; lia|].
  destruct ((c =? 101) || (c =? 69))%N; [|simpl; lia].
  pose proof (parse_sign_length s1) as Hs.
  destruct (parse_sign s1) as [neg s2]. simpl in Hs.
  destruct (take_digits 0 0 s2) as [[v n] s3] eqn:Hd.
  apply take_digits_length in Hd.
  destruct n; simpl in *; lia.
Qed.

Lemma match_number_length (s : str) (v : value) (rest : str) :
  match_number s = Some (v, rest) -> (List.length rest < List.length s)%nat.
Proof.
  unfold match_number.
  assert (Hsgn : (List.length (snd (if head_is 45 s then (true, tl s) else (false, s)))
                  <= List.length s)%nat).
  { destruct (head_is 45 s); simpl; [apply tl_length | lia]. }
  destruct (if head_is 45 s then (true, tl s) else (false, s)) as [neg s1].
  simpl in Hsgn.
  destruct s1 as [|c s2]; [discriminate|].
  assert (Hip : forall i s3,
             (if (c =? 48)%N then Some (0%N, s2)
              else if is_ascii_digit c
                   then let '(i, _, s3) := take_digits 0 0 (c :: s2) in Some (i, s3)
                   else None) = Some (i, s3) ->
             (List.length s3 <= List.length s2)%nat).
  { intros i s3. destruct (c =? 48)%N; [intros [= <- <-]; lia|].
    destruct (is_ascii_digit c) eqn:Hc; [|discriminate].
    destruct (take_digits 0 0 (c :: s2)) as [[i' k] s3'] eqn:Hd.
    intros [= <- <-]. simpl in Hd. rewrite Hc in Hd.
    apply take_digits_length in Hd. lia. }
  destruct (if (c =? 48)%N then _ else _) as [[i s3]|]; [|discriminate].
  specialize (Hip i s3 eq_refl).
  assert (Hfr : (List.length
                   (snd (if head_is 46 s3 && head_digit (tl s3)
                         then take_digits i 0 (tl s3) else (i, O, s3)))
                 <= List.length s3)%nat).
  { destruct (_ && _); [|simpl; lia].
    destruct (take_digits i 0 (tl s3)) as [[a b] r] eqn:Hd.
    apply take_digits_length in Hd. pose proof (tl_length s3). simpl. lia. }
  destruct (if head_is 46 s3 && head_digit (tl s3) then _ else _) as [[m nf] s4].
  simpl in Hfr.
  pose proof (parse_exponent_length s4) as He.
  destruct (parse_exponent s4) as [e s5]. simpl in He.
  destruct (_ || _); intros [= <- <-]; simpl in *; lia.
Qed.

Lemma scanstring_length (n : nat) :
  forall (s acc t rest : str),
    (List.length s <= n)%nat ->
    scanstring s acc = Some (t, rest) -> (List.length rest < List.length s)%nat.
Proof.
  induction n as [|n IH]; intros s acc t rest Hn.
  - destruct s; [discriminate | simpl in Hn; lia].
  - destruct s as [|c s1]; [discriminate|]. simpl in Hn. cbn [scanstring].
    destruct (c =? 34)%N; [intros [= <- <-]; simpl; lia|].
    destruct (c =? 92)%N.
    + destruct s1 as [|e s2]; [discriminate|]. simpl in Hn.
      destruct (e =? 117)%N.
      * destruct s2 as [|h1 [|h2 [|h3 [|h4 s3]]]]; try discriminate.
        simpl in Hn. destruct (hex4 h1 h2 h3 h4) as [c1|]; [|discriminate].
        assert (Hs3 : forall a, scanstring s3 a = Some (t, rest) ->
                        (List.length rest < List.length (c :: e :: h1 :: h2 :: h3 :: h4 :: s3))%nat).
        { intros a Ha. apply IH in Ha; simpl; lia. }
        destruct s3 as [|b [|x [|g1 [|g2 [|g3 [|g4 s4]]]]]]; try apply Hs3.
        destruct (is_high_surrogate c1 && (b =? 92)%N && (x =? 117)%N); [|apply Hs3].
        destruct (hex4 g1 g2 g3 g4) as [c2|]; [|discriminate].
        destruct (is_low_surrogate c2); [|apply Hs3].
        intros Ha. apply IH in Ha; simpl in *; lia.
      * destruct (simple_escape e); [|discriminate].
        intros Ha. apply IH in Ha; simpl; lia.
    + destruct (c <=? 31)%N; [discriminate|].
      intros Ha. apply IH in Ha; simpl; lia.
Qed.

Lemma skipn_starts_with (w s : str) :
  starts_with w s = true -> w <> [] ->
  (List.length (skipn (List.length w) s) < List.length s)%nat.
Proof.
  intros H Hw. rewrite length_skipn.
  destruct w as [|x w]; [congruence|]. destruct s as [|y s]; [discriminate|].
  simpl. lia.
Qed.

Lemma never_exhausted_Fail (n : nat) : never_exhausted Fail n.
Proof. split; [discriminate | intros v rest; discriminate]. Qed.

Lemma never_exhausted_Found (n : nat) (v : value) (rest : str) :
  (List.length rest < n)%nat -> never_exhausted (Found v rest) n.
Proof. intros H. split; [discriminate | now intros v' rest' [= _ <-]]. Qed.

Lemma never_exhausted_le (r : scan value) (n m : nat) :
  never_exhausted r n -> (n <= m)%nat -> never_exhausted r m.
Proof. intros [H1 H2] Hle. split; [assumption|]. intros v rest E. apply H2 in E. lia. Qed.

Lemma scan_fuel (f : nat) :
  (forall s, (2 * List.length s < f)%nat ->
             never_exhausted (scan_once f s) (List.length s))
  /\ (forall s acc, (2 * List.length s + 1 < f)%nat ->
                    never_exhausted (array_items f s acc) (List.length s))
  /\ (forall s d, (2 * List.length s + 1 < f)%nat ->
                  never_exhausted (object_items f s d) (List.length s)).
Proof.
  induction f as [|f (IHs & IHa & IHo)]; [repeat split; intros; lia|].
  split; [|split].
  - intros s Hf. cbn [scan_once].
    destruct s as [|c s']; [apply never_exhausted_Fail|].
    cbn [List.length] in *.
    pose proof (skip_ws_length s') as Hws.
    destruct (c =? 34)%N.
    { destruct (scanstring s' []) as [[t rest]|] eqn:E; [|apply never_exhausted_Fail].
      apply never_exhausted_Found. apply (scanstring_length _ _ _ _ _ (le_n _)) in E. lia. }
    destruct (c =? 123)%N.
    { cbn zeta. destruct (head_is 125 (skip_ws s')) eqn:E.
      - apply never_exhausted_Found. apply head_is_length in E. lia.
      - eapply never_exhausted_le; [apply IHo|]; lia. }
    destruct (c =? 91)%N.
    { cbn zeta. destruct (head_is 93 (skip_ws s')) eqn:E.
      - apply never_exhausted_Found. apply head_is_length in E. lia.
      - eapply never_exhausted_le; [apply IHa|]; lia. }
    repeat match goal with
           | |- context [if starts_with ?w (c :: s') then _ else _] =>
               destruct (starts_with w (c :: s')) eqn:?;
               [apply never_exhausted_Found;
                match goal with
                | H : starts_with _ _ = true |- _ =>
                    apply skipn_starts_with in H; [exact H | discriminate]
                end|]
           end.
    destruct (match_number (c :: s')) as [[v rest]|] eqn:E; [|apply never_exhausted_Fail].
    apply never_exhausted_Found. now apply match_number_length in E.
  - intros s acc Hf. cbn [array_items].
    destruct (IHs s ltac:(lia)) as [Hne Hlen].
    destruct (scan_once f s) as [v rest| |]; [|apply never_exhausted_Fail|congruence].
    specialize (Hlen v rest eq_refl). cbn zeta.
    pose proof (skip_ws_length rest) as Hws.
    destruct (head_is 93 (skip_ws rest)) eqn:E1.
    { apply never_exhausted_Found. apply head_is_length in E1. lia. }
    destruct (head_is 44 (skip_ws rest)) eqn:E2; [|apply never_exhausted_Fail].
    apply head_is_length in E2.
    pose proof (skip_ws_length (tl (skip_ws rest))) as Hws2.
    eapply never_exhausted_le; [apply IHa|]; lia.
  - intros s d Hf. cbn [object_items].
    destruct (head_is 34 s) eqn:E0; [|apply never_exhausted_Fail].
    apply head_is_length in E0.
    destruct (scanstring (tl s) []) as [[k s2]|] eqn:Es; [|apply never_exhausted_Fail].
    apply (scanstring_length _ _ _ _ _ (le_n _)) in Es. cbn zeta.
    pose proof (skip_ws_length s2) as Hws.
    destruct (head_is 58 (skip_ws s2)) eqn:E1; [|apply never_exhausted_Fail].
    apply head_is_length in E1.
    pose proof (skip_ws_length (tl (skip_ws s2))) as Hws1.
    destruct (IHs (skip_ws (tl (skip_ws s2))) ltac:(lia)) as [Hne Hlen].
    destruct (scan_once f (skip_ws (tl (skip_ws s2)))) as [v rest| |];
      [|apply never_exhausted_Fail|congruence].
    specialize (Hlen v rest eq_refl).
    pose proof (skip_ws_length rest) as Hws2.
    destruct (head_is 125 (skip_ws rest)) eqn:E2.
    { apply never_exhausted_Found. apply head_is_length in E2. lia. }
    destruct (head_is 44 (skip_ws rest)) eqn:E3; [|apply never_exhausted_Fail].
    apply head_is_length in E3.
    pose proof (skip_ws_length (tl (skip_ws rest))) as Hws3.
    eapply never_exhausted_le; [apply IHo|]; lia.
Qed.

(** [json.loads] has fuel to spare. *)
Lemma loads_fuel (s : str) :
  scan_once (S (2 * List.length s)) (skip_ws s) <> Exhausted.
Proof.
  pose proof (skip_ws_length s) as Hws.
  apply (proj1 (scan_fuel (S (2 * List.length s)))). lia.
Qed.

(** More fuel does not change an outcome that did not run out of fuel. *)
Lemma scan_more_fuel (f : nat) :
  (forall s g, (f <= g)%nat -> scan_once f s <> Exhausted ->
               scan_once g s = scan_once f s)
  /\ (forall s acc g, (f <= g)%nat -> array_items f s acc <> Exhausted ->
                      array_items g s acc = array_items f s acc)
  /\ (forall s d g, (f <= g)%nat -> object_items f s d <> Exhausted ->
                    object_items g s d = object_items f s d).
Proof.
  induction f as [|f (IHs & IHa & IHo)].
  { repeat split; intros; simpl in *; congruence. }
  split; [|split].
  - intros s [|g] Hg; [lia|]. apply le_S_n in Hg. cbn [scan_once].
    destruct s as [|c s']; [reflexivity|].
    destruct (c =? 34)%N; [reflexivity|].
    destruct (c =? 123)%N.
    { cbn zeta. destruct (head_is 125 (skip_ws s')); [reflexivity|]. now apply IHo. }
    destruct (c =? 91)%N.
    { cbn zeta. destruct (head_is 93 (skip_ws s')); [reflexivity|]. now apply IHa. }
    reflexivity.
  - intros s acc [|g] Hg; [lia|]. apply le_S_n in Hg. cbn [array_items].
    intros Hne.
    assert (Hs : scan_once f s <> Exhausted)
      by (intros E; rewrite E in Hne; congruence).
    rewrite (IHs s g Hg Hs).
    destruct (scan_once f s) as [v rest| |]; try reflexivity. cbn zeta in *.
    destruct (head_is 93 (skip_ws rest)); [reflexivity|].
    destruct (head_is 44 (skip_ws rest)); [|reflexivity].
    now apply IHa.
  - intros s d [|g] Hg; [lia|]. apply le_S_n in Hg. cbn [object_items].
    destruct (head_is 34 s); [|reflexivity].
    destruct (scanstring (tl s) []) as [[k s2]|]; [|reflexivity]. cbn zeta.
    destruct (head_is 58 (skip_ws s2)); [|reflexivity].
    intros Hne.
    assert (Hs : scan_once f (skip_ws (tl (skip_ws s2))) <> Exhausted)
      by (intros E; rewrite E in Hne; congruence).
    rewrite (IHs _ g Hg Hs).
    destruct (scan_once f (skip_ws (tl (skip_ws s2)))) as [v rest| |];
      try reflexivity.
    destruct (head_is 125 (skip_ws rest)); [reflexivity|].
    destruct (head_is 44 (skip_ws rest)); [|reflexivity].
    now apply IHo.
Qed.

(** The value [json.loads] reads does not depend on the fuel: with any more
    fuel the scan gives the same outcome, which is never [Exhausted]. *)
Lemma loads_fuel_enough (s : str) (g : nat) :
  (S (2 * List.length s) <= g)%nat ->
  scan_once g (skip_ws s) = scan_once (S (2 * List.length s)) (skip_ws s)
  /\ scan_once g (skip_ws s) <> Exhausted.
Proof.
  intros Hg.
  assert (E : scan_once g (skip_ws s) = scan_once (S (2 * List.length s)) (skip_ws s))
    by (apply (proj1 (scan_more_fuel _)); [assumption | apply loads_fuel]).
  split; [exact E|]. rewrite E. apply loads_fuel.
Qed.

(** ** Searching and slicing *)









(** ** The tolerant parser *)







(* ===================================================================== *)
(** * Further properties of the reconciler *)
(* ===================================================================== *)

Lemma dict_get_default_agree (d1 d2 : dict) (k : str) (default : value) :
  dict_lookup d1 k = dict_lookup d2 k ->
  dict_get_default d1 k default = dict_get_default d2 k default.
Proof. unfold dict_get_default. now intros ->. Qed.

(** X1: the reconciler reads ten keys of the raw output and nothing else:
    two raw outputs that agree on these keys are reconciled alike, whether
    to a result or to an exception. *)
Theorem unknown_keys_ignored (d1 d2 : dict) :
  (forall k, In k KEYS_READ -> dict_lookup d1 k = dict_lookup d2 k) ->
  validate_corep_result d1 = validate_corep_result d2.
Proof.
  intros H.
  assert (G : forall k default, In k KEYS_READ ->
                dict_get_default d1 k default = dict_get_default d2 k default).
  { intros k default Hk. apply dict_get_default_agree. now apply H. }
  unfold validate_corep_result, dict_get.
  rewrite !G by (unfold KEYS_READ; repeat (first [left; reflexivity | right])).
  reflexivity.
Qed.

Lemma unknown_keys_ignored_witness :
  let d1 := [(u "CET1", VInt 300); (u "comment", VStr (u "checked")); (u "RWA", VInt 5000)] in
  let d2 := [(u "RWA", VInt 5000); (u "CET1", VInt 300)] in
  validate_corep_result d1 = validate_corep_result d2.
Proof.
  apply unknown_keys_ignored. intros k Hk.
  repeat (destruct Hk as [<- | Hk]; [reflexivity|]). destruct Hk.
Defined.

(** ** The ratio and the disagreement check *)

(** The difference of a float with itself is a zero or not a number, and
    never more than the tolerance. *)
Lemma sub_self_small (x : float) : (1e-6 <? abs (x - x))%float = false.
Proof.
  rewrite ltb_spec, abs_spec, sub_spec.
  change (Prim2SF 1e-6) with (S754_finite false 4722366482869645 (-72)).
  destruct (Prim2SF x) as [s|s| |s m e].
  - now destruct s.
  - now destruct s.
  - reflexivity.
  - unfold SF64sub, SFsub. cbv zeta. rewrite Z.sub_diag. reflexivity.
Qed.

Lemma threshold_warning_not_ratio (x : float) : RATIO_WARNING <> threshold_warning x.
Proof.
  destruct (threshold_warning_head x) as [rest ->]. intros H.
  apply (f_equal (hd 0%N)) in H. vm_compute in H. discriminate.
Qed.

Lemma In_threshold_rule (o : option float) (w : list str) :
  In RATIO_WARNING (threshold_rule o w) <-> In RATIO_WARNING w.
Proof.
  destruct o as [x|]; [|reflexivity]. rewrite threshold_rule_some.
  rewrite in_app_iff. split; [|now left].
  intros [H | H]; [assumption|].
  destruct (x <? 0.045)%float; [|destruct H].
  destruct H as [H | []]. symmetry in H. now apply threshold_warning_not_ratio in H.
Qed.

(** The disagreement warning is in the result when the deterministic check
    issued it or the model declared it. *)
Lemma In_ratio_warning (initial : dict) (k : coerced) :
  In RATIO_WARNING (validation_warnings (reconciled initial k))
  <-> In RATIO_WARNING (snd (ratio_rule (c_cet1 k) (c_rwa k) (c_ratio_model k) []))
      \/ In RATIO_WARNING (model_warnings initial).
Proof.
  cbn [reconciled validation_warnings]. rewrite merge_model_entries_unseen.
  fold (model_warnings initial). split.
  - intros H. apply in_app_iff in H as [H | H].
    + left. now apply In_threshold_rule in H.
    + right. eapply unseen_incl, H.
  - intros [H | H].
    + apply in_app_iff. left. now apply In_threshold_rule.
    + now apply In_app_unseen.
Qed.

(** X2: without a CET1 amount, without an RWA amount, or with an RWA that is
    not greater than zero, the ratio of the result is the coerced proposal
    of the model, taken as it is, and the deterministic checks issue no
    disagreement warning. *)
Theorem proposed_ratio_passes_unchecked (initial : dict) (res : CorepResult) :
  validate_corep_result initial = Ok res ->
  (CET1 res = None \/ RWA res = None
   \/ exists r, RWA res = Some r /\ (0 <? r)%float = false) ->
  _to_optional_float (dict_get initial (u "CET1_ratio")) = Ok (CET1_ratio res)
  /\ (In RATIO_WARNING (validation_warnings res) ->
      In RATIO_WARNING (model_warnings initial)).
Proof.
  intros Hres Hcase. apply validate_inv in Hres as (k & Hk & ->).
  assert (E : ratio_rule (c_cet1 k) (c_rwa k) (c_ratio_model k) []
              = (c_ratio_model k, [])).
  { cbn [reconciled CET1 RWA] in Hcase. unfold ratio_rule.
    destruct (c_cet1 k) as [c|]; [|reflexivity].
    destruct (c_rwa k) as [r|]; [|reflexivity].
    destruct Hcase as [H | [H | (r' & [= <-] & H)]]; try discriminate.
    now rewrite H. }
  split.
  - cbn [reconciled CET1_ratio]. rewrite E. apply Hk.
  - intros H. apply In_ratio_warning in H. rewrite E in H.
    destruct H as [[] | H]. exact H.
Qed.

Lemma proposed_ratio_passes_unchecked_witness :
  let initial := [(u "CET1", VInt 300); (u "RWA", VInt 0); (u "CET1_ratio", VFloat 0.5)] in
  exists res,
    validate_corep_result initial = Ok res
    /\ RWA res = Some 0%float
    /\ (0 <? 0)%float = false
    /\ _to_optional_float (dict_get initial (u "CET1_ratio")) = Ok (CET1_ratio res)
    /\ CET1_ratio res = Some 0.5%float.
Proof.
  eexists. split; [vm_compute; reflexivity|].
  split; [reflexivity|]. split; [reflexivity|]. split; [|reflexivity].
  eapply (proposed_ratio_passes_unchecked
            [(u "CET1", VInt 300); (u "RWA", VInt 0); (u "CET1_ratio", VFloat 0.5)]);
    [vm_compute; reflexivity|].
  right. right. exists 0%float. split; reflexivity.
Defined.

(** With both amounts and an RWA above zero, the deterministic check issues
    the disagreement warning exactly on a proposal that disagrees. *)
Lemma ratio_rule_flags (c r : float) (m : option float) :
  (0 <? r)%float = true ->
  (In RATIO_WARNING (snd (ratio_rule (Some c) (Some r) m []))
   <-> exists p, m = Some p /\ disagrees p c (c / r) = true).
Proof.
  intros Hr. unfold ratio_rule. rewrite Hr. cbn [snd]. destruct m as [p|].
  - unfold disagrees. cbv zeta.
    destruct ((1e-6 <? abs (p - c)) && (1e-6 <? abs (p - c / r)))%float eqn:E;
      cbn [app]; split.
    + intros _. now exists p.
    + intros _. now left.
    + intros [].
    + intros (p' & [= <-] & H). congruence.
  - split; [intros [] | intros (p & H & _); discriminate].
Qed.

(** X3: with both amounts and an RWA above zero, the ratio of the result is
    the quotient, whatever the model proposed; and, the model not having
    declared the disagreement warning itself, the warning is in the result
    exactly when a ratio was proposed that is further than the tolerance
    both from the CET1 amount and from the quotient. *)
Theorem disagreement_flagged_iff (initial : dict) (res : CorepResult)
    (c r : float) (m : option float) :
  validate_corep_result initial = Ok res ->
  CET1 res = Some c -> RWA res = Some r -> (0 <? r)%float = true ->
  _to_optional_float (dict_get initial (u "CET1_ratio")) = Ok m ->
  ~ In RATIO_WARNING (model_warnings initial) ->
  CET1_ratio res = Some (c / r)%float
  /\ (In RATIO_WARNING (validation_warnings res)
      <-> exists p, m = Some p /\ disagrees p c (c / r) = true).
Proof.
  intros Hres Hc Hrwa Hr Hm Hmodel. apply validate_inv in Hres as (k & Hk & ->).
  cbn [reconciled CET1 RWA] in Hc, Hrwa.
  assert (Em : c_ratio_model k = m).
  { destruct Hk as (_ & _ & _ & _ & H). rewrite H in Hm. now injection Hm. }
  split.
  - cbn [reconciled CET1_ratio]. rewrite Hc, Hrwa. now apply ratio_rule_quotient.
  - rewrite In_ratio_warning, Hc, Hrwa, Em, (ratio_rule_flags c r m Hr). tauto.
Qed.

Lemma disagreement_flagged_iff_witness :
  let initial := [(u "CET1", VInt 300); (u "RWA", VInt 5000); (u "CET1_ratio", VFloat 0.5)] in
  exists res,
    validate_corep_result initial = Ok res
    /\ disagrees 0.5 300 (300 / 5000) = true
    /\ CET1_ratio res = Some (300 / 5000)%float
    /\ (In RATIO_WARNING (validation_warnings res)
        <-> exists p, Some 0.5%float = Some p /\ disagrees p 300 (300 / 5000) = true).
Proof.
  eexists. split; [vm_compute; reflexivity|]. split; [reflexivity|].
  eapply (disagreement_flagged_iff
            [(u "CET1", VInt 300); (u "RWA", VInt 5000); (u "CET1_ratio", VFloat 0.5)]);
    [vm_compute; reflexivity | reflexivity | reflexivity | reflexivity | reflexivity |].
  intros H. exact H.
Defined.

(** X4: a proposal that is the CET1 amount itself, or the quotient itself,
    is never flagged: the check lets a proposed ratio of 300 pass beside a
    CET1 amount of 300. *)
Theorem proposal_equal_to_amount_accepted (initial : dict) (res : CorepResult)
    (c r p : float) :
  validate_corep_result initial = Ok res ->
  CET1 res = Some c -> RWA res = Some r -> (0 <? r)%float = true ->
  _to_optional_float (dict_get initial (u "CET1_ratio")) = Ok (Some p) ->
  p = c \/ p = (c / r)%float ->
  ~ In RATIO_WARNING (model_warnings initial) ->
  ~ In RATIO_WARNING (validation_warnings res).
Proof.
  intros Hres Hc Hrwa Hr Hm Hp Hmodel. apply validate_inv in Hres as (k & Hk & ->).
  cbn [reconciled CET1 RWA] in Hc, Hrwa.
  assert (Em : c_ratio_model k = Some p).
  { destruct Hk as (_ & _ & _ & _ & H). rewrite H in Hm. now injection Hm. }
  rewrite In_ratio_warning, Hc, Hrwa, Em, (ratio_rule_flags c r (Some p) Hr).
  intros [(p' & [= <-] & H) | H]; [|now apply Hmodel].
  unfold disagrees in H. apply andb_true_iff in H as [H1 H2].
  destruct Hp as [-> | ->]; [rewrite sub_self_small in H1 | rewrite sub_self_small in H2];
    discriminate.
Qed.

Lemma proposal_equal_to_amount_accepted_witness :
  let initial := [(u "CET1", VInt 300); (u "RWA", VInt 5000); (u "CET1_ratio", VInt 300)] in
  exists res,
    validate_corep_result initial = Ok res
    /\ CET1_ratio res = Some (300 / 5000)%float
    /\ ~ In RATIO_WARNING (validation_warnings res).
Proof.
  eexists. split; [vm_compute; reflexivity|]. split; [reflexivity|].
  eapply (proposal_equal_to_amount_accepted
            [(u "CET1", VInt 300); (u "RWA", VInt 5000); (u "CET1_ratio", VInt 300)]
            _ 300%float 5000%float 300%float);
    [vm_compute; reflexivity | reflexivity | reflexivity | reflexivity | reflexivity
    | left; reflexivity |].
  intros H. exact H.
Defined.

(** ** What makes the reconciler raise *)

(** Only an [int] makes the coercer raise: one that [float] cannot hold. *)
Lemma coerce_raises_int (v : value) (e : exn) :
  _to_optional_float v = Raise e ->
  exists z, v = VInt z /\ float_of_int z = Raise OverflowError.
Proof.
  destruct v as [|b|z|x|s|l|d]; unfold _to_optional_float; try discriminate.
  - destruct b; intros H; vm_compute in H; discriminate.
  - intros H. exists z. split; [reflexivity|].
    destruct (float_of_int z) as [x|e'] eqn:E; cbn [bind] in H; [discriminate|].
    unfold float_of_int in E |- *.
    destruct (binary_normalize prec emax z 0 false); congruence.
  - destruct (replace (strip s) (u "%") (u "")); discriminate.
Qed.

(** X5: the reconciler raises exactly when one of the five numeric fields of
    the raw output is an [int] too large for a [float], and then it raises
    [OverflowError]; on any other raw output it returns a result. *)
Theorem validate_raises_iff (initial : dict) :
  (forall e, validate_corep_result initial = Raise e -> e = OverflowError)
  /\ ((exists e, validate_corep_result initial = Raise e)
      <-> exists name z,
            In name NUMERIC_FIELDS
            /\ dict_get initial name = VInt z
            /\ float_of_int z = Raise OverflowError)
  /\ ((exists res, validate_corep_result initial = Ok res)
      <-> forall name z,
            In name NUMERIC_FIELDS -> dict_get initial name = VInt z ->
            float_of_int z <> Raise OverflowError).
Proof.
  assert (Hraise : (exists e, validate_corep_result initial = Raise e)
      <-> exists name z,
            In name NUMERIC_FIELDS
            /\ dict_get initial name = VInt z
            /\ float_of_int z = Raise OverflowError).
  { split.
    - intros (e & He). apply validate_raises in He as (_ & name & Hname & Hc).
      apply coerce_raises_int in Hc as (z & Hz & Hf). now exists name, z.
    - intros (name & z & Hname & Hz & Hf).
      assert (Hc : _to_optional_float (dict_get initial name) = Raise OverflowError).
      { rewrite Hz. unfold _to_optional_float. now rewrite Hf. }
      destruct (validate_corep_result initial) as [res|e] eqn:E; [|now exists e].
      apply validate_inv in E as (k & (H1 & H2 & H3 & H4 & H5) & _).
      unfold NUMERIC_FIELDS in Hname.
      repeat (destruct Hname as [<- | Hname]; [congruence|]). destruct Hname. }
  split; [|split; [exact Hraise|]].
  - intros e He. now apply validate_raises in He.
  - split.
    + intros (res & Hres) name z Hname Hz Hf.
      destruct (proj2 Hraise) as (e & He); [now exists name, z|]. congruence.
    + intros Hall. destruct (validate_corep_result initial) as [res|e] eqn:E; [now exists res|].
      destruct (proj1 Hraise) as (name & z & Hname & Hz & Hf); [now exists e|].
      now destruct (Hall name z Hname Hz).
Qed.

(** ** The name of the template *)

Lemma uint_str_nonempty (d : Decimal.uint) : d <> Decimal.Nil -> uint_str d <> [].
Proof. destruct d; intros H; [now destruct H | discriminate ..]. Qed.

Lemma str_of_N_nonempty (n : N) : str_of_N n <> [].
Proof.
  unfold str_of_N. apply uint_str_nonempty. destruct n as [|p]; [discriminate|].
  apply DecimalPos.Unsigned.to_uint_nonnil.
Qed.

Lemma str_of_int_nonempty (z : Z) : str_of_int z <> [].
Proof. destruct z; try discriminate; apply str_of_N_nonempty. Qed.

Lemma app_nonempty_r {A : Type} (l r : list A) : r <> [] -> l ++ r <> [].
Proof. intros H E. apply app_eq_nil in E as [_ E]. now apply H. Qed.

Lemma float_repr_nonempty (x : float) : float_repr x <> [].
Proof.
  unfold float_repr. destruct (Prim2SF x) as [s|s| |s m e].
  - apply app_nonempty_r. discriminate.
  - apply app_nonempty_r. discriminate.
  - discriminate.
  - destruct (shortest_digits m e) as [ds decpt]. apply app_nonempty_r.
    destruct (_ || _).
    + apply app_nonempty_r, app_nonempty_r. discriminate.
    + destruct (decpt <=? 0)%Z; [discriminate|].
      destruct (decpt <? _)%Z.
      * apply app_nonempty_r. discriminate.
      * apply app_nonempty_r, app_nonempty_r. discriminate.
Qed.

(** [repr] of an object is never the empty string. *)
Lemma py_repr_nonempty (v : value) : py_repr v <> [].
Proof.
  destruct v as [|b|z|x|s|l|d]; cbn [py_repr].
  - discriminate.
  - destruct b; discriminate.
  - apply str_of_int_nonempty.
  - apply float_repr_nonempty.
  - discriminate.
  - discriminate.
  - discriminate.
Qed.

(** [str] of an object that counts as true is never the empty string. *)
Lemma py_str_nonempty (v : value) : truthy v = true -> py_str v <> [].
Proof.
  destruct v as [|b|z|x|s|l|d]; intros H; try apply py_repr_nonempty.
  cbn [py_str]. now destruct s.
Qed.

(** X6: the name of the template is never empty: it is the string of
    the value the model gave when that counts as true, and the default name
    when the key is absent or its value counts as false. *)
Theorem template_name_never_empty (initial : dict) (res : CorepResult) :
  validate_corep_result initial = Ok res ->
  template_name res <> []
  /\ template_name res
     = (if truthy (dict_get initial (u "template_name"))
        then py_str (dict_get initial (u "template_name"))
        else DEFAULT_TEMPLATE_NAME).
Proof.
  intros Hres. apply validate_inv in Hres as (k & _ & ->).
  cbn [reconciled template_name]. unfold py_or.
  destruct (truthy (dict_get initial (u "template_name"))) eqn:E.
  - split; [now apply py_str_nonempty | reflexivity].
  - split; [discriminate | reflexivity].
Qed.

Lemma template_name_never_empty_witness :
  let initial := [(u "template_name", VInt 0); (u "CET1", VInt 300)] in
  exists res,
    validate_corep_result initial = Ok res
    /\ template_name res <> []
    /\ template_name res = DEFAULT_TEMPLATE_NAME.
Proof.
  eexists. split; [vm_compute; reflexivity|].
  eapply (template_name_never_empty [(u "template_name", VInt 0); (u "CET1", VInt 300)]).
  vm_compute; reflexivity.
Defined.

(** ** The two lists of the audit trail *)

(** X7: neither [missing_fields] nor [validation_warnings] of a result holds
    a string twice, whatever the model declared and however often. *)
Theorem missing_and_warnings_NoDup (initial : dict) (res : CorepResult) :
  validate_corep_result initial = Ok res ->
  NoDup (missing_fields res) /\ NoDup (validation_warnings res).
Proof.
  intros Hres. apply validate_inv in Hres as (k & _ & ->).
  cbn [missing_fields validation_warnings reconciled]. split.
  - apply merge_model_entries_NoDup, deterministic_missing_NoDup.
  - apply merge_model_entries_NoDup, deterministic_warnings_NoDup.
Qed.

Lemma missing_and_warnings_NoDup_witness :
  let initial :=
    [(u "RWA", VInt 5000);
     (u "missing_fields", VList [VStr (u "CET1"); VStr (u "AT1"); VStr (u "CET1")]);
     (u "validation_warnings", VList [VStr (u "check"); VStr (u "check")])] in
  exists res,
    validate_corep_result initial = Ok res
    /\ missing_fields res = [u "CET1"; u "AT1"; u "Tier2"]
    /\ validation_warnings res = [u "check"]
    /\ NoDup (missing_fields res) /\ NoDup (validation_warnings res).
Proof.
  eexists. split; [vm_compute; reflexivity|].
  split; [reflexivity|]. split; [reflexivity|].
  eapply (missing_and_warnings_NoDup
            [(u "RWA", VInt 5000);
             (u "missing_fields", VList [VStr (u "CET1"); VStr (u "AT1"); VStr (u "CET1")]);
             (u "validation_warnings", VList [VStr (u "check"); VStr (u "check")])]).
  vm_compute; reflexivity.
Defined.

(* ===================================================================== *)
(** * Further properties of the pipeline *)
(* ===================================================================== *)

(** ** The numbering of the retrieved documents *)

Lemma number_docs_length (retrieved : list Document) (idx : N) :
  List.length (fst (number_docs idx retrieved)) = List.length retrieved
  /\ List.length (snd (number_docs idx retrieved)) = List.length retrieved.
Proof.
  revert idx. induction retrieved as [|doc rest IH]; intros idx; [now split|].
  cbn [number_docs]. specialize (IH (idx + 1)%N).
  destruct (number_docs (idx + 1) rest) as [ds cs]. cbn [fst snd List.length] in *.
  now destruct IH as [-> ->].
Qed.

Lemma lacks_default (doc : Document) (k : str) (default : value) :
  lacks doc k ->
  dict_get_default (match metadata doc with Some ((_ :: _) as d) => d | _ => [] end) k default
  = default.
Proof.
  unfold lacks, dict_get_default.
  destruct (metadata doc) as [[|kv d]|]; cbv beta iota; try reflexivity.
  now intros ->.
Qed.

Lemma number_docs_nth (retrieved : list Document) (idx : N) (k : nat) (doc : Document) :
  nth_error retrieved k = Some doc ->
  exists d,
    nth_error (fst (number_docs idx retrieved)) k = Some d
    /\ id d = str_of_N (idx + N.of_nat k)
    /\ text d = page_content doc
    /\ nth_error (snd (number_docs idx retrieved)) k
       = Some (u "[" ++ citation d ++ u "] (" ++ source d ++ u ")" ++ [10%N] ++ text d)
    /\ (lacks doc (u "source") -> source d = u "unknown")
    /\ (lacks doc (u "citation") ->
        citation d = u "synthetic-" ++ str_of_N (idx + N.of_nat k)).
Proof.
  revert idx k. induction retrieved as [|doc0 rest IH]; intros idx k Hk.
  - now destruct k.
  - cbn [number_docs]. specialize (IH (idx + 1)%N).
    destruct (number_docs (idx + 1) rest) as [ds cs]. destruct k as [|k].
    + injection Hk as ->. eexists. split; [reflexivity|].
      cbn [id text source citation fst snd nth_error]. rewrite N.add_0_r.
      repeat split.
      * intros H. now rewrite (lacks_default _ _ _ H).
      * intros H. now rewrite (lacks_default _ _ _ H).
    + cbn [nth_error] in Hk. destruct (IH k Hk) as (d & H1 & H2 & H3 & H4 & H5 & H6).
      exists d. cbn [fst snd nth_error] in *.
      replace (idx + N.of_nat (S k))%N with (idx + 1 + N.of_nat k)%N by lia.
      repeat split; assumption.
Qed.

(** X8: the documents of the retriever become the snippets in the same
    order and number: snippet [k] has the decimal numeral of [k] as its id
    and the page content as its text, its context chunk reads
    [[citation] (source)], a line feed and the text, and metadata without a
    source or a citation gives it the source [unknown] and the citation
    [synthetic-k]. *)
Theorem snippets_numbered (retrieved : list Document) :
  List.length (fst (number_docs 0 retrieved)) = List.length retrieved
  /\ List.length (snd (number_docs 0 retrieved)) = List.length retrieved
  /\ forall k doc,
       nth_error retrieved k = Some doc ->
       exists d,
         nth_error (fst (number_docs 0 retrieved)) k = Some d
         /\ id d = str_of_N (N.of_nat k)
         /\ text d = page_content doc
         /\ nth_error (snd (number_docs 0 retrieved)) k
            = Some (u "[" ++ citation d ++ u "] (" ++ source d ++ u ")" ++ [10%N] ++ text d)
         /\ (lacks doc (u "source") -> source d = u "unknown")
         /\ (lacks doc (u "citation") ->
             citation d = u "synthetic-" ++ str_of_N (N.of_nat k)).
Proof.
  split; [apply number_docs_length|]. split; [apply number_docs_length|].
  intros k doc Hk. apply (number_docs_nth retrieved 0 k doc Hk).
Qed.

(** ** Numerals are distinct *)

Lemma uint_str_inj (d d' : Decimal.uint) : uint_str d = uint_str d' -> d = d'.
Proof.
  revert d'. induction d; intros d'; destruct d'; cbn [uint_str]; intros H;
    try discriminate; try reflexivity; injection H as H; f_equal; now apply IHd.
Qed.

Lemma str_of_N_inj (n m : N) : str_of_N n = str_of_N m -> n = m.
Proof.
  unfold str_of_N. intros H. apply uint_str_inj in H.
  now apply DecimalN.Unsigned.to_uint_inj.
Qed.

Lemma number_docs_ids (retrieved : list Document) (idx : N) :
  map id (fst (number_docs idx retrieved))
  = map (fun k => str_of_N (idx + N.of_nat k)) (seq 0 (List.length retrieved)).
Proof.
  revert idx. induction retrieved as [|doc rest IH]; intros idx; [reflexivity|].
  cbn [number_docs]. specialize (IH (idx + 1)%N).
  destruct (number_docs (idx + 1) rest) as [ds cs].
  cbn [fst map id List.length seq] in *. rewrite N.add_0_r. f_equal.
  rewrite IH, <- seq_shift, map_map. apply map_ext. intros k. f_equal. lia.
Qed.

Lemma number_docs_synthetic (retrieved : list Document) (idx : N) :
  Forall (fun doc => lacks doc (u "citation")) retrieved ->
  map citation (fst (number_docs idx retrieved))
  = map (fun k => u "synthetic-" ++ str_of_N (idx + N.of_nat k))
      (seq 0 (List.length retrieved)).
Proof.
  revert idx. induction retrieved as [|doc rest IH]; intros idx Hall; [reflexivity|].
  inversion Hall as [|? ? Hdoc Hrest]; subst.
  cbn [number_docs]. specialize (IH (idx + 1)%N Hrest).
  destruct (number_docs (idx + 1) rest) as [ds cs].
  cbn [fst map citation List.length seq] in *. rewrite N.add_0_r.
  rewrite (lacks_default _ _ _ Hdoc). cbn [py_str]. f_equal.
  rewrite IH, <- seq_shift, map_map. apply map_ext. intros k. do 2 f_equal. lia.
Qed.

Lemma NoDup_map_seq {A : Type} (f : nat -> A) (n : nat) :
  (forall i j, f i = f j -> i = j) -> NoDup (map f (seq 0 n)).
Proof.
  intros Hinj. generalize (seq_NoDup n 0). generalize (seq 0 n) as l.
  induction l as [|i l IH]; intros Hl; [constructor|].
  inversion Hl as [|? ? Hi Hl']; subst. cbn [map]. constructor; [|now apply IH].
  intros H. apply in_map_iff in H as (j & Hj & Hin). apply Hinj in Hj. now subst.
Qed.

(** X9: the ids of the snippets are pairwise distinct. *)
Theorem snippet_ids_distinct (retrieved : list Document) :
  NoDup (map id (fst (number_docs 0 retrieved))).
Proof.
  rewrite number_docs_ids. apply NoDup_map_seq. intros i j H.
  apply str_of_N_inj in H. lia.
Qed.

(** X10: documents whose metadata hold no citation get pairwise distinct
    citations, [synthetic-0], [synthetic-1] and so on by position. *)
Theorem synthetic_citations_distinct (retrieved : list Document) :
  Forall (fun doc => lacks doc (u "citation")) retrieved ->
  NoDup (map citation (fst (number_docs 0 retrieved)))
  /\ map citation (fst (number_docs 0 retrieved))
     = map (fun k => u "synthetic-" ++ str_of_N (N.of_nat k))
         (seq 0 (List.length retrieved)).
Proof.
  intros Hall. rewrite (number_docs_synthetic retrieved 0 Hall). split; [|reflexivity].
  apply NoDup_map_seq. intros i j H. apply app_inv_head in H.
  apply str_of_N_inj in H. lia.
Qed.

Lemma synthetic_citations_distinct_witness :
  let retrieved :=
    [{| metadata := None; page_content := u "Own funds." |};
     {| metadata := Some [(u "source", VStr (u "PRA Rulebook"))];
        page_content := u "Own funds." |}] in
  NoDup (map citation (fst (number_docs 0 retrieved)))
  /\ map citation (fst (number_docs 0 retrieved)) = [u "synthetic-0"; u "synthetic-1"].
Proof.
  apply (synthetic_citations_distinct
           [{| metadata := None; page_content := u "Own funds." |};
            {| metadata := Some [(u "source", VStr (u "PRA Rulebook"))];
               page_content := u "Own funds." |}]).
  repeat constructor.
Defined.

(** ** The pipeline as a whole *)


Section PipelineProperties.

Variable retriever_invoke : str -> Z -> list Document.
Variable chain_invoke : str -> str -> result str.

(** The pipeline, step by step, on the snippets and the context of the
    retrieved documents. *)
Lemma generate_steps (scenario : str) (top_k : Z) :
  generate_corep_assessment retriever_invoke chain_invoke scenario top_k
  = let retrieved := retriever_invoke scenario top_k in
    bind (bind (chain_invoke scenario (context_of retrieved)) _parse_json)
      (fun raw_model_output =>
         bind (match raw_model_output with
               | VDict initial => validate_corep_result initial
               | _ => Raise AttributeError
               end)
           (fun corep_result =>
              Ok (merge_citations (fst (number_docs 0 retrieved)) corep_result,
                  fst (number_docs 0 retrieved), raw_model_output))).
Proof.
  unfold generate_corep_assessment, _call_llm, context_of. cbv zeta.
  now destruct (number_docs 0 (retriever_invoke scenario top_k)).
Qed.

(** What the pipeline returns as the raw output is a JSON object. *)
Lemma assessment_returns_object (scenario : str) (top_k : Z)
    (res : CorepResult) (docs : list RetrievedDoc) (raw : value) :
  generate_corep_assessment retriever_invoke chain_invoke scenario top_k
  = Ok (res, docs, raw) ->
  exists initial, raw = VDict initial.
Proof.
  rewrite generate_steps. cbv zeta.
  destruct (chain_invoke scenario (context_of (retriever_invoke scenario top_k)))
    as [content|e]; cbn [bind]; [|discriminate].
  destruct (_parse_json content) as [v|e]; cbn [bind]; [|discriminate].
  destruct v as [| | | | | |initial]; try discriminate.
  destruct (validate_corep_result initial) as [validated|e]; cbn [bind]; [|discriminate].
  intros [= <- <- <-]. now exists initial.
Qed.

(** X11: when the pipeline returns, the raw output is the JSON object the
    completion of the chat model parsed to, the snippets are the numbered
    documents and the result is the validated raw output with the citations
    merged in: the rules of the model stay in front, what is added are
    citations of snippets, and the citation of every snippet is among the
    rules of the result. *)
Theorem assessment_cites_every_snippet (scenario : str) (top_k : Z)
    (res : CorepResult) (docs : list RetrievedDoc) (raw : value) :
  generate_corep_assessment retriever_invoke chain_invoke scenario top_k
  = Ok (res, docs, raw) ->
  docs = fst (number_docs 0 (retriever_invoke scenario top_k))
  /\ (exists content initial validated,
        chain_invoke scenario (context_of (retriever_invoke scenario top_k)) = Ok content
        /\ _parse_json content = Ok raw
        /\ raw = VDict initial
        /\ validate_corep_result initial = Ok validated
        /\ res = merge_citations docs validated
        /\ exists added,
             rules_used res = rules_used validated ++ added
             /\ incl added (map citation docs))
  /\ (forall d, In d docs -> In (citation d) (rules_used res)).
Proof.
  rewrite generate_steps. cbv zeta.
  destruct (chain_invoke scenario (context_of (retriever_invoke scenario top_k)))
    as [content|e] eqn:Hchain; cbn [bind]; [|discriminate].
  destruct (_parse_json content) as [v|e] eqn:Hparse; cbn [bind]; [|discriminate].
  destruct v as [| | | | | |initial]; try discriminate.
  destruct (validate_corep_result initial) as [validated|e] eqn:Hval; cbn [bind];
    [|discriminate].
  intros [= <- <- <-]. split; [reflexivity|]. split.
  - exists content, initial, validated.
    split; [reflexivity|]. split; [assumption|]. split; [reflexivity|].
    split; [assumption|]. split; [reflexivity|].
    exists (unseen (rules_used validated)
              (sorted_set (map citation
                             (fst (number_docs 0 (retriever_invoke scenario top_k)))))).
    split; [apply merge_citations_rules_used|].
    intros c Hc. apply unseen_incl in Hc. exact (proj1 (In_sorted_set _ _) Hc).
  - intros d Hd. rewrite merge_citations_rules_used. apply In_app_unseen.
    apply In_sorted_set. now apply in_map.
Qed.


End PipelineProperties.

Lemma assessment_cites_every_snippet_witness :
  let retrieved :=
    [{| metadata := Some [(u "source", VStr (u "PRA Rulebook")); (u "citation", VStr (u "B"))];
        page_content := u "Own funds." |};
     {| metadata := None; page_content := u "Capital." |}] in
  let completion :=
    u "Here it is: {" ++ quoted "CET1" ++ u ": 300, " ++ quoted "rules_used"
      ++ u ": [" ++ quoted "Z" ++ u "]} Done." in
  exists res docs raw,
    generate_corep_assessment (fun _ _ => retrieved) (fun _ _ => Ok completion)
      (u "A bank with CET1 of 300.") 4
    = Ok (res, docs, raw)
    /\ rules_used res = [u "Z"; u "B"; u "synthetic-1"]
    /\ (forall d, In d docs -> In (citation d) (rules_used res)).
Proof.
  do 3 eexists. split; [vm_compute; reflexivity|]. split; [reflexivity|].
  eapply (assessment_cites_every_snippet
            (fun _ _ =>
               [{| metadata := Some [(u "source", VStr (u "PRA Rulebook"));
                                     (u "citation", VStr (u "B"))];
                   page_content := u "Own funds." |};
                {| metadata := None; page_content := u "Capital." |}])
            (fun _ _ =>
               Ok (u "Here it is: {" ++ quoted "CET1" ++ u ": 300, " ++ quoted "rules_used"
                     ++ u ": [" ++ quoted "Z" ++ u "]} Done."))
            (u "A bank with CET1 of 300.") 4).
  vm_compute; reflexivity.
Defined.


(** ** The merge does not depend on the order of the snippets *)

Lemma sorted_unique (l1 l2 : list str) :
  StronglySorted str_lt l1 -> StronglySorted str_lt l2 ->
  (forall x, In x l1 <-> In x l2) -> l1 = l2.
Proof.
  revert l2. induction l1 as [|a l1 IH]; intros [|b l2] H1 H2 Hin.
  - reflexivity.
  - destruct (proj2 (Hin b)). now left.
  - destruct (proj1 (Hin a)). now left.
  - apply StronglySorted_inv in H1 as [H1 Ha]. apply StronglySorted_inv in H2 as [H2 Hb].
    rewrite Forall_forall in Ha, Hb.
    assert (Hab : a = b).
    { destruct (proj1 (Hin a) (or_introl eq_refl)) as [E | Hal2]; [now symmetry|].
      destruct (proj2 (Hin b) (or_introl eq_refl)) as [E | Hbl1]; [assumption|].
      destruct (str_lt_irrefl a). eapply str_lt_trans; [apply Ha, Hbl1 | apply Hb, Hal2]. }
    subst b. f_equal. apply IH; try assumption.
    intros x. split; intros Hx.
    + destruct (proj1 (Hin x) (or_intror Hx)) as [E | H]; [|assumption].
      subst x. destruct (str_lt_irrefl a). now apply Ha.
    + destruct (proj2 (Hin x) (or_intror Hx)) as [E | H]; [|assumption].
      subst x. destruct (str_lt_irrefl a). now apply Hb.
Qed.

(** [sorted(set(l))] depends on the strings of [l] only, not on their order
    or number. *)
Lemma sorted_set_ext (l1 l2 : list str) :
  (forall x, In x l1 <-> In x l2) -> sorted_set l1 = sorted_set l2.
Proof.
  intros H. apply sorted_unique; try apply sorted_set_sorted.
  intros x. now rewrite !In_sorted_set.
Qed.

(** X13: the merge of the citations depends on which citations the snippets
    carry, not on the order of the snippets or on how many snippets share a
    citation. *)
Theorem merge_citations_order_free (docs1 docs2 : list RetrievedDoc) (res : CorepResult) :
  (forall c, In c (map citation docs1) <-> In c (map citation docs2)) ->
  merge_citations docs1 res = merge_citations docs2 res.
Proof.
  intros H. unfold merge_citations. now rewrite (sorted_set_ext _ _ H).
Qed.

Lemma merge_citations_order_free_witness :
  let snippet c := {| id := u "0"; source := u "unknown"; citation := c; text := u "t" |} in
  let res :=
    {| template_name := u "T"; CET1 := None; AT1 := None; Tier2 := None; RWA := None;
       CET1_ratio := None; missing_fields := []; validation_warnings := [];
       rules_used := [u "Z"]; explanation := u "e" |} in
  merge_citations [snippet (u "B"); snippet (u "A"); snippet (u "B")] res
  = merge_citations [snippet (u "A"); snippet (u "B")] res
  /\ rules_used (merge_citations [snippet (u "B"); snippet (u "A"); snippet (u "B")] res)
     = [u "Z"; u "A"; u "B"].
Proof.
  split; [|vm_compute; reflexivity].
  apply merge_citations_order_free. intros c. simpl. tauto.
Defined.

(* ===================================================================== *)
(** * Properties of the configuration *)
(* ===================================================================== *)

(** ** Stripping *)

Lemma lstrip_head (s : str) :
  lstrip s = [] \/ exists c t, lstrip s = c :: t /\ isspace c = false.
Proof.
  induction s as [|c s IH]; [now left|]. cbn [lstrip].
  destruct (isspace c) eqn:E; [exact IH|]. right. now exists c, s.
Qed.

Lemma lstrip_idem (s : str) : lstrip (lstrip s) = lstrip s.
Proof.
  destruct (lstrip_head s) as [-> | (c & t & -> & Hc)]; [reflexivity|].
  cbn [lstrip]. now rewrite Hc.
Qed.

Lemma lstrip_snoc (l : str) (c : N) :
  isspace c = false -> exists l', lstrip (l ++ [c]) = l' ++ [c].
Proof.
  intros Hc. induction l as [|x l IH].
  - exists []. cbn [app lstrip]. now rewrite Hc.
  - cbn [app lstrip]. destruct (isspace x); [exact IH|]. now exists (x :: l).
Qed.

Lemma rstrip_idem (s : str) : rstrip (rstrip s) = rstrip s.
Proof. unfold rstrip. now rewrite rev_involutive, lstrip_idem. Qed.

(** Stripping on the right keeps a first code point that is not space. *)
Lemma rstrip_keeps_head (c : N) (t : str) :
  isspace c = false -> exists t', rstrip (c :: t) = c :: t'.
Proof.
  intros Hc. unfold rstrip. cbn [rev].
  destruct (lstrip_snoc (rev t) c Hc) as (l' & ->).
  exists (rev l'). now rewrite rev_app_distr.
Qed.

(** The stripped string is empty or begins with a code point that is not
    space; stripping it again changes nothing. *)
Lemma strip_idem (s : str) : strip (strip s) = strip s.
Proof.
  unfold strip at 1. 
  assert (H : lstrip (strip s) = strip s).
  { unfold strip. destruct (lstrip_head s) as [-> | (c & t & -> & Hc)]; [reflexivity|].
    destruct (rstrip_keeps_head c t Hc) as (t' & ->). cbn [lstrip]. now rewrite Hc. }
  rewrite H. unfold strip. apply rstrip_idem.
Qed.

Lemma key_or_none_blank (env : environ) (key : str) :
  blank env key -> key_or_none env key = None.
Proof. unfold blank, key_or_none. now intros ->. Qed.

Lemma key_or_none_set (env : environ) (key : str) :
  ~ blank env key ->
  key_or_none env key = Some (strip (getenv env key (u "")))
  /\ is_set (key_or_none env key) = true.
Proof.
  unfold blank, key_or_none. destruct (strip (getenv env key (u ""))); [now intros []|].
  now split.
Qed.

Lemma blank_dec (env : environ) (key : str) : blank env key \/ ~ blank env key.
Proof. unfold blank. destruct (strip (getenv env key (u ""))); [now left | now right]. Qed.

(** ** The provider *)

(** With a key set the settings are built. *)
Lemma settings_built (env : environ) :
  (~ blank env (u "GROQ_API_KEY") -> exists settings, Settings_init env = Ok settings)
  /\ (blank env (u "GROQ_API_KEY") -> ~ blank env (u "OPENAI_API_KEY") ->
      exists settings, Settings_init env = Ok settings).
Proof.
  split.
  - intros Hg. apply key_or_none_set in Hg as [_ Hg]. unfold Settings_init.
    rewrite Hg. now eexists.
  - intros Hg Ho. apply key_or_none_blank in Hg. apply key_or_none_set in Ho as [_ Ho].
    unfold Settings_init. rewrite Hg, Ho. cbn [is_set]. now eexists.
Qed.

(** X14: the Groq key takes precedence: when it is set to more than white
    space the provider is [groq] with the model of [GROQ_MODEL] or its
    default, whether or not an OpenAI key is set; otherwise an OpenAI key
    makes the provider [openai] with the model of [OPENAI_MODEL] or its
    default.  The model attribute of the other provider is left unset. *)
Theorem groq_takes_precedence (env : environ) :
  (~ blank env (u "GROQ_API_KEY") ->
   exists settings,
     Settings_init env = Ok settings
     /\ llm_provider settings = u "groq"
     /\ groq_model settings = Some (getenv env (u "GROQ_MODEL") (u "llama-3.3-70b-versatile"))
     /\ openai_model settings = None)
  /\ (blank env (u "GROQ_API_KEY") -> ~ blank env (u "OPENAI_API_KEY") ->
      exists settings,
        Settings_init env = Ok settings
        /\ llm_provider settings = u "openai"
        /\ openai_model settings = Some (getenv env (u "OPENAI_MODEL") (u "gpt-4o-mini"))
        /\ groq_model settings = None).
Proof.
  split.
  - intros Hg. apply key_or_none_set in Hg as [_ Hg]. unfold Settings_init.
    rewrite Hg. eexists. split; [reflexivity|]. now repeat split.
  - intros Hg Ho. apply key_or_none_blank in Hg. apply key_or_none_set in Ho as [_ Ho].
    unfold Settings_init. rewrite Hg, Ho. cbn [is_set].
    eexists. split; [reflexivity|]. now repeat split.
Qed.

(** Building the settings fails only with [RuntimeError], and only when
    both keys are blank. *)
Lemma settings_raise (env : environ) (e : exn) :
  Settings_init env = Raise e ->
  e = RuntimeError /\ blank env (u "GROQ_API_KEY") /\ blank env (u "OPENAI_API_KEY").
Proof.
  intros H.
  destruct (blank_dec env (u "GROQ_API_KEY")) as [Hg | Hg].
  - destruct (blank_dec env (u "OPENAI_API_KEY")) as [Ho | Ho].
    + unfold Settings_init in H.
      rewrite (key_or_none_blank _ _ Hg), (key_or_none_blank _ _ Ho) in H.
      cbn [is_set] in H. injection H as <-. now repeat split.
    + destruct (proj2 (settings_built env) Hg Ho) as (s & Hs). congruence.
  - destruct (proj1 (settings_built env) Hg) as (s & Hs). congruence.
Qed.

(** X15: building the settings fails exactly when both keys are unset,
    empty or white space; it then raises [RuntimeError], and it raises
    nothing else. *)
Theorem settings_need_a_key (env : environ) :
  (Settings_init env = Raise RuntimeError
   <-> blank env (u "GROQ_API_KEY") /\ blank env (u "OPENAI_API_KEY"))
  /\ (forall e, Settings_init env = Raise e -> e = RuntimeError).
Proof.
  split; [split|].
  - intros H. now apply settings_raise in H.
  - intros [Hg Ho]. unfold Settings_init.
    now rewrite (key_or_none_blank _ _ Hg), (key_or_none_blank _ _ Ho).
  - intros e H. now apply settings_raise in H.
Qed.

(** The object built: its keys are those of the environment, stripped; its
    provider is one of the two, and the model of that provider is set. *)
Lemma settings_shape (env : environ) (settings : Settings) :
  Settings_init env = Ok settings ->
  openai_api_key settings = key_or_none env (u "OPENAI_API_KEY")
  /\ groq_api_key settings = key_or_none env (u "GROQ_API_KEY")
  /\ ((llm_provider settings = u "groq" /\ exists m, groq_model settings = Some m)
      \/ (llm_provider settings = u "openai" /\ exists m, openai_model settings = Some m)).
Proof.
  unfold Settings_init.
  destruct (is_set (key_or_none env (u "GROQ_API_KEY"))).
  - intros [= <-]. cbn. split; [reflexivity|]. split; [reflexivity|]. left. split; eauto.
  - destruct (is_set (key_or_none env (u "OPENAI_API_KEY"))); [|discriminate].
    intros [= <-]. cbn. split; [reflexivity|]. split; [reflexivity|]. right. split; eauto.
Qed.

(** X16: a key stored in the settings is never empty and carries no white
    space around it: stripping it again gives the same key. *)
Theorem stored_keys_stripped (env : environ) (settings : Settings) (k : str) :
  Settings_init env = Ok settings ->
  openai_api_key settings = Some k \/ groq_api_key settings = Some k ->
  k <> [] /\ strip k = k.
Proof.
  intros Hs Hk. apply settings_shape in Hs as (Ho & Hg & _).
  assert (H : exists key, key_or_none env key = Some k).
  { destruct Hk as [Hk | Hk]; eexists; [rewrite <- Ho | rewrite <- Hg]; exact Hk. }
  destruct H as (key & H). unfold key_or_none in H.
  destruct (strip (getenv env key (u ""))) as [|c t] eqn:E; [discriminate|].
  injection H as <-. split; [discriminate|]. rewrite <- E. apply strip_idem.
Qed.

Lemma stored_keys_stripped_witness :
  let env := fun key => if str_eqb key (u "GROQ_API_KEY") then Some (u "  gsk_1 ") else None in
  exists settings,
    Settings_init env = Ok settings
    /\ groq_api_key settings = Some (u "gsk_1")
    /\ u "gsk_1" <> [] /\ strip (u "gsk_1") = u "gsk_1".
Proof.
  eexists. split; [vm_compute; reflexivity|]. split; [reflexivity|].
  eapply (stored_keys_stripped
            (fun key => if str_eqb key (u "GROQ_API_KEY") then Some (u "  gsk_1 ") else None));
    [vm_compute; reflexivity | right; reflexivity].
Defined.

(** ** The cache *)

Lemma get_settings_calls_cached (envs : list environ) (settings : Settings) :
  get_settings_calls envs (Some settings) = map (fun _ => Ok settings) envs.
Proof. induction envs as [|env rest IH]; [reflexivity|]. cbn. now rewrite IH. Qed.

Lemma get_settings_calls_empty (env : environ) (rest : list environ) :
  get_settings_calls (env :: rest) None
  = match Settings_init env with
    | Ok settings => Ok settings :: map (fun _ => Ok settings) rest
    | Raise e => Raise e :: get_settings_calls rest None
    end.
Proof.
  cbn [get_settings_calls get_settings].
  destruct (Settings_init env); [now rewrite get_settings_calls_cached | reflexivity].
Qed.

Lemma nth_error_map_const {A B : Type} (b c : B) (l : list A) (j : nat) :
  nth_error (map (fun _ => b) l) j = Some c -> c = b.
Proof.
  revert j. induction l as [|a l IH]; intros [|j]; cbn; try discriminate.
  - now intros [= <-].
  - apply IH.
Qed.

(** X17: [get_settings] builds the settings once: from the first call that
    returns, every later call returns the same object, whatever the
    environment has become; a call that fails raises [RuntimeError], caches
    nothing, and was made in an environment where both keys are blank. *)
Theorem settings_built_once (envs : list environ) (i : nat) :
  (forall j settings answer,
     (i <= j)%nat ->
     nth_error (get_settings_calls envs None) i = Some (Ok settings) ->
     nth_error (get_settings_calls envs None) j = Some answer ->
     answer = Ok settings)
  /\ (forall e,
        nth_error (get_settings_calls envs None) i = Some (Raise e) ->
        e = RuntimeError
        /\ exists env, nth_error envs i = Some env /\ Settings_init env = Raise RuntimeError).
Proof.
  revert i. induction envs as [|env rest IH]; intros i.
  - split; intros; now destruct i.
  - rewrite get_settings_calls_empty. destruct (Settings_init env) as [s|e0] eqn:E.
    + split.
      * intros j settings answer Hij Hi Hj.
        assert (Es : settings = s).
        { destruct i as [|i]; cbn [nth_error] in Hi; [now injection Hi|].
          apply nth_error_map_const in Hi. now injection Hi. }
        subst s. destruct j as [|j]; cbn [nth_error] in Hj; [now injection Hj|].
        now apply nth_error_map_const in Hj.
      * intros e Hi. destruct i as [|i]; cbn [nth_error] in Hi; [discriminate|].
        apply nth_error_map_const in Hi. discriminate.
    + pose proof (proj1 (settings_raise env e0 E)) as ->.
      destruct i as [|i].
      * split; [intros j settings answer _ Hi; discriminate|].
        intros e [= <-]. split; [reflexivity|]. now exists env.
      * destruct (IH i) as [IH1 IH2]. split.
        -- intros j settings answer Hij Hi Hj. destruct j as [|j]; [lia|].
           cbn [nth_error] in Hi, Hj. apply (IH1 j settings answer); [lia | assumption ..].
        -- intros e Hi. cbn [nth_error] in Hi |- *. now apply IH2.
Qed.

(* ===================================================================== *)
(** * Properties of the endpoints *)
(* ===================================================================== *)

(** X18: with a cache that is empty or holds settings that were built,
    [health] never reads a model attribute that is not set: it answers with
    the status, the provider, which is [groq] or [openai], and a model; or,
    the cache being empty and both keys blank, it raises [RuntimeError]. *)
Theorem health_reads_the_model_in_use (env : environ) (cache : option Settings) :
  cache_valid cache ->
  (forall e,
     fst (health env cache) = Raise e ->
     e = RuntimeError /\ cache = None
     /\ blank env (u "GROQ_API_KEY") /\ blank env (u "OPENAI_API_KEY"))
  /\ (forall body,
        fst (health env cache) = Ok body ->
        exists provider model,
          body = [(u "status", u "ok"); (u "provider", provider); (u "model", model)]
          /\ (provider = u "groq" \/ provider = u "openai")).
Proof.
  intros Hcache.
  assert (Hbuilt : forall settings,
            (exists env0, Settings_init env0 = Ok settings) ->
            exists provider model,
              (provider = u "groq" \/ provider = u "openai")
              /\ bind (if str_eqb (llm_provider settings) (u "groq")
                       then getattr (groq_model settings)
                       else getattr (openai_model settings))
                   (fun model_name =>
                      Ok [(u "status", u "ok");
                          (u "provider", llm_provider settings);
                          (u "model", model_name)])
                 = Ok [(u "status", u "ok"); (u "provider", provider); (u "model", model)]).
  { intros settings (env0 & H0). apply settings_shape in H0 as (_ & _ & Hshape).
    destruct Hshape as [(Hp & m & Hm) | (Hp & m & Hm)]; rewrite Hp, Hm.
    - exists (u "groq"), m. split; [now left | reflexivity].
    - exists (u "openai"), m. split; [now right | reflexivity]. }
  unfold health, get_settings. destruct cache as [settings|]; cbn [cache_valid] in Hcache.
  - cbn [fst bind]. destruct (Hbuilt settings Hcache) as (provider & model & Hp & ->).
    split; [discriminate|]. intros body [= <-]. now exists provider, model.
  - destruct (Settings_init env) as [settings|e0] eqn:E; cbn [fst bind].
    + destruct (Hbuilt settings (ex_intro _ env E)) as (provider & model & Hp & ->).
      split; [discriminate|]. intros body [= <-]. now exists provider, model.
    + split; [|discriminate]. intros e [= <-].
      destruct (settings_raise env e0 E) as (-> & Hblank).
      split; [reflexivity|]. split; [reflexivity|]. exact Hblank.
Qed.

Lemma health_reads_the_model_in_use_witness :
  let env := fun key => if str_eqb key (u "OPENAI_API_KEY") then Some (u "sk-1") else None in
  fst (health env None)
  = Ok [(u "status", u "ok"); (u "provider", u "openai"); (u "model", u "gpt-4o-mini")]
  /\ (forall body,
        fst (health env None) = Ok body ->
        exists provider model,
          body = [(u "status", u "ok"); (u "provider", provider); (u "model", model)]
          /\ (provider = u "groq" \/ provider = u "openai")).
Proof.
  split; [vm_compute; reflexivity|].
  apply (health_reads_the_model_in_use
           (fun key => if str_eqb key (u "OPENAI_API_KEY") then Some (u "sk-1") else None)
           None).
  exact I.
Defined.

Section EndpointProperties.

Variable retriever_invoke : str -> Z -> list Document.
Variable chain_invoke : str -> str -> result str.
Variable exception_message : exn -> str.

(** X19: the endpoint answers with a body exactly when the pipeline
    returns, and with status 500 exactly when the pipeline raises, the
    detail carrying the message of the exception.  The body echoes the
    scenario of the request and holds the snippets, the result and the raw
    object of the pipeline run with four documents to retrieve. *)
Theorem analyze_scenario_answers (payload : ScenarioRequest) :
  let run :=
    generate_corep_assessment retriever_invoke chain_invoke (payload_scenario payload) 4 in
  (forall response,
     analyze_scenario retriever_invoke chain_invoke exception_message payload
     = Body response ->
     scenario response = payload_scenario payload
     /\ exists raw,
          raw_model_output response = Some raw
          /\ run = Ok (corep_result response, retrieved_context response, VDict raw))
  /\ (forall status_code detail,
        analyze_scenario retriever_invoke chain_invoke exception_message payload
        = HTTPException status_code detail ->
        status_code = 500%Z
        /\ exists e,
             run = Raise e
             /\ detail = u "Internal server error: " ++ exception_message e
                           ++ u ". Check server logs for details.")
  /\ (forall e,
        run = Raise e ->
        analyze_scenario retriever_invoke chain_invoke exception_message payload
        = HTTPException 500%Z
            (u "Internal server error: " ++ exception_message e
               ++ u ". Check server logs for details."))
  /\ (forall res docs raw,
        run = Ok (res, docs, raw) ->
        exists response,
          analyze_scenario retriever_invoke chain_invoke exception_message payload
          = Body response).
Proof.
  cbv zeta. unfold analyze_scenario.
  destruct (generate_corep_assessment retriever_invoke chain_invoke
              (payload_scenario payload) 4) as [[[res docs] raw]|e] eqn:Hrun.
  - assert (Hraw : exists initial, raw = VDict initial).
    { apply assessment_returns_object in Hrun. exact Hrun. }
    destruct Hraw as (initial & ->). split; [|split; [|split]].
    + intros response [= <-]. cbn. split; [reflexivity|]. now exists initial.
    + discriminate.
    + discriminate.
    + intros res' docs' raw' _. now eexists.
  - split; [|split; [|split]].
    + discriminate.
    + intros status_code detail [= <- <-]. split; [reflexivity|]. now exists e.
    + now intros e' [= <-].
    + discriminate.
Qed.

End EndpointProperties.

(* ===================================================================== *)
(** * Properties of the user interface *)
(* ===================================================================== *)

(** ** The address of the backend *)

Lemma drop_while_in_one (c : N) (s : str) :
  exists k,
    s = repeat c k ++ drop_while_in [c] s
    /\ forall t, drop_while_in [c] s <> c :: t.
Proof.
  induction s as [|x s (k & Hs & Hhead)].
  - exists 0%nat. split; [reflexivity | discriminate].
  - cbn [drop_while_in existsb]. rewrite orb_false_r.
    destruct (x =? c)%N eqn:E.
    + apply N.eqb_eq in E as ->. exists (S k). split; [|exact Hhead].
      cbn [repeat app]. now rewrite <- Hs.
    + exists 0%nat. split; [reflexivity|]. intros t [= -> _].
      now rewrite N.eqb_refl in E.
Qed.

Lemma rstrip_chars_one (c : N) (s : str) :
  (exists k, s = rstrip_chars s [c] ++ repeat c k)
  /\ forall pre, rstrip_chars s [c] <> pre ++ [c].
Proof.
  unfold rstrip_chars. destruct (drop_while_in_one c (rev s)) as (k & Hs & Hhead). split.
  - exists k. apply (f_equal (@rev N)) in Hs.
    now rewrite rev_involutive, rev_app_distr, rev_repeat in Hs.
  - intros pre H. apply (f_equal (@rev N)) in H.
    rewrite rev_involutive, rev_app_distr in H. now apply Hhead in H.
Qed.

(** X20: the base address is the configured host, or the local default,
    without its trailing slashes, all of them and nothing else; so the
    address posted to never has two slashes before the path. *)
Theorem base_url_has_no_trailing_slash (env : environ) :
  let host := getenv env (u "COREP_BACKEND_HOST") (u "http://localhost:8000") in
  (exists k, host = get_backend_base_url env ++ repeat (char "/") k)
  /\ (forall pre, get_backend_base_url env <> pre ++ [char "/"])
  /\ (forall pre, analyze_url env <> pre ++ u "//api/analyze_scenario")
  /\ (env (u "COREP_BACKEND_HOST") = None ->
      get_backend_base_url env = u "http://localhost:8000").
Proof.
  cbv zeta. unfold get_backend_base_url. change (u "/") with [char "/"].
  destruct (rstrip_chars_one (char "/")
              (getenv env (u "COREP_BACKEND_HOST") (u "http://localhost:8000")))
    as [Hk Hend].
  split; [exact Hk|]. split; [exact Hend|]. split.
  - intros pre H. unfold analyze_url, get_backend_base_url in H.
    change (u "/") with [char "/"] in H.
    change (u "//api/analyze_scenario") with ([char "/"] ++ u "/api/analyze_scenario") in H.
    rewrite app_assoc in H. apply app_inv_tail in H. now apply Hend in H.
  - intros Hnone. unfold getenv. rewrite Hnone. reflexivity.
Qed.

(** ** The warnings on the page *)

Lemma truthy_py_or_list (v : value) : truthy (py_or v (VList [])) = truthy v.
Proof. unfold py_or. now destruct (truthy v) eqn:E. Qed.

Lemma py_or_truthy (v : value) : truthy v = true -> py_or v (VList []) = v.
Proof. unfold py_or. now intros ->. Qed.

(** X21: the page shows the message of success, and nothing else, exactly
    when the warnings and the missing fields of the result both count as
    false: absent, [None], empty; in every other case no message of success
    is shown. *)
Theorem success_shown_iff_nothing_to_report (corep_result : dict) :
  let warnings := dict_get corep_result (u "validation_warnings") in
  let missing := dict_get corep_result (u "missing_fields") in
  (truthy warnings = false /\ truthy missing = false ->
   render_validation_warnings corep_result
   = ([success (u "No validation warnings. All key numeric fields appear present.")], true))
  /\ (truthy warnings = true \/ truthy missing = true ->
      forall body, ~ In (success body) (fst (render_validation_warnings corep_result))).
Proof.
  cbv zeta. unfold render_validation_warnings. rewrite !truthy_py_or_list. split.
  - intros [-> ->]. reflexivity.
  - intros Hsome body.
    assert (E : negb (truthy (dict_get corep_result (u "validation_warnings")))
                && negb (truthy (dict_get corep_result (u "missing_fields"))) = false).
    { destruct Hsome as [-> | ->]; [reflexivity | apply andb_false_r]. }
    rewrite E.
    assert (Hb : forall items : list value,
              ~ In (success body) (map (fun w => markdown (u "- " ++ py_str w)) items)).
    { intros items H. apply in_map_iff in H as (w & Hw & _). discriminate. }
    destruct (truthy (dict_get corep_result (u "validation_warnings"))).
    + unfold warning_bullets.
      destruct (py_iter _) as [items|]; cbn [andb].
      * destruct (truthy (dict_get corep_result (u "missing_fields"))); cbn [fst].
        -- unfold missing_line. destruct (py_iter _); cbn [fst]; intros H;
             apply in_app_iff in H as [[H | H] | [H | H]]; try discriminate;
             try (now apply Hb in H).
           ++ destruct H as [H | []]. discriminate.
           ++ destruct H.
        -- intros [H | H]; [discriminate | now apply Hb in H].
      * cbn [fst]. intros [H | []]. discriminate.
    + cbn [andb]. destruct (truthy (dict_get corep_result (u "missing_fields"))); cbn [fst].
      * unfold missing_line. destruct (py_iter _); cbn [fst app]; intros H.
        -- destruct H as [H | [H | []]]; discriminate.
        -- destruct H as [H | []]; discriminate.
      * intros [].
Qed.

(** X22: the line of the missing fields shows each name once, in sorted
    order: two results whose lists of missing fields hold the same names,
    in whatever order and however often, and whose warnings are the same,
    are rendered alike. *)
Theorem missing_fields_shown_as_set (d1 d2 : dict) (l1 l2 : list value) :
  dict_get d1 (u "validation_warnings") = dict_get d2 (u "validation_warnings") ->
  dict_get d1 (u "missing_fields") = VList l1 ->
  dict_get d2 (u "missing_fields") = VList l2 ->
  (forall x, In x (map py_str l1) <-> In x (map py_str l2)) ->
  render_validation_warnings d1 = render_validation_warnings d2.
Proof.
  intros Hw H1 H2 Hsame. unfold render_validation_warnings. rewrite Hw, H1, H2.
  assert (Hline : forall l, missing_line (py_or (VList l) (VList []))
                            = Some [markdown (join (u ", ") (sorted_set (map py_str l)))]).
  { intros [|x l]; reflexivity. }
  assert (Htruthy : truthy (py_or (VList l1) (VList [])) = truthy (py_or (VList l2) (VList []))).
  { rewrite !truthy_py_or_list. destruct l1 as [|x l1], l2 as [|y l2]; try reflexivity.
    - destruct (proj2 (Hsame (py_str y))). now left.
    - destruct (proj1 (Hsame (py_str x))). now left. }
  rewrite Htruthy, !Hline, (sorted_set_ext _ _ Hsame). reflexivity.
Qed.

Lemma missing_fields_shown_as_set_witness :
  let d1 := [(u "missing_fields", VList [VStr (u "RWA"); VStr (u "AT1"); VStr (u "RWA")])] in
  let d2 := [(u "missing_fields", VList [VStr (u "AT1"); VStr (u "RWA")])] in
  render_validation_warnings d1 = render_validation_warnings d2
  /\ render_validation_warnings d1
     = ([info (u "Missing or uncertain numeric fields identified:");
         markdown (u "AT1, RWA")], true).
Proof.
  split; [|vm_compute; reflexivity].
  eapply (missing_fields_shown_as_set
            [(u "missing_fields", VList [VStr (u "RWA"); VStr (u "AT1"); VStr (u "RWA")])]
            [(u "missing_fields", VList [VStr (u "AT1"); VStr (u "RWA")])]);
    [reflexivity | reflexivity | reflexivity |].
  intros x. simpl. tauto.
Defined.

(** X23: the rendering raises exactly when the warnings or the missing
    fields are an object that counts as true and cannot be gone through, a
    number or [True]; on lists, strings, objects and whatever counts as
    false it returns. *)
Theorem rendering_raises_iff_not_iterable (corep_result : dict) :
  snd (render_validation_warnings corep_result) = false
  <-> not_iterable (dict_get corep_result (u "validation_warnings"))
      \/ not_iterable (dict_get corep_result (u "missing_fields")).
Proof.
  unfold render_validation_warnings, not_iterable. rewrite !truthy_py_or_list.
  destruct (truthy (dict_get corep_result (u "validation_warnings"))) eqn:Ew;
    destruct (truthy (dict_get corep_result (u "missing_fields"))) eqn:Em;
    cbn [negb andb];
    rewrite ?(py_or_truthy _ Ew), ?(py_or_truthy _ Em);
    unfold warning_bullets, missing_line.
  - destruct (py_iter (dict_get corep_result (u "validation_warnings"))) as [ws|];
      cbn [andb].
    + destruct (py_iter (dict_get corep_result (u "missing_fields"))) as [ms|]; cbn [snd].
      * split; [discriminate|]. intros [[_ H] | [_ H]]; discriminate.
      * split; [|reflexivity]. intros _. right. now split.
    + cbn [snd]. split; [|reflexivity]. intros _. left. now split.
  - destruct (py_iter (dict_get corep_result (u "validation_warnings"))) as [ws|];
      cbn [andb snd].
    + split; [discriminate|]. intros [[_ H] | [H _]]; discriminate.
    + split; [|reflexivity]. intros _. left. now split.
  - destruct (py_iter (dict_get corep_result (u "missing_fields"))) as [ms|]; cbn [snd].
    + split; [discriminate|]. intros [[H _] | [_ H]]; discriminate.
    + split; [|reflexivity]. intros _. right. now split.
  - cbn [snd]. split; [discriminate|]. intros [[H _] | [H _]]; discriminate.
Qed.

(* ===================================================================== *)
(** * The settings at work in the pipeline *)
(* ===================================================================== *)

(** The settings built from an environment, field by field. *)
Lemma settings_built_from (env : environ) (settings : Settings) :
  Settings_init env = Ok settings ->
  (~ blank env (u "GROQ_API_KEY") ->
   llm_provider settings = u "groq"
   /\ groq_api_key settings = Some (strip (getenv env (u "GROQ_API_KEY") (u "")))
   /\ groq_model settings = Some (getenv env (u "GROQ_MODEL") (u "llama-3.3-70b-versatile")))
  /\ (blank env (u "GROQ_API_KEY") ->
      llm_provider settings = u "openai"
      /\ ~ blank env (u "OPENAI_API_KEY")
      /\ openai_model settings = Some (getenv env (u "OPENAI_MODEL") (u "gpt-4o-mini")))
  /\ (~ blank env (u "OPENAI_API_KEY") ->
      openai_api_key settings = Some (strip (getenv env (u "OPENAI_API_KEY") (u ""))))
  /\ (blank env (u "OPENAI_API_KEY") -> openai_api_key settings = None).
Proof.
  intros Hs. pose proof (settings_shape env settings Hs) as (Ho & Hg & _).
  assert (Hfields :
    (~ blank env (u "GROQ_API_KEY") ->
     llm_provider settings = u "groq"
     /\ groq_model settings
        = Some (getenv env (u "GROQ_MODEL") (u "llama-3.3-70b-versatile")))
    /\ (blank env (u "GROQ_API_KEY") ->
        llm_provider settings = u "openai"
        /\ ~ blank env (u "OPENAI_API_KEY")
        /\ openai_model settings = Some (getenv env (u "OPENAI_MODEL") (u "gpt-4o-mini")))).
  { unfold Settings_init in Hs. split.
    - intros Hgroq. rewrite (proj2 (key_or_none_set _ _ Hgroq)) in Hs.
      injection Hs as <-. now split.
    - intros Hgroq. rewrite (key_or_none_blank _ _ Hgroq) in Hs. cbn [is_set] in Hs.
      destruct (blank_dec env (u "OPENAI_API_KEY")) as [Hopen | Hopen].
      + rewrite (key_or_none_blank _ _ Hopen) in Hs. discriminate.
      + rewrite (proj2 (key_or_none_set _ _ Hopen)) in Hs. injection Hs as <-.
        now repeat split. }
  destruct Hfields as [Hf1 Hf2]. split; [|split; [|split]].
  - intros Hgroq. destruct (Hf1 Hgroq) as [Hp Hm]. split; [assumption|].
    split; [|assumption]. rewrite Hg. now apply key_or_none_set.
  - exact Hf2.
  - intros Hopen. rewrite Ho. now apply key_or_none_set.
  - intros Hopen. rewrite Ho. now apply key_or_none_blank.
Qed.

Lemma strip_set (env : environ) (key : str) :
  ~ blank env key ->
  exists c t, strip (getenv env key (u "")) = c :: t.
Proof.
  unfold blank. destruct (strip (getenv env key (u ""))) as [|c t]; [now intros []|].
  intros _. now exists c, t.
Qed.

(** X24: settings that were built always yield a chat model when the Groq
    client is importable or the provider is OpenAI: the key tests of
    [_call_llm] never fail and the model attribute read is always set.  The
    client gets the stripped key and the model of its provider.  The one
    failure left is a Groq key with [langchain_groq] missing, a
    [RuntimeError]. *)
Theorem built_settings_give_a_chat_model (env : environ) (settings : Settings)
    (ChatGroq_imported : bool) :
  Settings_init env = Ok settings ->
  (~ blank env (u "GROQ_API_KEY") ->
   chat_model_of ChatGroq_imported settings
   = if ChatGroq_imported
     then Ok (ChatGroq (getenv env (u "GROQ_MODEL") (u "llama-3.3-70b-versatile"))
                (strip (getenv env (u "GROQ_API_KEY") (u ""))))
     else Raise RuntimeError)
  /\ (blank env (u "GROQ_API_KEY") ->
      chat_model_of ChatGroq_imported settings
      = Ok (ChatOpenAI (getenv env (u "OPENAI_MODEL") (u "gpt-4o-mini"))
              (strip (getenv env (u "OPENAI_API_KEY") (u "")))))
  /\ (forall e,
        chat_model_of ChatGroq_imported settings = Raise e ->
        e = RuntimeError /\ ChatGroq_imported = false /\ ~ blank env (u "GROQ_API_KEY")).
Proof.
  intros Hs. pose proof (settings_built_from env settings Hs) as (Hg & Hng & Ho & Hno).
  assert (G : ~ blank env (u "GROQ_API_KEY") ->
              chat_model_of ChatGroq_imported settings
              = if ChatGroq_imported
                then Ok (ChatGroq (getenv env (u "GROQ_MODEL") (u "llama-3.3-70b-versatile"))
                           (strip (getenv env (u "GROQ_API_KEY") (u ""))))
                else Raise RuntimeError).
  { intros Hgroq. destruct (Hg Hgroq) as (Hp & Hk & Hm).
    unfold chat_model_of. rewrite Hp, Hk, Hm. cbn [str_eqb].
    change (str_eqb (u "groq") (u "groq")) with true. cbv iota.
    destruct ChatGroq_imported; [|reflexivity]. cbn [negb].
    destruct (strip_set env _ Hgroq) as (c & t & ->). reflexivity. }
  assert (O : blank env (u "GROQ_API_KEY") ->
              chat_model_of ChatGroq_imported settings
              = Ok (ChatOpenAI (getenv env (u "OPENAI_MODEL") (u "gpt-4o-mini"))
                      (strip (getenv env (u "OPENAI_API_KEY") (u ""))))).
  { intros Hgroq. destruct (Hng Hgroq) as (Hp & Hopen & Hm).
    unfold chat_model_of. rewrite Hp, (Ho Hopen), Hm.
    change (str_eqb (u "openai") (u "groq")) with false. cbv iota.
    destruct (strip_set env _ Hopen) as (c & t & ->). reflexivity. }
  split; [exact G|]. split; [exact O|].
  intros e He. destruct (blank_dec env (u "GROQ_API_KEY")) as [Hgroq | Hgroq].
  - rewrite (O Hgroq) in He. discriminate.
  - rewrite (G Hgroq) in He. destruct ChatGroq_imported; [discriminate|].
    injection He as <-. now repeat split.
Qed.

Lemma built_settings_give_a_chat_model_witness :
  let env := fun key =>
    if str_eqb key (u "GROQ_API_KEY") then Some (u " gsk_1 ")
    else if str_eqb key (u "OPENAI_API_KEY") then Some (u "sk-1")
    else None in
  exists settings,
    Settings_init env = Ok settings
    /\ chat_model_of true settings = Ok (ChatGroq (u "llama-3.3-70b-versatile") (u "gsk_1"))
    /\ (~ blank env (u "GROQ_API_KEY") ->
        chat_model_of true settings
        = Ok (ChatGroq (getenv env (u "GROQ_MODEL") (u "llama-3.3-70b-versatile"))
                (strip (getenv env (u "GROQ_API_KEY") (u ""))))).
Proof.
  eexists. split; [vm_compute; reflexivity|]. split; [vm_compute; reflexivity|].
  eapply (built_settings_give_a_chat_model
            (fun key =>
               if str_eqb key (u "GROQ_API_KEY") then Some (u " gsk_1 ")
               else if str_eqb key (u "OPENAI_API_KEY") then Some (u "sk-1")
               else None) _ true).
  vm_compute; reflexivity.
Defined.

(** X25: without the HuggingFace embeddings the vector store needs an
    OpenAI key, also when the provider is Groq: settings built from a Groq
    key alone make [_get_vector_store] raise [RuntimeError]; with an OpenAI
    key the OpenAI embeddings get that key, stripped.  With the HuggingFace
    embeddings importable they are used, whatever the keys. *)
Theorem embeddings_need_huggingface_or_openai_key (env : environ) (settings : Settings) :
  Settings_init env = Ok settings ->
  embeddings_of true settings = Ok HuggingFaceEmbeddings
  /\ (blank env (u "OPENAI_API_KEY") ->
      embeddings_of false settings = Raise RuntimeError
      /\ llm_provider settings = u "groq")
  /\ (~ blank env (u "OPENAI_API_KEY") ->
      embeddings_of false settings
      = Ok (OpenAIEmbeddings (strip (getenv env (u "OPENAI_API_KEY") (u ""))))).
Proof.
  intros Hs. pose proof (settings_built_from env settings Hs) as (Hg & Hng & Ho & Hno).
  split; [reflexivity|]. split.
  - intros Hopen. unfold embeddings_of. rewrite (Hno Hopen). split; [reflexivity|].
    destruct (blank_dec env (u "GROQ_API_KEY")) as [Hgroq | Hgroq].
    + now destruct (Hng Hgroq) as (_ & H & _).
    + now destruct (Hg Hgroq).
  - intros Hopen. unfold embeddings_of. rewrite (Ho Hopen).
    destruct (strip_set env _ Hopen) as (c & t & ->). reflexivity.
Qed.

Lemma embeddings_need_huggingface_or_openai_key_witness :
  let env := fun key => if str_eqb key (u "GROQ_API_KEY") then Some (u "gsk_1") else None in
  exists settings,
    Settings_init env = Ok settings
    /\ embeddings_of false settings = Raise RuntimeError
    /\ embeddings_of true settings = Ok HuggingFaceEmbeddings.
Proof.
  eexists. split; [vm_compute; reflexivity|]. split; [vm_compute; reflexivity|].
  eapply (embeddings_need_huggingface_or_openai_key
            (fun key => if str_eqb key (u "GROQ_API_KEY") then Some (u "gsk_1") else None)).
  vm_compute; reflexivity.
Defined.

(* ===================================================================== *)
(** * The range of [float] on integers *)
(* ===================================================================== *)

Local Open Scope Z_scope.

Lemma digits2_pos_bound (p : positive) (n : Z) :
  Zpos p < 2 ^ n -> Zpos (digits2_pos p) <= n.
Proof.
  revert n. induction p as [p IH|p IH|]; intros n H.
  - assert (Hn : 1 <= n).
    { destruct (Z.le_gt_cases 1 n) as [?|Hlt]; [assumption|].
      assert (Hc : n = 0 \/ n < 0) by lia. destruct Hc as [-> | Hneg].
      - simpl in H. lia.
      - rewrite Z.pow_neg_r in H by assumption. lia. }
    replace n with (Z.succ (n - 1)) in H by lia. rewrite Z.pow_succ_r in H by lia.
    cbn [digits2_pos]. specialize (IH (n - 1)). lia.
  - assert (Hn : 1 <= n).
    { destruct (Z.le_gt_cases 1 n) as [?|Hlt]; [assumption|].
      assert (Hc : n = 0 \/ n < 0) by lia. destruct Hc as [-> | Hneg].
      - simpl in H. lia.
      - rewrite Z.pow_neg_r in H by assumption. lia. }
    replace n with (Z.succ (n - 1)) in H by lia. rewrite Z.pow_succ_r in H by lia.
    cbn [digits2_pos]. specialize (IH (n - 1)). lia.
  - cbn [digits2_pos].
    destruct (Z.le_gt_cases 1 n) as [?|Hlt]; [assumption|].
    assert (Hc : n = 0 \/ n < 0) by lia. destruct Hc as [-> | Hneg].
    + simpl in H. lia.
    + rewrite Z.pow_neg_r in H by assumption. lia.
Qed.

Lemma digits2_pos_succ (p : positive) :
  Zpos (digits2_pos (Pos.succ p)) <= Zpos (digits2_pos p) + 1.
Proof. induction p as [p IH|p IH|]; cbn [Pos.succ digits2_pos]; lia. Qed.

Lemma digits2_pos_iter_xO (p k : positive) :
  Zpos (digits2_pos (Pos.iter xO p k)) = Zpos (digits2_pos p) + Zpos k.
Proof.
  revert p. induction k as [k IH|k IH|]; intros p; cbn [Pos.iter digits2_pos].
  - rewrite Pos2Z.inj_succ, IH, IH. lia.
  - rewrite IH, IH. lia.
  - lia.
Qed.

Lemma shr_1_digits (mrs : shr_record) :
  0 <= shr_m mrs ->
  0 <= shr_m (shr_1 mrs)
  /\ Zdigits2 (shr_m (shr_1 mrs)) <= Z.max 0 (Zdigits2 (shr_m mrs) - 1).
Proof.
  destruct mrs as [m r s]. cbn [shr_m]. intros Hm.
  destruct m as [|[p|p|]|p]; cbn [shr_1 shr_m Zdigits2 digits2_pos]; lia.
Qed.

Lemma iter_shr_1_digits (n : positive) (mrs : shr_record) :
  0 <= shr_m mrs ->
  0 <= shr_m (iter_pos shr_1 n mrs)
  /\ Zdigits2 (shr_m (iter_pos shr_1 n mrs)) <= Z.max 0 (Zdigits2 (shr_m mrs) - Zpos n).
Proof.
  revert mrs. induction n as [n IH|n IH|]; intros mrs Hm; cbn [iter_pos].
  - destruct (shr_1_digits mrs Hm) as [H1 D1].
    destruct (IH _ H1) as [H2 D2]. destruct (IH _ H2) as [H3 D3]. split; [assumption|]. lia.
  - destruct (IH _ Hm) as [H2 D2]. destruct (IH _ H2) as [H3 D3]. split; [assumption|]. lia.
  - apply (shr_1_digits mrs Hm).
Qed.

Lemma Zdigits2_nonneg (m : Z) : 0 <= Zdigits2 m.
Proof. destruct m; cbn; lia. Qed.

(** The exponent after a shift to the format, and the digits left. *)
Lemma shr_fexp_bound (m e : Z) (l : location) :
  0 <= m ->
  let '(mrs, e') := shr_fexp prec emax m e l in
  0 <= shr_m mrs
  /\ e' = Z.max e (fexp prec emax (Zdigits2 m + e))
  /\ Zdigits2 (shr_m mrs) <= Z.max 0 (Zdigits2 m - (e' - e)).
Proof.
  intros Hm. unfold shr_fexp, shr.
  assert (Hrec : shr_m (shr_record_of_loc m l) = m) by (destruct l as [|[]]; reflexivity).
  destruct (fexp prec emax (Zdigits2 m + e) - e) as [|n|n] eqn:E.
  - rewrite Hrec. pose proof (Zdigits2_nonneg m). repeat split; lia.
  - pose proof (iter_shr_1_digits n (shr_record_of_loc m l)) as H. rewrite Hrec in H.
    destruct (H Hm) as [H1 H2]. repeat split; [assumption | lia | lia].
  - rewrite Hrec. pose proof (Zdigits2_nonneg m). repeat split; lia.
Qed.

Lemma round_nearest_even_digits (m : Z) (l : location) :
  0 <= m ->
  0 <= round_nearest_even m l
  /\ Zdigits2 (round_nearest_even m l) <= Zdigits2 m + 1.
Proof.
  intros Hm.
  assert (H1 : 0 <= m + 1 /\ Zdigits2 (m + 1) <= Zdigits2 m + 1).
  { destruct m as [|p|p]; [cbn; lia | | lia].
    split; [lia|]. replace (Z.pos p + 1) with (Z.pos (Pos.succ p)) by lia.
    cbn [Zdigits2]. apply digits2_pos_succ. }
  unfold round_nearest_even. destruct l as [|[]]; try exact H1; try (split; lia).
  destruct (Z.even m); [split; lia | exact H1].
Qed.

Lemma binary_round_finite (s : bool) (p : positive) :
  Zpos (digits2_pos p) <= 1023 ->
  forall s', binary_round prec emax s p 0 <> S754_infinity s'.
Proof.
  intros Hd s'. unfold binary_round.
  destruct (shl_align p 0 (fexp prec emax (Z.pos (digits2_pos p) + 0))) as [mz ez] eqn:Hshl.
  assert (Hal : ez <= 0 /\ Zpos (digits2_pos mz) + ez = Zpos (digits2_pos p)).
  { unfold shl_align in Hshl.
    destruct (fexp prec emax (Z.pos (digits2_pos p) + 0) - 0) as [|k|k] eqn:E;
      injection Hshl as <- <-; try lia.
    rewrite digits2_pos_iter_xO. unfold fexp, emin, prec, emax in *. lia. }
  destruct Hal as [Hez Hdig].
  unfold binary_round_aux.
  pose proof (shr_fexp_bound (Zpos mz) ez loc_Exact) as H1.
  destruct (shr_fexp prec emax (Z.pos mz) ez loc_Exact) as [mrs' e'].
  destruct H1 as (Hm' & He' & Hd'); [lia|].
  destruct (round_nearest_even_digits (shr_m mrs') (loc_of_shr_record mrs') Hm') as [Hr Hrd].
  pose proof (shr_fexp_bound (round_nearest_even (shr_m mrs') (loc_of_shr_record mrs')) e' loc_Exact) as H2.
  destruct (shr_fexp prec emax _ e' loc_Exact) as [mrs'' e''].
  destruct H2 as (Hm'' & He'' & Hd''); [assumption|].
  cbn [Zdigits2] in He', Hd'.
  assert (Hbound : e'' <= 971).
  { unfold fexp, emin, prec, emax in *. lia. }
  destruct (shr_m mrs''); try discriminate.
  unfold prec, emax. destruct (e'' <=? 1024 - 53) eqn:E; [discriminate|].
  apply Z.leb_gt in E. lia.
Qed.

(** [float(z)] returns for every [int] below [2 ^ 1023] in absolute value. *)
Lemma float_of_int_returns (z : Z) :
  Z.abs z < 2 ^ 1023 -> exists x, float_of_int z = Ok x.
Proof.
  intros Hz. unfold float_of_int, binary_normalize. destruct z as [|p|p].
  - eexists. reflexivity.
  - assert (Hd : Zpos (digits2_pos p) <= 1023) by (apply digits2_pos_bound; lia).
    clear Hz. pose proof (binary_round_finite false p Hd) as Hfin.
    destruct (binary_round prec emax false p 0) as [s|s| |s m e];
      [eexists; reflexivity | destruct (Hfin s); reflexivity
      | eexists; reflexivity | eexists; reflexivity].
  - assert (Hd : Zpos (digits2_pos p) <= 1023) by (apply digits2_pos_bound; lia).
    clear Hz. pose proof (binary_round_finite true p Hd) as Hfin.
    destruct (binary_round prec emax true p 0) as [s|s| |s m e];
      [eexists; reflexivity | destruct (Hfin s); reflexivity
      | eexists; reflexivity | eexists; reflexivity].
Qed.

(** X26: the reconciler never raises on a raw output whose numeric fields,
    where they are integers, are below [2 ^ 1023] in absolute value: it
    returns a result. *)
Theorem amounts_in_range_never_raise (initial : dict) :
  (forall name z,
     In name NUMERIC_FIELDS -> dict_get initial name = VInt z -> Z.abs z < 2 ^ 1023) ->
  exists res, validate_corep_result initial = Ok res.
Proof.
  intros Hrange. destruct (validate_corep_result initial) as [res|e] eqn:E; [now exists res|].
  apply validate_raises in E as (_ & name & Hname & Hc).
  apply coerce_raises_int in Hc as (z & Hz & Hf).
  destruct (float_of_int_returns z (Hrange name z Hname Hz)) as (x & Hx). congruence.
Qed.

Lemma amounts_in_range_never_raise_witness :
  let initial := [(u "CET1", VInt (10 ^ 300)); (u "RWA", VInt (- 5000))] in
  exists res, validate_corep_result initial = Ok res.
Proof.
  apply (amounts_in_range_never_raise
           [(u "CET1", VInt (10 ^ 300)); (u "RWA", VInt (- 5000))]).
  intros name z Hname.
  repeat (destruct Hname as [<- | Hname];
          [intros H; vm_compute in H; try discriminate; injection H as <-;
           vm_compute; reflexivity|]).
  destruct Hname.
Defined.
